(** * datajoint-pacman: trial-aligned firing rates and population states

    A shallow embedding of [pacman_pipeline_python/pacman_brain.py]
    (the three computed tables [NeuronSpikeRaster], [NeuronRate] and
    [NeuronPsth]) and of
    [pacman_pipeline_python/utilities/data_structures.py]
    (the class [TrialAveragedPopulationState]).

    Conventions.
    - Sample indices are [Z]; times, rates and sample rates are exact
      rationals [Q] (float64 rounding is not modelled).  Where the source
      itself produces the special values [inf], [nan] or [None] they are
      explicit constructors ([xfloat], [cell]).
    - Integers are int64 in the source.  Where the source adds to an
      index the sum wraps around ([int64.add]).  Where it converts an
      integer to float64 (the bin edges of a raster, the condition ids in
      [reorder_conditions]) the conversion is taken exact; it is exact up
      to [2^53] in magnitude, and the theorems that depend on it carry
      that bound ([exact_index], [exact_id]).
    - The attributes of a population state are float arrays (rates); the
      arrays of a data set hold floats, and [None] where assembly left it.
      An array assembled with a [None] is an array of objects, and one
      assembled without is a float64 array; the embedding tells the two
      apart by the [None] cells.
    - A Python exception is a value of [exn]; a computation that may raise
      has type [result A].
    - Records fetched from the database are arguments of the embedded
      functions; inserting the computed row is the returned value.
    - The population state is built from the records as
      [_resample_data_attributes] leaves them; that method is embedded on
      its own ([Resampling]), over typed arrays. *)

From Stdlib Require Import ZArith QArith Qround List String Lia Lqa Sorted.
From stdpp Require Import base list strings.

Local Open Scope nat_scope.

(** ** Exceptions *)

Inductive exn : Type :=
| IndexError
| KeyError
| ValueError
| TypeError
| StopIteration
| ZeroDivisionError
| DataJointError
| AssertionError (msg : string).

Inductive result (A : Type) : Type :=
| Ok (a : A)
| Raise (e : exn).

Arguments Ok {A} a.
Arguments Raise {A} e.

Definition bind {A B : Type} (c : result A) (k : A -> result B) : result B :=
  match c with
  | Ok a => k a
  | Raise e => Raise e
  end.

Notation "'let*' x ':=' c 'in' k" := (bind c (fun x => k))
  (at level 10, x name, c at level 100, k at level 200).

Fixpoint traverse {A B : Type} (f : A -> result B) (l : list A) : result (list B) :=
  match l with
  | [] => Ok []
  | a :: r => let* b := f a in let* bs := traverse f r in Ok (b :: bs)
  end.

(** ** Python sequence primitives *)

Module py.

(** [a[0]] *)
Definition first {A : Type} (a : list A) : result A :=
  match a with
  | [] => Raise IndexError
  | x :: _ => Ok x
  end.

(** [a[-1]] *)
Fixpoint last {A : Type} (a : list A) : result A :=
  match a with
  | [] => Raise IndexError
  | [x] => Ok x
  | _ :: r => last r
  end.

(** [any(a)] on a boolean array *)
Definition any (a : list bool) : bool := existsb (fun b => b) a.

(** [next(x for x in l if p(x))]: the first element that passes, and
    [StopIteration] when the generator is exhausted. *)
Fixpoint next {A : Type} (p : A -> bool) (l : list A) : result A :=
  match l with
  | [] => Raise StopIteration
  | x :: r => if p x then Ok x else next p r
  end.

(** [round(x)]: to the nearest integer, a tie going to the even one. *)
Definition round (x : Q) : Z :=
  let f := Qfloor x in
  match Qcompare (x - inject_Z f) (1 # 2) with
  | Lt => f
  | Gt => (f + 1)%Z
  | Eq => if Z.even f then f else (f + 1)%Z
  end.

End py.

(** ** The NumPy operations the pipeline uses *)

Module np.

Section Ordered.
(** The element type of the bin edges with its [<=] test: [Q] for the
    pipeline, [xfloat] where the edges include infinities. *)
Context {T : Type} (leb : T -> T -> bool).

Fixpoint nondecreasing (a : list T) : bool :=
  match a with
  | x :: (y :: _) as r => leb x y && nondecreasing r
  | _ => true
  end.

Fixpoint nonincreasing (a : list T) : bool :=
  match a with
  | x :: (y :: _) as r => leb y x && nonincreasing r
  | _ => true
  end.

(** 1 for non-decreasing edges (constant and empty ones included),
    -1 for non-increasing ones, 0 otherwise. *)
Definition monotonicity (bins : list T) : Z :=
  if nondecreasing bins then 1%Z
  else if nonincreasing bins then (-1)%Z
  else 0%Z.

(** [searchsorted(a, v, side='right')] on a sorted [a]: the insertion
    point after every entry [<= v]. *)
Fixpoint searchsorted_right (a : list T) (v : T) : nat :=
  match a with
  | [] => 0
  | e :: r => if leb e v then S (searchsorted_right r v) else 0
  end.

(** [np.digitize(x, bins)] with the default [right=False]: the insertion
    point with [side='right'], taken in the reversed bins when they
    decrease. *)
Definition digitize (x : list T) (bins : list T) : result (list nat) :=
  match monotonicity bins with
  | 0%Z => Raise ValueError
  | Zneg _ =>
      Ok (map (fun v => length bins - searchsorted_right (rev bins) v) x)
  | Zpos _ => Ok (map (searchsorted_right bins) x)
  end.
End Ordered.

(** [np.zeros(n, dtype=bool)] and [np.zeros(n)] *)
Definition zeros_bool (n : nat) : list bool := repeat false n.
Definition zeros (n : nat) : list Q := repeat 0%Q n.

(** [a[mask]] for a boolean [mask]: the lengths must agree. *)
Fixpoint select {A : Type} (a : list A) (mask : list bool) : list A :=
  match a, mask with
  | x :: a', b :: mask' => if b then x :: select a' mask' else select a' mask'
  | _, _ => []
  end.

Definition mask_index {A : Type} (a : list A) (mask : list bool) : result (list A) :=
  if Nat.eqb (length a) (length mask) then Ok (select a mask)
  else Raise IndexError.

(** [raster[bins] = 1] for in-range, non-negative integer [bins]. *)
Definition set_true (raster : list bool) (bins : list Z) : list bool :=
  foldl (fun r b => <[Z.to_nat b := true]> r) raster bins.

(** [bins[(bins >= 0) & (bins < n)]] *)
Definition within (n : nat) (bins : list Z) : list Z :=
  List.filter (fun b => (0 <=? b)%Z && (b <? Z.of_nat n)%Z) bins.

Definition qmax (a b : Q) : Q := if Qle_bool a b then b else a.
Definition qmin (a b : Q) : Q := if Qle_bool a b then a else b.

(** [np.ptp(a)]: maximum minus minimum; no value for an empty array. *)
Definition ptp (a : list Q) : result Q :=
  match a with
  | [] => Raise ValueError
  | x :: r => Ok (foldl qmax x r - foldl qmin x r)%Q
  end.

(** [np.linspace(start, stop, num)]: [num] evenly spaced samples, the last
    one set to [stop]. *)
Definition linspace (start stop : Q) (num : Z) : result (list Q) :=
  match num with
  | Zneg _ => Raise ValueError
  | 0%Z => Ok []
  | 1%Z => Ok [start]
  | Zpos _ =>
      let n := Z.to_nat num in
      let step := ((stop - start) / inject_Z (num - 1))%Q in
      Ok (map (fun i => (inject_Z (Z.of_nat i) * step + start)%Q) (seq 0 (n - 1))
            ++ [stop])
  end.

(** Elementwise [a + b] of two 1-D arrays, with NumPy's broadcasting of a
    length-one operand. *)
Definition add (a b : list Q) : result (list Q) :=
  if Nat.eqb (length a) (length b) then Ok (zip_with Qplus a b)
  else match a, b with
       | [x], _ => Ok (map (Qplus x) b)
       | _, [y] => Ok (map (fun x => (x + y)%Q) a)
       | _, _ => Raise ValueError
       end.

(** [a.mean(axis=0)] of a 1-D object array whose entries are 1-D arrays:
    the entries are added from left to right and the sum is divided by
    their number.  With no entry there is nothing to divide: NumPy of the
    repository's time raises [ZeroDivisionError] (from version 1.20 on it
    warns and returns [nan]). *)
Definition mean_axis0 (a : list (list Q)) : result (list Q) :=
  match a with
  | [] => Raise ZeroDivisionError
  | r :: rest =>
      let* total :=
        foldl (fun acc x => let* s := acc in add s x) (Ok r) rest in
      Ok (map (fun s => (s / inject_Z (Z.of_nat (length a)))%Q) total)
  end.

(** [np.interp(x, xp, fp)] at one point, for increasing sample points
    [xp] and as many values [fp]: the last sample point that is at most
    [x] and the next one are joined by a line; before the first sample
    point the result is [fp[0]], from the last one on it is [fp[-1]]. *)
Definition interp_at (xp fp : list Q) (x : Q) : Q :=
  match searchsorted_right Qle_bool xp x with
  | 0 => nth 0 fp 0%Q
  | S j =>
      match xp !! j, fp !! j, xp !! S j, fp !! S j with
      | Some x0, Some y0, Some x1, Some y1 =>
          if Qeq_bool x0 x then y0
          else ((y1 - y0) / (x1 - x0) * (x - x0) + y0)%Q
      | _, Some y0, _, _ => y0
      | _, _, _, _ => 0%Q
      end
  end.

(** [np.interp(x, xp, fp)]: no sample point, or values and sample points
    of different lengths, is a [ValueError]. *)
Definition interp (x xp fp : list Q) : result (list Q) :=
  match xp with
  | [] => Raise ValueError
  | _ =>
      if Nat.eqb (length fp) (length xp) then Ok (map (interp_at xp fp) x)
      else Raise ValueError
  end.

End np.

(** ** DataJoint *)

Module dj.
(** [rel.fetch1(...)]: the relation must hold exactly one row. *)
Definition fetch1 {A : Type} (rows : list A) : result A :=
  match rows with
  | [x] => Ok x
  | _ => Raise DataJointError
  end.
End dj.

(** ** 64-bit integers *)

Module int64.
Definition min : Z := (- 2 ^ 63)%Z.
Definition max : Z := (2 ^ 63 - 1)%Z.

(** The value that int64 arithmetic keeps of an integer: the result wraps
    around. *)
Definition wrap (z : Z) : Z := ((z + 2 ^ 63) mod 2 ^ 64 - 2 ^ 63)%Z.

Definition add (a b : Z) : Z := wrap (a + b).
End int64.

(** ** pacman_brain.py, level 0: [NeuronSpikeRaster] *)

Module NeuronSpikeRaster.

(** [np.append(a, a[-1]+1+np.arange(2)).astype(float) - 0.5]: the two
    added indices are computed in the int64 of the array, [a[-1]+1] first
    and then its sums with 0 and 1, and wrap around;
    the conversion to float64 and the subtraction of 0.5 are taken exact,
    which they are for indices from [-2^52 + 1] to [2^52]. *)
Definition spike_bin_edges (ephys_alignment : list Z) : result (list Q) :=
  let* final := py.last ephys_alignment in
  Ok (map (fun e => (inject_Z e - (1 # 2))%Q)
        (ephys_alignment
           ++ [int64.add (int64.add final 1) 0;
               int64.add (int64.add final 1) 1])).

(** [make]: the trial's spike raster, from the trial's ephys alignment
    indices and the neuron's spike indices over the whole recording. *)
Definition make (ephys_alignment neuron_spike_indices : list Z)
  : result (list bool) :=
  let* spike_bin_edges := spike_bin_edges ephys_alignment in
  let* digitized :=
    np.digitize Qle_bool (map inject_Z neuron_spike_indices) spike_bin_edges in
  let spike_bins := map (fun d => (Z.of_nat d - 1)%Z) digitized in
  let spike_bins := np.within (length ephys_alignment) spike_bins in
  let spike_raster := np.zeros_bool (length ephys_alignment) in
  Ok (np.set_true spike_raster spike_bins).

(** The spikes inside the trial, by value: from the first alignment index
    to the last one. *)
Definition in_trial (ephys_alignment : list Z) (s : Z) : bool :=
  match ephys_alignment with
  | [] => false
  | a0 :: _ => (a0 <=? s)%Z && (s <=? List.last ephys_alignment a0)%Z
  end.

End NeuronSpikeRaster.

(** ** pacman_brain.py, level 1: [NeuronRate] *)

Module NeuronRate.

(** A part table of [processing.Filter]: the filter identities it holds a
    row for, and its [filter(signal, sample_rate)] method. *)
Record filter_part : Type := {
  part_name : string;
  part_keys : list Z;
  filter : list bool -> Q -> result (list Q)
}.

(** [part & filter_key], used as a truth value: some row of the part
    carries the key. *)
Definition restrict (part : filter_part) (filter_key : Z) : bool :=
  existsb (Z.eqb filter_key) (part_keys part).

(** [next(part for part in filter_parts if part & filter_key)] *)
Definition filter_lookup (filter_parts : list filter_part) (filter_key : Z)
  : result filter_part :=
  py.next (fun part => restrict part filter_key) filter_parts.

(** [np.append(t_beh, t_beh[-1]+(1+np.arange(2))/fs_beh) - 1/(2*fs_beh)] *)
Definition time_bin_edges (t_beh : list Q) (fs_beh : Q) : result (list Q) :=
  let* final := py.last t_beh in
  if Qeq_bool fs_beh 0 then Raise ZeroDivisionError
  else
    Ok (map (fun t => (t - 1 / (2 * fs_beh))%Q)
          (t_beh ++ [(final + (1 + 0) / fs_beh)%Q; (final + (1 + 1) / fs_beh)%Q])).

(** [make].  Fetched: the behavior sample rate and time vector, the
    trial's spike raster, the ephys sample rate, the rows of
    [processing.Filter] for the key's filter parameters, and the part
    tables of [processing.Filter]. *)
Definition make (fs_beh : Q) (t_beh : list Q) (spike_raster : list bool)
    (fs_ephys : Q) (filter_rows : list Z) (filter_parts : list filter_part)
  : result (list Q) :=
  if py.any spike_raster then
    let* t0 := py.first t_beh in
    let* t1 := py.last t_beh in
    let* span := np.ptp t_beh in
    let* t_ephys := np.linspace t0 t1 (1 + py.round (fs_ephys * span))%Z in
    let* time_bin_edges := time_bin_edges t_beh fs_beh in
    let* spike_times := np.mask_index t_ephys spike_raster in
    let* digitized := np.digitize Qle_bool spike_times time_bin_edges in
    let spike_bins := map (fun d => (Z.of_nat d - 1)%Z) digitized in
    let spike_bins := np.within (length t_beh) spike_bins in
    let spike_raster := np.set_true (np.zeros_bool (length t_beh)) spike_bins in
    let* filter_key := dj.fetch1 filter_rows in
    let* filter_rel := filter_lookup filter_parts filter_key in
    let* filtered := filter filter_rel spike_raster fs_beh in
    Ok (map (fun x => (fs_beh * x)%Q) filtered)
  else
    Ok (np.zeros (length t_beh)).

End NeuronRate.

(** ** pacman_brain.py, level 2: [NeuronPsth] *)

Module NeuronPsth.

(** [make]: [neuron_rates] is what [(NeuronRate & key).fetch('neuron_rate')]
    returns, one rate sequence per trial. *)
Definition make (neuron_rates : list (list Q)) : result (list Q) :=
  np.mean_axis0 neuron_rates.

End NeuronPsth.

(** ** float64 values with the special ones, and array cells *)

Inductive xfloat : Type :=
| Fin (q : Q)
| PInf
| NInf
| NaN.

(** An array cell: a float, or the Python object [None] (object arrays). *)
Inductive cell : Type :=
| Num (x : xfloat)
| PyNone.

Module float64.

Definition leb (a b : xfloat) : bool :=
  match a, b with
  | NaN, _ | _, NaN => false
  | NInf, _ | _, PInf => true
  | Fin x, Fin y => Qle_bool x y
  | _, _ => false
  end.

Definition add (a b : xfloat) : xfloat :=
  match a, b with
  | NaN, _ | _, NaN => NaN
  | Fin x, Fin y => Fin (x + y)
  | PInf, NInf | NInf, PInf => NaN
  | PInf, _ | _, PInf => PInf
  | NInf, _ | _, NInf => NInf
  end.

Definition opp (a : xfloat) : xfloat :=
  match a with
  | Fin x => Fin (- x)
  | PInf => NInf
  | NInf => PInf
  | NaN => NaN
  end.

Definition sub (a b : xfloat) : xfloat :=
  match a, b with
  | Fin x, Fin y => Fin (x - y)
  | _, _ => add a (opp b)
  end.

(** [a / b]; a zero divisor is the positive zero (what [max - min] and
    [0 + 0.0] give), so the quotient is an infinity of the dividend's
    sign, or [nan] for [0 / 0].  NumPy warns and does not raise. *)
Definition div (a b : xfloat) : xfloat :=
  match a, b with
  | NaN, _ | _, NaN => NaN
  | Fin x, Fin y =>
      if Qeq_bool y 0 then
        match Qcompare x 0 with
        | Gt => PInf
        | Lt => NInf
        | Eq => NaN
        end
      else Fin (x / y)
  | Fin _, _ => Fin 0
  | PInf, Fin y => if Qle_bool 0 y then PInf else NInf
  | NInf, Fin y => if Qle_bool 0 y then NInf else PInf
  | _, _ => NaN
  end.

(** [np.maximum] and [np.minimum]: a [nan] operand wins. *)
Definition max (a b : xfloat) : xfloat :=
  match a, b with
  | NaN, _ | _, NaN => NaN
  | _, _ => if leb a b then b else a
  end.

Definition min (a b : xfloat) : xfloat :=
  match a, b with
  | NaN, _ | _, NaN => NaN
  | _, _ => if leb a b then a else b
  end.


Definition of_nat (n : nat) : xfloat := Fin (inject_Z (Z.of_nat n)).

(** One row of [values.mean(axis=1, keepdims=True)]. *)
Definition mean (row : list xfloat) : xfloat :=
  div (foldl add (Fin 0) row) (of_nat (length row)).

(** One row of [values.ptp(axis=1, keepdims=True)]: the maximum and the
    minimum have no value on an empty row. *)
Definition ptp (row : list xfloat) : result xfloat :=
  match row with
  | [] => Raise ValueError
  | x :: r => Ok (sub (foldl max x r) (foldl min x r))
  end.

End float64.

Definition matrix : Type := list (list cell).

(** The float view of an array; an object array that holds [None] admits no
    arithmetic. *)
Definition as_float (c : cell) : result xfloat :=
  match c with
  | Num x => Ok x
  | PyNone => Raise TypeError
  end.

Definition as_floats (m : matrix) : result (list (list xfloat)) :=
  traverse (traverse as_float) m.

Definition of_floats (m : list (list xfloat)) : matrix := map (map Num) m.

(** ** Python dictionaries, in insertion order *)

Module dict.
Section Dict.
Context {K V : Type} `{EqDecision K}.

(** [d.update({k: v})]: an existing key keeps its place. *)
Fixpoint update (k : K) (v : V) (d : list (K * V)) : list (K * V) :=
  match d with
  | [] => [(k, v)]
  | (k', v') :: r =>
      if decide (k = k') then (k, v) :: r else (k', v') :: update k v r
  end.

Fixpoint get (k : K) (d : list (K * V)) : option V :=
  match d with
  | [] => None
  | (k', v') :: r => if decide (k = k') then Some v' else get k r
  end.

Definition values (d : list (K * V)) : list V := map snd d.
Definition keys (d : list (K * V)) : list K := map fst d.
End Dict.
End dict.

(** ** xarray: a data set over a store of array buffers *)

Definition label : Type := (Z * Q)%type.

Module xr.

(** The [xr.Dataset]: each data variable names the buffer that holds its
    2-D array (members by condition-time), and the two coordinates. *)
Record Dataset : Type := {
  data_vars : list (string * nat);
  population : list Z;
  condition_time : list label
}.

Definition label_eqb (a b : label) : bool :=
  Z.eqb a.1 b.1 && Qeq_bool a.2 b.2.

(** [index.is_unique] *)
Fixpoint is_unique (index : list label) : bool :=
  match index with
  | [] => true
  | a :: r => negb (existsb (label_eqb a) r) && is_unique r
  end.

(** [index.get_indexer(target)], one target label: its position. *)
Fixpoint get_loc (index : list label) (l : label) : option nat :=
  match index with
  | [] => None
  | a :: r => if label_eqb a l then Some 0 else S <$> get_loc r l
  end.

(** One row of a reindexed variable: a label the source lacks is filled
    with [nan]. *)
Definition reindex_row (index target : list label) (row : list cell) : list cell :=
  map (fun l => match get_loc index l with
                | Some k => default (Num NaN) (row !! k)
                | None => Num NaN
                end) target.

(** The arrays of a data set, read from the store. *)
Definition values (store : list matrix) (ds : Dataset) : list (string * matrix) :=
  map (fun v => (v.1, store !!! v.2)) (data_vars ds).

(** [ds.copy(deep=True)]: every variable gets a buffer of its own. *)
Definition copy_deep (store : list matrix) (ds : Dataset) : list matrix * Dataset :=
  (store ++ map (fun v => store !!! v.2) (data_vars ds),
   {| data_vars := imap (fun i v => (v.1, length store + i)) (data_vars ds);
      population := population ds;
      condition_time := condition_time ds |}).

(** [ds.reindex(condition_time=target)]: a new data set; the source index
    must not hold a label twice. *)
Definition reindex (store : list matrix) (ds : Dataset) (target : list label)
  : result (list matrix * Dataset) :=
  if is_unique (condition_time ds) then
    Ok (store ++ map (fun v => map (reindex_row (condition_time ds) target)
                                 (store !!! v.2)) (data_vars ds),
        {| data_vars := imap (fun i v => (v.1, length store + i)) (data_vars ds);
           population := population ds;
           condition_time := target |})
  else Raise ValueError.

End xr.

(** ** utilities/data_structures.py: [TrialAveragedPopulationState] *)

Module TrialAveragedPopulationState.

Import xr.

(** The object: the store of array buffers, the baseline data set and the
    working one. *)
Record self : Type := {
  store : list matrix;
  _raw_data_set : Dataset;
  data_set : Dataset
}.

(** A method call: the exception it raised, if any, and the object as the
    call left it. *)
Definition call (A : Type) : Type := (result A * self)%type.

(** *** Resampling of boolean attributes *)

(** The midpoints of consecutive samples of [t_new], then [-inf] in front
    and [inf] at the end. *)
Definition t_bins (t_new : list Q) : list xfloat :=
  [NInf]
    ++ map Fin (zip_with (fun a b => ((a + b) / 2)%Q)
                  (removelast t_new) (tl t_new))
    ++ [PInf].

Definition _rebin (raster : list bool) (t_old t_new : list Q) (fs_new : Q)
  : result (list bool) :=
  let t_bins := t_bins t_new in
  let* spike_times := np.mask_index t_old raster in
  let* new_spike_indices := np.digitize float64.leb (map Fin spike_times) t_bins in
  Ok (map (fun i => bool_decide (i ∈ new_spike_indices)) (seq 0 (length t_new))).

(** *** Construction *)

(** A fetched condition: its id and its time vector at the target rate. *)
Definition condition : Type := (Z * list Q)%type.

(** A fetched data record, after [_resample_data_attributes]: the member
    of the population, the condition, and the requested attributes. *)
Record data_attribute : Type := {
  member : Z;
  condition_id : Z;
  attributes : list (string * list xfloat)
}.

Definition _get_condition_time_multi_index (condition_attributes : list condition)
  : result (list label) :=
  match condition_attributes with
  | [] => Raise ValueError
  | _ => Ok (flat_map (fun c => map (pair c.1) c.2) condition_attributes)
  end.

Definition _get_data_keys (data_attributes : list data_attribute) : list (Z * Z) :=
  map (fun attr => (member attr, condition_id attr)) data_attributes.

(** What [np.array] makes of a list of 1-D arrays and [None]s: a 2-D float
    array when all are arrays of one length, and otherwise (NumPy of the
    repository's time) a 1-D array of objects. *)
Inductive ndarray : Type :=
| Float2 (rows : list (list xfloat))
| Object1 (items : list (option (list xfloat))).

Definition np_array (values : list (option (list xfloat))) : ndarray :=
  match values with
  | Some a :: _ =>
      if forallb (fun v => match v with
                           | Some b => Nat.eqb (length b) (length a)
                           | None => false
                           end) values
      then Float2 (map (default []) values)
      else Object1 values
  | _ => Object1 values
  end.

(** The entries of the array in row-major order, each as what [np.hstack]
    later sees of it ([np.atleast_1d]): an array as it is, a scalar or
    [None] as one cell. *)
Definition entries (a : ndarray) : list (list cell) :=
  match a with
  | Float2 rows => map (fun x => [Num x]) (concat rows)
  | Object1 items =>
      map (fun o => match o with
                    | Some x => map Num x
                    | None => [PyNone]
                    end) items
  end.

(** [a.reshape(p, c)] *)
Definition reshape (a : ndarray) (p c : nat) : result (list (list (list cell))) :=
  let es := entries a in
  if Nat.eqb (length es) (p * c) then Ok (list.reshape (replicate p c) es)
  else Raise ValueError.

(** [np.hstack(X)] *)
Definition hstack (X : list (list cell)) : result (list cell) :=
  match X with
  | [] => Raise ValueError
  | _ => Ok (concat X)
  end.

(** [np.vstack(rows)] *)
Definition vstack (rows : list (list cell)) : result matrix :=
  match rows with
  | [] => Raise ValueError
  | r :: rest =>
      if forallb (fun r' => Nat.eqb (length r') (length r)) rest then Ok rows
      else Raise ValueError
  end.

Definition attribute (attr : data_attribute) (name : string)
  : result (list xfloat) :=
  match dict.get name (attributes attr) with
  | Some x => Ok x
  | None => Raise KeyError
  end.

(** The body of the loop over the attribute names: [array_data] is
    updated from the records and the 2-D array of the attribute built. *)
Definition data_array (population_keys : list Z)
    (condition_attributes : list condition) (data_keys : list (Z * Z))
    (data_attributes : list data_attribute) (attr_name : string)
    (array_data : list ((Z * Z) * option (list xfloat)))
  : result (list ((Z * Z) * option (list xfloat)) * matrix) :=
  let* array_data :=
    foldl (fun acc item =>
             let* d := acc in
             let* x := attribute item.2 attr_name in
             Ok (dict.update item.1 (Some x) d))
      (Ok array_data) (zip data_keys data_attributes) in
  let a := np_array (dict.values array_data) in
  let* a := reshape a (length population_keys) (length condition_attributes) in
  let* rows := traverse hstack a in
  let* m := vstack rows in
  Ok (array_data, m).

(** [xr.Dataset(data_set, coords=data_coords)]: every array must have one
    row per member and one column per condition-time label. *)
Definition conforms (population_keys : list Z) (index : list label) (m : matrix)
  : bool :=
  Nat.eqb (length m) (length population_keys)
  && forallb (fun row => Nat.eqb (length row) (length index)) m.

Definition reset_data_set (s : self) : call unit :=
  let (store', working) := copy_deep (store s) (_raw_data_set s) in
  (Ok tt, {| store := store';
             _raw_data_set := _raw_data_set s;
             data_set := working |}).

(** [_get_data_set], with the fields of the object it reads as arguments.
    The arrays of the baseline data set are put in the store in the order
    of the data variables, then [reset_data_set] makes the working copy
    (until then the working data set is not set; the record holds the
    baseline in its place). *)
Definition _get_data_set (population_keys : list Z)
    (condition_attributes : list condition) (attribute_names : list string)
    (data_attributes : list data_attribute) (condition_times_index : list label)
    (data_keys : list (Z * Z))
  : result self :=
  let array_data :=
    foldl (fun d k => dict.update k None d) []
      (flat_map (fun p => map (fun c => (p, c.1)) condition_attributes)
         population_keys) in
  let* built :=
    foldl (fun acc attr_name =>
             let* st := acc in
             let* r := data_array population_keys condition_attributes
                         data_keys data_attributes attr_name st.1 in
             Ok (r.1, dict.update attr_name r.2 st.2))
      (Ok (array_data, [])) attribute_names in
  let data_set := built.2 in
  if forallb (fun v => conforms population_keys condition_times_index v.2) data_set
  then
    let raw := {| data_vars := imap (fun i v => (v.1, i)) data_set;
                  population := population_keys;
                  condition_time := condition_times_index |} in
    Ok (reset_data_set {| store := dict.values data_set;
                          _raw_data_set := raw;
                          data_set := raw |}).2
  else Raise ValueError.

(** [_get_population_state], from what the three fetches returned and
    [_resample_data_attributes] left. *)
Definition _get_population_state (population_keys : list Z)
    (condition_attributes : list condition) (attribute_names : list string)
    (data_attributes : list data_attribute) : result self :=
  let* condition_times_index :=
    _get_condition_time_multi_index condition_attributes in
  let data_keys := _get_data_keys data_attributes in
  _get_data_set population_keys condition_attributes attribute_names
    data_attributes condition_times_index data_keys.

(** *** Public methods *)

(** [self.data_set[var].values] *)
Definition variable (s : self) (var : string) : result matrix :=
  match dict.get var (data_vars (data_set s)) with
  | Some buffer => Ok (store s !!! buffer)
  | None => Raise KeyError
  end.

(** [list(set(only_vars) - set(data_vars))] *)
Definition unrecognized_variables (only_vars data_vars : list string)
  : list string :=
  remove_dups (List.filter (fun v => negb (bool_decide (v ∈ data_vars))) only_vars).

(** The truth value of a string: false for the empty one only. *)
Definition truthy (v : string) : bool := negb (String.eqb v "").

(** ['Attributes ' + ' '.join(['{}']*n) + ' not found in data set'] *)
Definition attributes_message (n : nat) : string :=
  ("Attributes " ++ String.concat " " (repeat "{}" n)
     ++ " not found in data set")%string.

(** ['Reference variable {} not found in data set'.format(reference_var)] *)
Definition reference_message (reference_var : string) : string :=
  ("Reference variable " ++ reference_var ++ " not found in data set")%string.

(** The opening lines that [mean_center] and [normalize] share: the
    variables the call acts on.  The intersection of the two sets is
    listed in the order of the data set's variables. *)
Definition selected_vars (only_vars : option (list string))
    (data_vars : list string) : result (list string) :=
  match only_vars with
  | None => Ok data_vars
  | Some only_vars =>
      let unrecognized_variables := unrecognized_variables only_vars data_vars in
      if existsb truthy unrecognized_variables
      then Raise (AssertionError
                    (attributes_message (length unrecognized_variables)))
      else Ok (List.filter (fun v => bool_decide (v ∈ only_vars)) data_vars)
  end.

(** The second [assert] and the dictionary comprehension after it: every
    variable gets the statistic of [reference_var]. *)
Definition with_reference (reference_var : option string)
    (data_vars : list string) (stats : list (string * list xfloat))
  : result (list (string * list xfloat)) :=
  match reference_var with
  | None => Ok stats
  | Some reference_var =>
      if bool_decide (reference_var ∈ data_vars) then
        match dict.get reference_var stats with
        | Some x => Ok (map (fun var => (var, x)) data_vars)
        | None => Raise KeyError
        end
      else Raise (AssertionError (reference_message reference_var))
  end.

(** [self.data_set[var] op= operand]: the array of [var] is changed in
    its buffer, row [i] by [operand[i]]. *)
Definition inplace (op : xfloat -> xfloat -> xfloat)
    (item : string * list xfloat) (s : self) : call unit :=
  match dict.get item.1 (data_vars (data_set s)) with
  | None => (Raise KeyError, s)
  | Some buffer =>
      match as_floats (store s !!! buffer) with
      | Raise e => (Raise e, s)
      | Ok m =>
          (Ok tt,
           {| store :=
                <[buffer := of_floats
                              (zip_with (fun row x => map (fun c => op c x) row)
                                 m item.2)]> (store s);
              _raw_data_set := _raw_data_set s;
              data_set := data_set s |})
      end
  end.

(** [for x in l: f(x)] *)
Fixpoint for_each {A : Type} (f : A -> self -> call unit) (l : list A)
    (s : self) : call unit :=
  match l with
  | [] => (Ok tt, s)
  | a :: r =>
      match f a s with
      | (Ok _, s') => for_each f r s'
      | (Raise e, s') => (Raise e, s')
      end
  end.

Definition mean_center (only_vars : option (list string))
    (reference_var : option string) (s : self) : call unit :=
  let data_means :=
    let* data_vars := selected_vars only_vars (dict.keys (data_vars (data_set s))) in
    let* data_means :=
      traverse (fun var =>
                  let* m := variable s var in
                  let* m := as_floats m in
                  Ok (var, map float64.mean m)) data_vars in
    with_reference reference_var data_vars data_means in
  match data_means with
  | Raise e => (Raise e, s)
  | Ok data_means => for_each (inplace float64.sub) data_means s
  end.

Definition normalize (only_vars : option (list string))
    (reference_var : option string) (soft_factor : Q) (s : self) : call unit :=
  let data_ranges :=
    let* data_vars := selected_vars only_vars (dict.keys (data_vars (data_set s))) in
    let* data_ranges :=
      traverse (fun var =>
                  let* m := variable s var in
                  let* m := as_floats m in
                  let* r := traverse float64.ptp m in
                  Ok (var, r)) data_vars in
    with_reference reference_var data_vars data_ranges in
  match data_ranges with
  | Raise e => (Raise e, s)
  | Ok data_ranges =>
      for_each (inplace float64.div)
        (map (fun item => (item.1, map (float64.add (Fin soft_factor)) item.2))
           data_ranges) s
  end.

(** [reorder_conditions].  The source compares the condition ids as
    float64 values and converts the ids it keeps back to integers; here
    they are compared as integers, which is the same for ids up to [2^53]
    in magnitude. *)
Definition reorder_conditions (sorted_condition_ids : list Z) (s : self)
  : call unit :=
  let ct_indexes := condition_time (data_set s) in
  match ct_indexes, sorted_condition_ids with
  | [], _ | _, [] => (Raise ValueError, s)
  | _, _ =>
      let sorted_ct_indexes :=
        flat_map (fun cid => List.filter (fun ct => Z.eqb ct.1 cid) ct_indexes)
          sorted_condition_ids in
      match reindex (store s) (data_set s) sorted_ct_indexes with
      | Raise e => (Raise e, s)
      | Ok (store', reindexed) =>
          (Ok tt, {| store := store';
                     _raw_data_set := _raw_data_set s;
                     data_set := reindexed |})
      end
  end.

End TrialAveragedPopulationState.


(** ** utilities/data_structures.py: [_resample_data_attributes]

    The records as fetched, before resampling.  An attribute is a NumPy
    array of booleans (a spike raster), of integers or of floats (finite
    ones, as exact rationals); sample rates are integers.
    [ConditionParams.target_force_profile] is not part of these sources:
    it is an argument [profile] of the embedded functions, taken to return
    the time vector of a condition at a sample rate. *)

Module Resampling.

Inductive array : Type :=
| BoolArray (a : list bool)
| IntArray (a : list Z)
| FloatArray (a : list Q).

Definition size (a : array) : nat :=
  match a with
  | BoolArray a => length a
  | IntArray a => length a
  | FloatArray a => length a
  end.

(** [a.astype(float)] *)
Definition astype_float (a : array) : list Q :=
  match a with
  | BoolArray a => map (fun b : bool => if b then 1%Q else 0%Q) a
  | IntArray a => map inject_Z a
  | FloatArray a => a
  end.

(** [all(x in [0,1] for x in a.astype(float))] *)
Definition is_boolean (a : array) : bool :=
  forallb (fun x => Qeq_bool x 0 || Qeq_bool x 1) (astype_float a).

(** [t[i]] for an integer [i]: a negative index counts from the end. *)
Definition getitem (t : list Q) (i : Z) : result Q :=
  let n := Z.of_nat (length t) in
  if (0 <=? i)%Z && (i <? n)%Z then Ok (nth (Z.to_nat i) t 0%Q)
  else if (- n <=? i)%Z && (i <? 0)%Z then Ok (nth (Z.to_nat (n + i)) t 0%Q)
  else Raise IndexError.

(** [t_old[raster]]: a boolean array is a mask, an integer array holds
    positions, and an array of floats cannot index. *)
Definition index (t_old : list Q) (raster : array) : result (list Q) :=
  match raster with
  | BoolArray mask => np.mask_index t_old mask
  | IntArray positions => traverse (getitem t_old) positions
  | FloatArray _ => Raise IndexError
  end.

(** [_rebin], on an array of any of the three types. *)
Definition _rebin (raster : array) (t_old t_new : list Q) (fs_new : Z)
  : result array :=
  let t_bins := TrialAveragedPopulationState.t_bins t_new in
  let* spike_times := index t_old raster in
  let* new_spike_indices := np.digitize float64.leb (map Fin spike_times) t_bins in
  Ok (BoolArray (map (fun i => bool_decide (i ∈ new_spike_indices))
                   (seq 0 (length t_new)))).

(** A fetched record: [attr[population_name]], [attr['condition_id']],
    [attr['old_sample_rate']] and the requested attributes. *)
Record data_attribute : Type := {
  member : Z;
  condition_id : Z;
  old_sample_rate : Z;
  attributes : list (string * array)
}.

(** [_fetch_condition_attributes], from the fetched condition ids: each
    condition gets its time vector at the target rate. *)
Definition _fetch_condition_attributes (profile : Z -> Z -> list Q)
    (sample_rate : Z) (condition_ids : list Z)
  : list TrialAveragedPopulationState.condition :=
  map (fun cid => (cid, profile cid sample_rate)) condition_ids.

(** The dictionary [condition_times] that [_resample_data_attributes]
    starts from. *)
Definition condition_times (sample_rate : Z)
    (condition_attributes : list TrialAveragedPopulationState.condition)
  : list ((Z * Z) * list Q) :=
  foldl (fun d (attr : TrialAveragedPopulationState.condition) =>
           dict.update (attr.1, sample_rate) attr.2 d)
    [] condition_attributes.

(** The body of the loop over the attribute names. *)
Definition resample_attribute (t_old t_new : list Q) (sample_rate : Z)
    (name : string) (attr : list (string * array))
  : result (list (string * array)) :=
  match dict.get name attr with
  | None => Raise KeyError
  | Some a =>
      let* resampled :=
        if is_boolean a then _rebin a t_old t_new sample_rate
        else let* y := np.interp t_new t_old (astype_float a) in
             Ok (FloatArray y) in
      Ok (dict.update name resampled attr)
  end.

(** The body of the loop over the records, with the dictionary
    [condition_times] as state. *)
Definition resample_record (profile : Z -> Z -> list Q) (sample_rate : Z)
    (attribute_names : list string) (condition_times : list ((Z * Z) * list Q))
    (attr : data_attribute)
  : result (list ((Z * Z) * list Q) * data_attribute) :=
  if Z.eqb (old_sample_rate attr) sample_rate then Ok (condition_times, attr)
  else
    let condition_time_key := (condition_id attr, old_sample_rate attr) in
    let (t_old, condition_times) :=
      match dict.get condition_time_key condition_times with
      | Some t_old => (t_old, condition_times)
      | None =>
          let t_old := profile (condition_id attr) (old_sample_rate attr) in
          (t_old, dict.update condition_time_key t_old condition_times)
      end in
    match dict.get (condition_id attr, sample_rate) condition_times with
    | None => Raise KeyError
    | Some t_new =>
        let* resampled :=
          foldl (fun acc name =>
                   let* attributes := acc in
                   resample_attribute t_old t_new sample_rate name attributes)
            (Ok (attributes attr)) attribute_names in
        Ok (condition_times,
            {| member := member attr;
               condition_id := condition_id attr;
               old_sample_rate := old_sample_rate attr;
               attributes := resampled |})
    end.

Definition _resample_data_attributes (profile : Z -> Z -> list Q)
    (sample_rate : Z)
    (condition_attributes : list TrialAveragedPopulationState.condition)
    (attribute_names : list string) (data_attributes : list data_attribute)
  : result (list data_attribute) :=
  let* final :=
    foldl (fun acc attr =>
             let* st := acc in
             let* r := resample_record profile sample_rate attribute_names
                         st.1 attr in
             Ok (r.1, st.2 ++ [r.2]))
      (Ok (condition_times sample_rate condition_attributes, []))
      data_attributes in
  Ok final.2.

End Resampling.


(** * Specification-side definitions and example data *)

(** The sum of the entries at index [i] over a collection of sequences. *)
Definition column_sum (i : nat) (rows : list (list Q)) : Q :=
  foldr (fun r acc => (nth i r 0 + acc)%Q) 0%Q rows.

(** The number of true entries of a raster. *)
Definition count_true (raster : list bool) : nat :=
  length (List.filter (fun b => b) raster).

(** Two part tables that both hold a row for filter 1, and one that does
    not. *)
Definition boxcar : NeuronRate.filter_part :=
  {| NeuronRate.part_name := "Boxcar";
     NeuronRate.part_keys := [1%Z];
     NeuronRate.filter := fun signal _ =>
       Ok (map (fun b : bool => if b then 1%Q else 0%Q) signal) |}.

Definition gaussian : NeuronRate.filter_part :=
  {| NeuronRate.part_name := "Gaussian";
     NeuronRate.part_keys := [1%Z; 2%Z];
     NeuronRate.filter := fun signal _ =>
       Ok (map (fun b : bool => if b then (1 # 2)%Q else 0%Q) signal) |}.

Definition exponential : NeuronRate.filter_part :=
  {| NeuronRate.part_name := "Exponential";
     NeuronRate.part_keys := [3%Z];
     NeuronRate.filter := fun _ _ => Raise ValueError |}.


(** The mutating operations of a population state. *)
Inductive mutation : Type :=
| MeanCenter (only_vars : option (list string)) (reference_var : option string)
| Normalize (only_vars : option (list string)) (reference_var : option string)
    (soft_factor : Q)
| ReorderConditions (sorted_condition_ids : list Z).

Definition mutate (m : mutation) (s : TrialAveragedPopulationState.self)
  : TrialAveragedPopulationState.call unit :=
  match m with
  | MeanCenter only_vars reference_var =>
      TrialAveragedPopulationState.mean_center only_vars reference_var s
  | Normalize only_vars reference_var soft_factor =>
      TrialAveragedPopulationState.normalize only_vars reference_var soft_factor s
  | ReorderConditions sorted_condition_ids =>
      TrialAveragedPopulationState.reorder_conditions sorted_condition_ids s
  end.

(** The object after a sequence of calls, whether a call raised or not. *)
Definition after (ms : list mutation) (s : TrialAveragedPopulationState.self)
  : TrialAveragedPopulationState.self :=
  foldl (fun s m => (mutate m s).2) s ms.

(** The baseline's buffers are the first [k] of the store and the working
    data set uses none of them. *)
Definition baseline_private (k : nat) (s : TrialAveragedPopulationState.self)
  : Prop :=
  Forall (fun v : string * nat => v.2 < k)
    (xr.data_vars (TrialAveragedPopulationState._raw_data_set s))
  /\ k <= length (TrialAveragedPopulationState.store s)
  /\ Forall (fun v : string * nat => k <= v.2)
       (xr.data_vars (TrialAveragedPopulationState.data_set s)).

(** An index that float64 holds exactly together with its two successors
    and with the half below each of them. *)
Definition exact_index (e : Z) : Prop := (- 2 ^ 52 < e <= 2 ^ 52 - 2)%Z.

(** A condition id that float64 holds exactly, and no other integer with
    it. *)
Definition exact_id (cid : Z) : Prop := (- 2 ^ 53 <= cid <= 2 ^ 53)%Z.

(** An index whose condition ids float64 holds exactly: on it, and for
    listed ids of the same kind, the float64 comparison of
    [reorder_conditions] is the comparison of the integers, and the ids
    come back from float64 as they were. *)
Definition exact_ids (index : list label) : Prop :=
  Forall (fun ct : label => exact_id ct.1) index.

(** The conditions of a condition-time index. *)
Definition present (index : list label) (cid : Z) : Prop :=
  exists t, (cid, t) ∈ index.

(** The labels of one condition, in the order of the index. *)
Definition block (index : list label) (cid : Z) : list label :=
  List.filter (fun ct => Z.eqb ct.1 cid) index.


(** The variables of the working data set have distinct names and
    distinct buffers, all of them in the store. *)
Definition well_formed (s : TrialAveragedPopulationState.self) : Prop :=
  let vars := xr.data_vars (TrialAveragedPopulationState.data_set s) in
  NoDup (map fst vars)
  /\ NoDup (map snd vars)
  /\ Forall (fun v : string * nat =>
               v.2 < length (TrialAveragedPopulationState.store s)) vars.

(** The working data set is well formed and holds float data: its
    variables have distinct names and distinct buffers in the store, and
    each array holds floats only, in rows that are not empty. *)
Definition float_data (s : TrialAveragedPopulationState.self) : Prop :=
  let vars := xr.data_vars (TrialAveragedPopulationState.data_set s) in
  NoDup (map fst vars)
  /\ NoDup (map snd vars)
  /\ Forall (fun v : string * nat =>
               v.2 < length (TrialAveragedPopulationState.store s)
               /\ exists fm,
                    as_floats (TrialAveragedPopulationState.store s !!! v.2) = Ok fm
                    /\ Forall (fun row => row <> []) fm) vars.

(** The loop invariant of the in-place updates: the buffers of the working
    variables exist and hold floats. *)
Definition floats_in_store (vars : list (string * nat)) (st : list matrix)
  : Prop :=
  Forall (fun v : string * nat =>
            v.2 < length st /\ exists fm, as_floats (st !!! v.2) = Ok fm) vars.

(** The midpoints of consecutive samples of a time grid. *)
Definition midpoints (t : list Q) : list Q :=
  zip_with (fun a b => ((a + b) / 2)%Q) (removelast t) (tl t).

(** The positions of the spikes of a raster, from position [k] on. *)
Fixpoint spike_positions (k : nat) (raster : list bool) : list nat :=
  match raster with
  | [] => []
  | b :: r => if b then k :: spike_positions (S k) r else spike_positions (S k) r
  end.

(** The sum of a sequence of rationals. *)
Definition qsum (qs : list Q) : Q := foldr Qplus 0%Q qs.

(** Two conditions of two and three samples, and the rate records of two
    population members. *)
Definition two_conditions : list TrialAveragedPopulationState.condition :=
  [(1%Z, [0; 1]%Q); (2%Z, [0; 1; 2]%Q)].

Definition rate_record (member condition_id : Z) (rate : list Q)
  : TrialAveragedPopulationState.data_attribute :=
  {| TrialAveragedPopulationState.member := member;
     TrialAveragedPopulationState.condition_id := condition_id;
     TrialAveragedPopulationState.attributes := [("rate"%string, map Fin rate)] |}.

Definition complete_records : list TrialAveragedPopulationState.data_attribute :=
  [rate_record 1 1 [5; 6]%Q; rate_record 1 2 [1; 2; 4]%Q;
   rate_record 2 1 [7; 7]%Q; rate_record 2 2 [7; 7; 7]%Q].

Definition example_index : list label :=
  [(1%Z, 0%Q); (1%Z, 1%Q); (2%Z, 0%Q); (2%Z, 1%Q); (2%Z, 2%Q)].

Definition example_array : matrix :=
  of_floats [[Fin 5; Fin 6; Fin 1; Fin 2; Fin 4];
             [Fin 7; Fin 7; Fin 7; Fin 7; Fin 7]].

(** The object that construction from [complete_records] yields. *)
Definition example_state : TrialAveragedPopulationState.self :=
  {| TrialAveragedPopulationState.store := [example_array; example_array];
     TrialAveragedPopulationState._raw_data_set :=
       {| xr.data_vars := [("rate"%string, 0)];
          xr.population := [1%Z; 2%Z];
          xr.condition_time := example_index |};
     TrialAveragedPopulationState.data_set :=
       {| xr.data_vars := [("rate"%string, 1)];
          xr.population := [1%Z; 2%Z];
          xr.condition_time := example_index |} |}.


(** A working data set of two variables, each with its own buffers. *)
Definition two_variables : TrialAveragedPopulationState.self :=
  {| TrialAveragedPopulationState.store :=
       [example_array;
        of_floats [[Fin 1; Fin 3; Fin 1; Fin 3; Fin 1];
                   [Fin 2; Fin 2; Fin 2; Fin 2; Fin 2]];
        example_array;
        of_floats [[Fin 1; Fin 3; Fin 1; Fin 3; Fin 1];
                   [Fin 2; Fin 2; Fin 2; Fin 2; Fin 2]]];
     TrialAveragedPopulationState._raw_data_set :=
       {| xr.data_vars := [("rate"%string, 0); ("force"%string, 1)];
          xr.population := [1%Z; 2%Z];
          xr.condition_time := example_index |};
     TrialAveragedPopulationState.data_set :=
       {| xr.data_vars := [("rate"%string, 2); ("force"%string, 3)];
          xr.population := [1%Z; 2%Z];
          xr.condition_time := example_index |} |}.

(** The condition ids that some label of the index carries. *)
Definition known (index : list label) (cid : Z) : bool :=
  existsb (fun ct : label => Z.eqb ct.1 cid) index.


(** The key of a fetched record, as [_get_data_keys] forms it. *)
Definition data_key (r : TrialAveragedPopulationState.data_attribute) : Z * Z :=
  (TrialAveragedPopulationState.member r,
   TrialAveragedPopulationState.condition_id r).

(** The array that the records hold for an attribute under a key: the one
    of the last record with that key. *)
Fixpoint recorded (name : string)
    (records : list TrialAveragedPopulationState.data_attribute) (key : Z * Z)
  : option (list xfloat) :=
  match records with
  | [] => None
  | r :: rest =>
      match recorded name rest key with
      | Some x => Some x
      | None =>
          if decide (data_key r = key)
          then dict.get name (TrialAveragedPopulationState.attributes r)
          else None
      end
  end.

(** The keys of the population members by conditions, members first. *)
Definition member_conditions (population_keys : list Z)
    (condition_attributes : list TrialAveragedPopulationState.condition)
  : list (Z * Z) :=
  flat_map (fun p => map (fun c : TrialAveragedPopulationState.condition =>
                            (p, c.1)) condition_attributes)
    population_keys.

(** The array of an attribute, as the documentation describes it: one row
    per member, holding the member's arrays of the conditions side by
    side. *)
Definition assembled (population_keys : list Z)
    (condition_attributes : list TrialAveragedPopulationState.condition)
    (name : string)
    (records : list TrialAveragedPopulationState.data_attribute) : matrix :=
  map (fun p =>
         concat (map (fun c : TrialAveragedPopulationState.condition =>
                        map Num (default [] (recorded name records (p, c.1))))
                   condition_attributes))
    population_keys.

(** Two conditions of two samples each, and the rate records of two
    population members for them. *)
Definition equal_conditions : list TrialAveragedPopulationState.condition :=
  [(1%Z, [0; 1]%Q); (2%Z, [0; 1]%Q)].

Definition equal_records : list TrialAveragedPopulationState.data_attribute :=
  [rate_record 1 1 [5; 6]%Q; rate_record 1 2 [1; 2]%Q;
   rate_record 2 1 [7; 7]%Q; rate_record 2 2 [8; 9]%Q].


(** A time vector of [n] samples at the rate [fs], from [t0] on. *)
Definition regular_grid (t0 fs : Q) (n : nat) : list Q :=
  map (fun i => (t0 + inject_Z (Z.of_nat i) / fs)%Q) (seq 0 n).

(** Sample [j] of a list lies at [t0 + (j + c) / fs]. *)
Definition on_grid (t0 fs c : Q) (l : list Q) : Prop :=
  forall j x, l !! j = Some x -> (x == t0 + (inject_Z (Z.of_nat j) + c) / fs)%Q.


(** A force profile lasting as many seconds as the id of its condition:
    the time vector at a sample rate. *)
Definition example_profile (condition_id fs : Z) : list Q :=
  map (fun i => (inject_Z (Z.of_nat i) / inject_Z fs)%Q)
    (seq 0 (Z.to_nat (condition_id * fs))).

(** A fetched record with one attribute. *)
Definition fetched_record (member condition_id old_sample_rate : Z)
    (name : string) (a : Resampling.array) : Resampling.data_attribute :=
  {| Resampling.member := member;
     Resampling.condition_id := condition_id;
     Resampling.old_sample_rate := old_sample_rate;
     Resampling.attributes := [(name, a)] |}.


(** The object that construction yields when member 1 has no record for
    condition 2, a condition of one sample: the array holds [None]
    there. *)
Definition state_with_none : TrialAveragedPopulationState.self :=
  {| TrialAveragedPopulationState.store :=
       [[[Num (Fin 5); Num (Fin 6); PyNone]];
        [[Num (Fin 5); Num (Fin 6); PyNone]]];
     TrialAveragedPopulationState._raw_data_set :=
       {| xr.data_vars := [("rate"%string, 0)];
          xr.population := [1%Z];
          xr.condition_time := [(1%Z, 0%Q); (1%Z, 1%Q); (2%Z, 0%Q)] |};
     TrialAveragedPopulationState.data_set :=
       {| xr.data_vars := [("rate"%string, 1)];
          xr.population := [1%Z];
          xr.condition_time := [(1%Z, 0%Q); (1%Z, 1%Q); (2%Z, 0%Q)] |} |}.






(** * Properties of [pacman_brain.py] *)

(** ** NumPy helpers *)

Section SearchSorted.
Context {T : Type} (leb : T -> T -> bool).

Lemma searchsorted_right_app_all (a r : list T) (v : T) :
  Forall (fun e => leb e v = true) a ->
  np.searchsorted_right leb (a ++ r) v = length a + np.searchsorted_right leb r v.
Proof.
  induction 1 as [|e a He _ IH]; simpl; [reflexivity|].
  rewrite He, IH. reflexivity.
Qed.

Lemma searchsorted_right_app_stop (a r : list T) (x v : T) :
  leb x v = false ->
  np.searchsorted_right leb (a ++ x :: r) v <= length a.
Proof.
  intros Hx. induction a as [|e a IH]; simpl.
  - rewrite Hx. lia.
  - destruct (leb e v); lia.
Qed.

End SearchSorted.

Lemma half_shift_leb (e s : Z) :
  Qle_bool (inject_Z e - (1 # 2)) (inject_Z s) = (e <=? s)%Z.
Proof.
  destruct (Z.leb_spec e s) as [H|H].
  - apply Qle_bool_iff. unfold Qle; simpl. lia.
  - destruct (Qle_bool _ _) eqn:E; [|reflexivity].
    apply Qle_bool_iff in E. unfold Qle in E; simpl in E. lia.
Qed.

Lemma half_shift_leb_shifted (e s : Z) :
  Qle_bool (inject_Z e - (1 # 2)) (inject_Z s - (1 # 2)) = (e <=? s)%Z.
Proof.
  destruct (Z.leb_spec e s) as [H|H].
  - apply Qle_bool_iff. unfold Qle; simpl. lia.
  - destruct (Qle_bool _ _) eqn:E; [|reflexivity].
    apply Qle_bool_iff in E. unfold Qle in E; simpl in E. lia.
Qed.

Lemma searchsorted_half_shift (l : list Z) (s : Z) :
  np.searchsorted_right Qle_bool
    (map (fun e => (inject_Z e - (1 # 2))%Q) l) (inject_Z s)
  = np.searchsorted_right Z.leb l s.
Proof.
  induction l as [|e l IH]; simpl; [reflexivity|].
  rewrite half_shift_leb, IH. reflexivity.
Qed.

Lemma nondecreasing_half_shift (l : list Z) :
  np.nondecreasing Qle_bool (map (fun e => (inject_Z e - (1 # 2))%Q) l)
  = np.nondecreasing Z.leb l.
Proof.
  induction l as [|x [|y l] IH]; simpl in *; try reflexivity.
  rewrite half_shift_leb_shifted. rewrite IH. reflexivity.
Qed.

Lemma last_bounds (a : list Z) (final : Z) :
  np.nondecreasing Z.leb a = true -> py.last a = Ok final ->
  Forall (fun e => (e <= final)%Z) a.
Proof.
  induction a as [|x [|y a] IH]; simpl; intros Hs Hl.
  - constructor.
  - injection Hl as <-. repeat constructor. lia.
  - apply andb_true_iff in Hs as [Hxy Hs]. apply Z.leb_le in Hxy.
    specialize (IH Hs Hl). constructor; [|exact IH].
    inversion IH; subst. lia.
Qed.

Lemma last_is_List_last (a : list Z) (d final : Z) :
  py.last a = Ok final -> List.last a d = final.
Proof.
  induction a as [|x [|y a] IH]; simpl; intros Hl.
  - discriminate.
  - congruence.
  - apply IH. exact Hl.
Qed.

Lemma nondecreasing_app_tail (a : list Z) (final : Z) :
  np.nondecreasing Z.leb a = true -> py.last a = Ok final ->
  np.nondecreasing Z.leb (a ++ [(final + 1 + 0)%Z; (final + 1 + 1)%Z]) = true.
Proof.
  induction a as [|x [|y a] IH]; simpl; intros Hs Hl.
  - discriminate.
  - injection Hl as <-.
    rewrite !andb_true_iff, !Z.leb_le. lia.
  - apply andb_true_iff in Hs as [Hxy Hs]. rewrite Hxy. simpl.
    apply IH; assumption.
Qed.

(** A spike is kept by the bin test exactly when it lies in the trial. *)
Lemma bin_within_iff_in_trial (a : list Z) (final s : Z) :
  np.nondecreasing Z.leb a = true -> py.last a = Ok final ->
  let k := np.searchsorted_right Z.leb
             (a ++ [(final + 1 + 0)%Z; (final + 1 + 1)%Z]) s in
  ((0 <=? Z.of_nat k - 1)%Z && (Z.of_nat k - 1 <? Z.of_nat (length a))%Z)
  = NeuronSpikeRaster.in_trial a s.
Proof.
  intros Hs Hl k. destruct a as [|a0 a']; [discriminate|].
  unfold NeuronSpikeRaster.in_trial.
  rewrite (last_is_List_last _ a0 final Hl).
  destruct (Z.leb_spec a0 s) as [H0|H0].
  - destruct (Z.leb_spec s final) as [H1|H1].
    + assert (Hk : k <= length (a0 :: a')).
      { apply searchsorted_right_app_stop. apply Z.leb_gt. lia. }
      assert (Hk1 : 1 <= k).
      { subst k. simpl. apply Z.leb_le in H0. rewrite H0. lia. }
      apply andb_true_iff. split; [apply Z.leb_le | apply Z.ltb_lt]; lia.
    + assert (Hk : k = length (a0 :: a') + np.searchsorted_right Z.leb
                         [(final + 1 + 0)%Z; (final + 1 + 1)%Z] s).
      { apply searchsorted_right_app_all.
        eapply Forall_impl; [exact (last_bounds _ _ Hs Hl)|].
        simpl. intros e He. apply Z.leb_le. lia. }
      assert (Hk1 : length (a0 :: a') + 1 <= k).
      { rewrite Hk. simpl np.searchsorted_right.
        replace (final + 1 + 0 <=? s)%Z with true by (symmetry; apply Z.leb_le; lia).
        destruct (_ <=? _)%Z; lia. }
      simpl. apply andb_false_iff. right. apply Z.ltb_ge. simpl in Hk1. lia.
  - subst k. simpl. apply Z.leb_gt in H0. rewrite H0. reflexivity.
Qed.

Lemma count_true_insert (r : list bool) (i : nat) :
  count_true (<[i := true]> r) <= S (count_true r).
Proof.
  revert i. induction r as [|b r IH]; intros [|i]; simpl; try lia.
  - unfold count_true. simpl. destruct b; simpl; lia.
  - specialize (IH i). unfold count_true in *. simpl.
    destruct b; simpl; lia.
Qed.

Lemma set_true_length (bins : list Z) (r : list bool) :
  length (np.set_true r bins) = length r.
Proof.
  revert r. induction bins as [|b bins IH]; intros r; simpl; [reflexivity|].
  unfold np.set_true in *. simpl. rewrite IH. apply length_insert.
Qed.

Lemma set_true_count (bins : list Z) (r : list bool) :
  count_true (np.set_true r bins) <= count_true r + length bins.
Proof.
  revert r. induction bins as [|b bins IH]; intros r; simpl; [lia|].
  unfold np.set_true in *. simpl.
  etransitivity; [apply IH|].
  pose proof (count_true_insert r (Z.to_nat b)). lia.
Qed.

Lemma count_true_zeros (n : nat) : count_true (np.zeros_bool n) = 0.
Proof. induction n; [reflexivity | exact IHn]. Qed.

Lemma within_bins_length (a : list Z) (final : Z) (spikes : list Z) :
  np.nondecreasing Z.leb a = true -> py.last a = Ok final ->
  length (np.within (length a)
            (map (fun d => (Z.of_nat d - 1)%Z)
               (map (np.searchsorted_right Qle_bool
                       (map (fun e => (inject_Z e - (1 # 2))%Q)
                          (a ++ [(final + 1 + 0)%Z; (final + 1 + 1)%Z])))
                  (map inject_Z spikes))))
  = length (List.filter (NeuronSpikeRaster.in_trial a) spikes).
Proof.
  intros Hs Hl. induction spikes as [|s spikes IH]; [reflexivity|].
  unfold np.within in *. simpl.
  rewrite searchsorted_half_shift.
  rewrite (bin_within_iff_in_trial a final s Hs Hl).
  destruct (NeuronSpikeRaster.in_trial a s); simpl; rewrite IH; reflexivity.
Qed.

(** ** [NeuronSpikeRaster.make] *)

Lemma wrap_exact (z : Z) :
  (int64.min <= z <= int64.max)%Z -> int64.wrap z = z.
Proof.
  unfold int64.min, int64.max, int64.wrap. intros H.
  rewrite Z.mod_small by lia. lia.
Qed.

Lemma last_elem_of {A : Type} (a : list A) (final : A) :
  py.last a = Ok final -> final ∈ a.
Proof.
  induction a as [|x [|y a] IH]; simpl; intros H; [discriminate | |].
  - injection H as <-. left.
  - right. exact (IH H).
Qed.

(** Within the exact range the two added indices do not wrap. *)
Lemma spike_bin_edges_exact (a : list Z) (final : Z) :
  Forall exact_index a -> py.last a = Ok final ->
  NeuronSpikeRaster.spike_bin_edges a
  = Ok (map (fun e => (inject_Z e - (1 # 2))%Q)
          (a ++ [(final + 1 + 0)%Z; (final + 1 + 1)%Z])).
Proof.
  intros Ha Hl. unfold NeuronSpikeRaster.spike_bin_edges. rewrite Hl.
  cbn [bind].
  pose proof (proj1 (Forall_forall _ _) Ha final (last_elem_of a final Hl))
    as Hf.
  unfold exact_index in Hf. unfold int64.add.
  rewrite (wrap_exact (final + 1)) by (unfold int64.min, int64.max; lia).
  rewrite !wrap_exact by (unfold int64.min, int64.max; lia).
  reflexivity.
Qed.

Lemma nonincreasing_half_shift (l : list Z) :
  np.nonincreasing Qle_bool (map (fun e => (inject_Z e - (1 # 2))%Q) l)
  = np.nonincreasing Z.leb l.
Proof.
  induction l as [|x [|y l] IH]; [reflexivity..|].
  change (Qle_bool (inject_Z y - (1 # 2)) (inject_Z x - (1 # 2))
          && np.nonincreasing Qle_bool
               (map (fun e => (inject_Z e - (1 # 2))%Q) (y :: l))
          = (y <=? x)%Z && np.nonincreasing Z.leb (y :: l)).
  rewrite IH, half_shift_leb_shifted. reflexivity.
Qed.

Lemma nondecreasing_app_false (a tail : list Z) :
  np.nondecreasing Z.leb a = false ->
  np.nondecreasing Z.leb (a ++ tail) = false.
Proof.
  induction a as [|x [|y a] IH]; intros H; [discriminate..|].
  change (((x <=? y)%Z && np.nondecreasing Z.leb (y :: a)) = false) in H.
  change (((x <=? y)%Z && np.nondecreasing Z.leb ((y :: a) ++ tail)) = false).
  apply andb_false_iff in H as [H|H]; apply andb_false_iff;
    [left; exact H | right; exact (IH H)].
Qed.

Lemma nonincreasing_app_tail (a : list Z) (final : Z) :
  py.last a = Ok final ->
  np.nonincreasing Z.leb (a ++ [(final + 1 + 0)%Z; (final + 1 + 1)%Z]) = false.
Proof.
  induction a as [|x [|y a] IH]; intros Hl; [discriminate | |].
  - injection Hl as <-. simpl. apply andb_false_iff. left.
    apply Z.leb_gt. lia.
  - change (((y <=? x)%Z
             && np.nonincreasing Z.leb
                  ((y :: a) ++ [(final + 1 + 0)%Z; (final + 1 + 1)%Z]))
            = false).
    rewrite (IH Hl). apply andb_false_r.
Qed.

(** C2 (amended): for an alignment index sequence of length L whose
    indices float64 holds exactly, and any spike indices,
    [NeuronSpikeRaster.make] raises [IndexError] when the alignment is
    empty, raises [ValueError] when it is not non-decreasing, and otherwise
    returns a raster of length exactly L whose number of true entries is at
    most the number of spike indices inside the trial (from the first
    alignment index to the last). *)
Theorem raster_length_and_count (ephys_alignment spikes : list Z) :
  Forall exact_index ephys_alignment ->
  (ephys_alignment = [] ->
   NeuronSpikeRaster.make ephys_alignment spikes = Raise IndexError)
  /\ (ephys_alignment <> [] ->
      np.nondecreasing Z.leb ephys_alignment = false ->
      NeuronSpikeRaster.make ephys_alignment spikes = Raise ValueError)
  /\ (ephys_alignment <> [] ->
      np.nondecreasing Z.leb ephys_alignment = true ->
      exists raster,
        NeuronSpikeRaster.make ephys_alignment spikes = Ok raster
        /\ length raster = length ephys_alignment
        /\ count_true raster
           <= length (List.filter (NeuronSpikeRaster.in_trial ephys_alignment)
                        spikes)).
Proof.
  intros Hexact. split; [intros ->; reflexivity|].
  assert (Hlast : ephys_alignment <> [] ->
            exists final, py.last ephys_alignment = Ok final).
  { clear. intros Hne. destruct ephys_alignment as [|x a]; [congruence|].
    clear Hne. revert x. induction a as [|y a IH]; intros x; [eauto|].
    exact (IH y). }
  split.
  - intros Hne Hs. destruct (Hlast Hne) as (final & Hl).
    unfold NeuronSpikeRaster.make.
    rewrite (spike_bin_edges_exact _ _ Hexact Hl). cbn [bind].
    unfold np.digitize, np.monotonicity.
    rewrite nondecreasing_half_shift, (nondecreasing_app_false _ _ Hs).
    rewrite nonincreasing_half_shift, (nonincreasing_app_tail _ _ Hl).
    reflexivity.
  - intros Hne Hs. destruct (Hlast Hne) as (final & Hl).
    unfold NeuronSpikeRaster.make.
    rewrite (spike_bin_edges_exact _ _ Hexact Hl). cbn [bind].
    unfold np.digitize, np.monotonicity.
    rewrite nondecreasing_half_shift, (nondecreasing_app_tail _ _ Hs Hl).
    cbn [bind]. eexists. split; [reflexivity|]. split.
    + rewrite set_true_length. apply repeat_length.
    + etransitivity; [apply set_true_count|].
      rewrite count_true_zeros, (within_bins_length _ _ _ Hs Hl). simpl. lia.
Qed.

(** The theorem at the alignment 10, 12, 15: the raster builder returns,
    and marks at most the four spikes inside the trial. *)
Lemma raster_length_and_count_witness :
  exists raster,
    NeuronSpikeRaster.make [10; 12; 15]%Z [3; 11; 13; 14; 15; 16]%Z = Ok raster
    /\ length raster = 3
    /\ count_true raster
       <= length (List.filter (NeuronSpikeRaster.in_trial [10; 12; 15]%Z)
                    [3; 11; 13; 14; 15; 16]%Z).
Proof.
  refine (proj2 (proj2 (raster_length_and_count
                         [10; 12; 15]%Z [3; 11; 13; 14; 15; 16]%Z _)) _ _).
  - repeat constructor; unfold exact_index; lia.
  - discriminate.
  - reflexivity.
Defined.

(** C2 as stated fails on the empty alignment: [ephys_alignment[-1]] raises
    and no raster of length 0 is returned.  It fails as well on an alignment
    that is not non-decreasing, whose bin edges [np.digitize] refuses. *)
Lemma raster_of_empty_alignment_raises :
  (NeuronSpikeRaster.make [] [3%Z] = Raise IndexError
   /\ ~ exists raster,
          NeuronSpikeRaster.make [] [3%Z] = Ok raster /\ length raster = 0)
  /\ NeuronSpikeRaster.make [5%Z; 3%Z] [3%Z] = Raise ValueError.
Proof.
  split; [|reflexivity].
  split; [reflexivity|]. intros [raster [H _]]. discriminate H.
Qed.

(** ** [NeuronRate.make] *)

Lemma any_all_false (raster : list bool) :
  Forall (fun b => b = false) raster -> py.any raster = false.
Proof.
  induction 1 as [|b r Hb _ IH]; [reflexivity|].
  unfold py.any in *. simpl. rewrite Hb, IH. reflexivity.
Qed.

(** C3: on an all-false raster, [NeuronRate.make] returns the all-zero
    sequence of the length of the behavioral time vector, whatever the
    sample rates, the filter rows and the registered filters are. *)
Theorem rate_of_silent_raster (fs_beh : Q) (t_beh : list Q)
    (spike_raster : list bool) (fs_ephys : Q) (filter_rows : list Z)
    (filter_parts : list NeuronRate.filter_part) :
  Forall (fun b => b = false) spike_raster ->
  NeuronRate.make fs_beh t_beh spike_raster fs_ephys filter_rows filter_parts
  = Ok (repeat 0%Q (length t_beh)).
Proof.
  intros H. unfold NeuronRate.make. rewrite (any_all_false _ H). reflexivity.
Qed.

(** The theorem at a raster of four silent samples, three behavior samples,
    no filter row and a filter that would raise. *)
Lemma rate_of_silent_raster_witness :
  NeuronRate.make 1000 [0; 1 # 1000; 2 # 1000]%Q [false; false; false; false]
    30000 [] [exponential]
  = Ok [0; 0; 0]%Q.
Proof.
  apply (rate_of_silent_raster 1000 [0; 1 # 1000; 2 # 1000]%Q
           [false; false; false; false] 30000 [] [exponential]).
  repeat constructor.
Defined.

(** *** The length of the rate *)

Lemma next_elem_of {A : Type} (p : A -> bool) (l : list A) (x : A) :
  py.next p l = Ok x -> x ∈ l.
Proof.
  induction l as [|a l IH]; simpl; [discriminate|].
  destruct (p a); [intros [= ->]; left | intros H; right; exact (IH H)].
Qed.

(** X3: whenever [NeuronRate.make] returns a rate, with filters that keep the
    length of their signal, the rate has the length of the behavioral time
    vector. *)
Theorem rate_length (fs_beh : Q) (t_beh : list Q) (spike_raster : list bool)
    (fs_ephys : Q) (filter_rows : list Z)
    (filter_parts : list NeuronRate.filter_part) (rate : list Q) :
  Forall (fun part => forall signal fs out,
            NeuronRate.filter part signal fs = Ok out ->
            length out = length signal) filter_parts ->
  NeuronRate.make fs_beh t_beh spike_raster fs_ephys filter_rows filter_parts
  = Ok rate ->
  length rate = length t_beh.
Proof.
  intros Hfilters. unfold NeuronRate.make.
  destruct (py.any spike_raster).
  2:{ intros [= <-]. apply repeat_length. }
  unfold bind.
  destruct (py.first t_beh); [|discriminate].
  destruct (py.last t_beh); [|discriminate].
  destruct (np.ptp t_beh); [|discriminate].
  destruct (np.linspace _ _ _); [|discriminate].
  destruct (NeuronRate.time_bin_edges _ _); [|discriminate].
  destruct (np.mask_index _ _); [|discriminate].
  destruct (np.digitize _ _ _); [|discriminate].
  destruct (dj.fetch1 _); [|discriminate].
  destruct (NeuronRate.filter_lookup _ _) as [part|] eqn:Hpart; [|discriminate].
  destruct (NeuronRate.filter part _ _) as [out|] eqn:Hout; [|discriminate].
  intros [= <-]. rewrite length_map.
  apply next_elem_of in Hpart.
  rewrite (proj1 (Forall_forall _ _) Hfilters part Hpart _ _ _ Hout).
  rewrite set_true_length. apply repeat_length.
Qed.

(** The theorem at a raster of two samples and the Boxcar filter. *)
Lemma rate_length_witness :
  NeuronRate.make 1 [0; 1]%Q [true; false] 1 [1%Z] [boxcar; gaussian]
  = Ok [1 * 1; 1 * 0]%Q
  /\ length [1 * 1; 1 * 0]%Q = length [0; 1]%Q.
Proof.
  split; [reflexivity|].
  apply (rate_length 1 [0; 1]%Q [true; false] 1 [1%Z] [boxcar; gaussian]).
  - repeat constructor; intros signal fs out [= <-]; apply length_map.
  - reflexivity.
Defined.

(** *** The filter lookup *)

(** C5 (amended): the lookup returns the first registered part that holds a
    row for the requested filter, whatever follows it in the registry; when
    no part holds one it raises [StopIteration], an exception without a
    message. *)
Theorem filter_lookup_first_match (filter_parts : list NeuronRate.filter_part)
    (filter_key : Z) :
  (Forall (fun part => NeuronRate.restrict part filter_key = false) filter_parts ->
   NeuronRate.filter_lookup filter_parts filter_key = Raise StopIteration)
  /\ (forall before part after,
        filter_parts = before ++ part :: after ->
        Forall (fun p => NeuronRate.restrict p filter_key = false) before ->
        NeuronRate.restrict part filter_key = true ->
        NeuronRate.filter_lookup filter_parts filter_key = Ok part).
Proof.
  unfold NeuronRate.filter_lookup. split.
  - induction 1 as [|p l Hp _ IH]; simpl; [reflexivity|]. rewrite Hp. exact IH.
  - intros before part after -> Hb Hp.
    induction Hb as [|p l Hq _ IH]; simpl.
    + rewrite Hp. reflexivity.
    + rewrite Hq. exact IH.
Qed.

(** The theorem at the registry Exponential, Boxcar, Gaussian and the
    filters 1 (held by two parts) and 7 (held by none). *)
Lemma filter_lookup_first_match_witness :
  NeuronRate.filter_lookup [exponential; boxcar; gaussian] 1 = Ok boxcar
  /\ NeuronRate.filter_lookup [exponential; boxcar; gaussian] 7 = Raise StopIteration.
Proof.
  split.
  - apply (proj2 (filter_lookup_first_match [exponential; boxcar; gaussian] 1)
             [exponential] boxcar [gaussian]).
    + reflexivity.
    + repeat constructor.
    + reflexivity.
  - apply (proj1 (filter_lookup_first_match [exponential; boxcar; gaussian] 7)).
    repeat constructor.
Defined.

(** C5 as stated fails: with two registered parts matching the requested
    filter the lookup raises nothing, and [NeuronRate.make] returns the rate
    filtered by the first of them. *)
Lemma ambiguous_filter_is_not_an_error :
  NeuronRate.restrict boxcar 1 = true
  /\ NeuronRate.restrict gaussian 1 = true
  /\ NeuronRate.filter_lookup [boxcar; gaussian] 1 = Ok boxcar
  /\ NeuronRate.make 1 [0; 1]%Q [true; false] 1 [1%Z] [boxcar; gaussian]
     = Ok [1 * 1; 1 * 0]%Q.
Proof. repeat split. Qed.

(** ** [NeuronPsth.make] *)

Lemma add_same_length (a b : list Q) :
  length a = length b -> np.add a b = Ok (zip_with Qplus a b).
Proof. intros H. unfold np.add. rewrite H, Nat.eqb_refl. reflexivity. Qed.

Lemma nth_zip_with_Qplus (a b : list Q) (i : nat) :
  length a = length b -> i < length a ->
  nth i (zip_with Qplus a b) 0%Q = (nth i a 0 + nth i b 0)%Q.
Proof.
  revert b i. induction a as [|x a IH]; intros [|y b] [|i] Hl Hi;
    simpl in *; try lia; try reflexivity.
  apply IH; lia.
Qed.

Lemma sum_of_rows (rest : list (list Q)) (r : list Q) (n : nat) :
  length r = n -> Forall (fun x => length x = n) rest ->
  exists total,
    foldl (fun acc x => let* s := acc in np.add s x) (Ok r) rest = Ok total
    /\ length total = n
    /\ forall i, i < n -> (nth i total 0 == nth i r 0 + column_sum i rest)%Q.
Proof.
  intros Hr Hrest. revert r Hr.
  induction Hrest as [|x rest Hx _ IH]; intros r Hr; simpl.
  - exists r. repeat split; [assumption|]. intros i _. ring.
  - rewrite add_same_length by congruence.
    destruct (IH (zip_with Qplus r x)) as (total & Ht & Hlen & Hnth).
    { rewrite length_zip_with_l_eq; congruence. }
    exists total. repeat split; [assumption..|].
    intros i Hi. rewrite (Hnth i Hi).
    rewrite nth_zip_with_Qplus by (try congruence; lia). ring.
Qed.

(** C1: the PSTH of a non-empty collection of rate sequences of one length
    [n] has length [n], and at each index holds the sum of the sequences at
    that index divided by their number. *)
Theorem psth_is_elementwise_mean (neuron_rates : list (list Q)) (n : nat) :
  neuron_rates <> [] ->
  Forall (fun r => length r = n) neuron_rates ->
  exists psth,
    NeuronPsth.make neuron_rates = Ok psth
    /\ length psth = n
    /\ forall i, i < n ->
         (nth i psth 0
          == column_sum i neuron_rates
             / inject_Z (Z.of_nat (length neuron_rates)))%Q.
Proof.
  intros Hne Hall. destruct neuron_rates as [|r rest]; [congruence|].
  inversion Hall as [|? ? Hr Hrest]; subst.
  destruct (sum_of_rows rest r (length r) eq_refl Hrest)
    as (total & Ht & Hlen & Hnth).
  unfold NeuronPsth.make, np.mean_axis0. rewrite Ht. simpl bind.
  eexists. split; [reflexivity|]. split; [rewrite length_map; exact Hlen|].
  intros i Hi.
  set (f := fun s : Q => (s / inject_Z (Z.of_nat (length (r :: rest))))%Q).
  rewrite (nth_indep (map f total) 0%Q (f 0%Q)) by (rewrite length_map; lia).
  rewrite (map_nth f). unfold f. rewrite (Hnth i Hi). reflexivity.
Qed.

(** The theorem at the three trials of the example: rates 1 2, 3 4 and 5 0. *)
Lemma psth_is_elementwise_mean_witness :
  exists psth,
    NeuronPsth.make [[1; 2]; [3; 4]; [5; 0]]%Q = Ok psth
    /\ length psth = 2
    /\ forall i, i < 2 ->
         (nth i psth 0
          == column_sum i [[1; 2]; [3; 4]; [5; 0]]
             / inject_Z (Z.of_nat (length [[1; 2]; [3; 4]; [5; 0]])))%Q.
Proof.
  apply (psth_is_elementwise_mean [[1; 2]; [3; 4]; [5; 0]]%Q 2).
  - discriminate.
  - repeat constructor.
Defined.

(** The example of the specification: the PSTH of 1 2, 3 4 and 5 0 is 3 2. *)
Example psth_of_three_trials :
  exists psth,
    NeuronPsth.make [[1; 2]; [3; 4]; [5; 0]]%Q = Ok psth
    /\ Forall2 Qeq psth [3; 2]%Q.
Proof. eexists. split; [reflexivity|]. repeat constructor. Qed.

(** * Properties of [utilities/data_structures.py] *)

Import TrialAveragedPopulationState.

Lemma example_state_constructed :
  _get_population_state [1%Z; 2%Z] two_conditions ["rate"%string] complete_records
  = Ok example_state.
Proof. reflexivity. Qed.

(** ** The baseline is private *)

Lemma values_take (k : nat) (st1 st2 : list matrix) (ds : xr.Dataset) :
  Forall (fun v : string * nat => v.2 < k) (xr.data_vars ds) ->
  take k st1 = take k st2 ->
  xr.values st1 ds = xr.values st2 ds.
Proof.
  intros Hk Ht. unfold xr.values.
  induction Hk as [|v vars Hv _ IH]; simpl; [reflexivity|].
  rewrite IH. f_equal. f_equal.
  rewrite <- (lookup_total_take_lt st1 k) by exact Hv.
  rewrite <- (lookup_total_take_lt st2 k) by exact Hv.
  rewrite Ht. reflexivity.
Qed.

Lemma appended_buffers_values (st : list matrix) (vars : list (string * nat))
    (f : string * nat -> matrix) :
  map (fun v : string * nat => (v.1, (st ++ map f vars) !!! v.2))
    (imap (fun i v => (v.1, length st + i)) vars)
  = map (fun v => (v.1, f v)) vars.
Proof.
  apply list_eq. intros i.
  rewrite !list_lookup_fmap, list_lookup_imap.
  destruct (vars !! i) as [v|] eqn:Hv; simpl; [|reflexivity].
  f_equal. f_equal.
  rewrite lookup_total_app_r by lia.
  replace (length st + i - length st) with i by lia.
  apply list_lookup_total_correct.
  rewrite list_lookup_fmap, Hv. reflexivity.
Qed.

Lemma appended_buffers_fresh (n k : nat) (vars : list (string * nat)) :
  k <= n ->
  Forall (fun v : string * nat => k <= v.2)
    (imap (fun i v => (v.1, n + i)) vars).
Proof.
  intros Hk. apply Forall_lookup_2. intros i v.
  rewrite list_lookup_imap. destruct (vars !! i); simpl; [|discriminate].
  intros [= <-]. simpl. lia.
Qed.

(** [reset_data_set] gives the working data set the values of the baseline. *)
Lemma reset_copies_baseline (s : self) :
  let s' := (reset_data_set s).2 in
  xr.values (store s') (data_set s') = xr.values (store s) (_raw_data_set s)
  /\ xr.population (data_set s') = xr.population (_raw_data_set s)
  /\ xr.condition_time (data_set s') = xr.condition_time (_raw_data_set s)
  /\ _raw_data_set s' = _raw_data_set s
  /\ (forall k, k <= length (store s) -> take k (store s') = take k (store s))
  /\ (forall k, baseline_private k s -> baseline_private k s').
Proof.
  unfold reset_data_set, xr.copy_deep. simpl. repeat split.
  - unfold xr.values. simpl. apply appended_buffers_values.
  - intros k Hk. apply take_app_le. exact Hk.
  - destruct H as (H & _). exact H.
  - destruct H as (_ & H & _). simpl. rewrite length_app. lia.
  - destruct H as (_ & H & _). simpl. apply appended_buffers_fresh. exact H.
Qed.

Lemma inplace_keeps_baseline (op : xfloat -> xfloat -> xfloat)
    (item : string * list xfloat) (k : nat) (s : self) :
  baseline_private k s ->
  let s' := (inplace op item s).2 in
  baseline_private k s'
  /\ _raw_data_set s' = _raw_data_set s
  /\ take k (store s') = take k (store s).
Proof.
  intros (Hraw & Hk & Hw). unfold inplace.
  destruct (dict.get item.1 (xr.data_vars (data_set s))) as [buffer|] eqn:Hget;
    [|repeat split; assumption].
  destruct (as_floats (store s !!! buffer)) as [m|e];
    [|repeat split; assumption].
  assert (Hb : k <= buffer).
  { clear -Hget Hw. induction Hw as [|[name loc] vars Hv _ IH];
      simpl in Hget; [discriminate|].
    destruct (decide (item.1 = name)); [injection Hget as <-; exact Hv|].
    exact (IH Hget). }
  simpl. repeat split; try assumption.
  - simpl. rewrite length_insert. exact Hk.
  - apply take_insert_ge. exact Hb.
Qed.

Lemma for_each_inplace_keeps_baseline (op : xfloat -> xfloat -> xfloat)
    (items : list (string * list xfloat)) (k : nat) (s : self) :
  baseline_private k s ->
  let s' := (for_each (inplace op) items s).2 in
  baseline_private k s'
  /\ _raw_data_set s' = _raw_data_set s
  /\ take k (store s') = take k (store s).
Proof.
  revert s. induction items as [|item items IH]; intros s Hs; simpl.
  - repeat split; apply Hs.
  - destruct (inplace_keeps_baseline op item k s Hs) as (H1 & H2 & H3).
    destruct (inplace op item s) as [[[]|e] s1]; simpl in *.
    + destruct (IH s1 H1) as (H4 & H5 & H6).
      repeat split; [apply H4..| congruence | congruence].
    + repeat split; [apply H1..| assumption | assumption].
Qed.

Lemma mutate_keeps_baseline (m : mutation) (k : nat) (s : self) :
  baseline_private k s ->
  let s' := (mutate m s).2 in
  baseline_private k s'
  /\ _raw_data_set s' = _raw_data_set s
  /\ take k (store s') = take k (store s).
Proof.
  intros Hs. destruct m as [only ref | only ref soft | ids]; simpl.
  - unfold mean_center.
    destruct (let* data_vars := _ in _) as [items|e].
    + apply for_each_inplace_keeps_baseline. exact Hs.
    + repeat split; apply Hs.
  - unfold normalize.
    destruct (let* data_vars := _ in _) as [items|e].
    + apply for_each_inplace_keeps_baseline. exact Hs.
    + repeat split; apply Hs.
  - unfold reorder_conditions, xr.reindex.
    destruct (xr.condition_time (data_set s)) as [|l index];
      [repeat split; apply Hs|].
    destruct ids as [|cid ids]; [repeat split; apply Hs|].
    destruct (xr.is_unique (l :: index)); [|repeat split; apply Hs].
    destruct Hs as (Hraw & Hk & Hw). simpl. repeat split.
    + exact Hraw.
    + simpl. rewrite length_app. lia.
    + simpl. apply appended_buffers_fresh. exact Hk.
    + apply take_app_le. exact Hk.
Qed.

Lemma after_keeps_baseline (ms : list mutation) (k : nat) (s : self) :
  baseline_private k s ->
  baseline_private k (after ms s)
  /\ _raw_data_set (after ms s) = _raw_data_set s
  /\ take k (store (after ms s)) = take k (store s).
Proof.
  revert s. induction ms as [|m ms IH]; intros s Hs; simpl.
  - repeat split; apply Hs.
  - destruct (mutate_keeps_baseline m k s Hs) as (H1 & H2 & H3).
    destruct (IH _ H1) as (H4 & H5 & H6).
    repeat split; [apply H4..| congruence | congruence].
Qed.

(** Construction ends with the baseline in the first buffers of the store
    and the working data set a copy of it. *)
Lemma constructed_state (population_keys : list Z)
    (condition_attributes : list condition) (attribute_names : list string)
    (data_attributes : list data_attribute) (s0 : self) :
  _get_population_state population_keys condition_attributes attribute_names
    data_attributes = Ok s0 ->
  let k := length (xr.data_vars (_raw_data_set s0)) in
  baseline_private k s0
  /\ xr.values (store s0) (data_set s0) = xr.values (store s0) (_raw_data_set s0)
  /\ xr.population (data_set s0) = xr.population (_raw_data_set s0)
  /\ xr.condition_time (data_set s0) = xr.condition_time (_raw_data_set s0).
Proof.
  unfold _get_population_state, _get_data_set, bind.
  destruct (_get_condition_time_multi_index condition_attributes)
    as [index|e]; [|discriminate].
  destruct (foldl _ _ attribute_names) as [built|e]; [|discriminate].
  destruct (forallb _ _); [|discriminate].
  match goal with
  | |- Ok (reset_data_set ?p).2 = _ -> _ => set (pre := p)
  end.
  intros H. assert (Hs0 : s0 = (reset_data_set pre).2) by congruence.
  subst s0. clear H.
  destruct (reset_copies_baseline pre) as (Hv & Hp & Hc & Hr & Ht & _).
  rewrite Hr. simpl xr.data_vars. rewrite length_imap.
  assert (Hraw : Forall (fun v : string * nat => v.2 < length built.2)
                   (imap (fun i (v : string * matrix) => (v.1, i)) built.2)).
  { apply Forall_lookup_2. intros i v. rewrite list_lookup_imap.
    destruct (built.2 !! i) eqn:E; simpl; [|discriminate].
    intros [= <-]. simpl. apply lookup_lt_Some in E. exact E. }
  assert (Hlen : length (store pre) = length built.2)
    by (simpl; unfold dict.values; apply length_map).
  split; [|split; [|split]].
  - unfold baseline_private. rewrite Hr. split; [exact Hraw|]. split.
    + unfold reset_data_set, xr.copy_deep. simpl store.
      rewrite length_app. simpl in Hlen. lia.
    + unfold reset_data_set, xr.copy_deep. simpl data_set. simpl xr.data_vars.
      apply appended_buffers_fresh. simpl in Hlen. lia.
  - rewrite Hv. symmetry. apply (values_take (length built.2)).
    + exact Hraw.
    + apply Ht. lia.
  - exact Hp.
  - exact Hc.
Qed.

(** C7: after construction and any finite sequence of [mean_center],
    [normalize] and [reorder_conditions] calls, [reset_data_set] leaves the
    working data set with the arrays and coordinates it had at construction;
    and through the sequence the baseline data set and the arrays in its
    buffers stay those of construction. *)
Theorem reset_restores_construction (population_keys : list Z)
    (condition_attributes : list condition) (attribute_names : list string)
    (data_attributes : list data_attribute) (s0 : self) (ms : list mutation) :
  _get_population_state population_keys condition_attributes attribute_names
    data_attributes = Ok s0 ->
  let s := after ms s0 in
  let s' := (reset_data_set s).2 in
  (xr.values (store s') (data_set s') = xr.values (store s0) (data_set s0)
   /\ xr.population (data_set s') = xr.population (data_set s0)
   /\ xr.condition_time (data_set s') = xr.condition_time (data_set s0))
  /\ _raw_data_set s = _raw_data_set s0
  /\ xr.values (store s) (_raw_data_set s) = xr.values (store s0) (_raw_data_set s0).
Proof.
  intros Hc s s'.
  destruct (constructed_state _ _ _ _ _ Hc) as (Hb & Hv0 & Hp0 & Hc0).
  set (k := length (xr.data_vars (_raw_data_set s0))) in *.
  destruct (after_keeps_baseline ms k s0 Hb) as (Hb' & Hraw & Htake).
  fold s in Hb', Hraw, Htake.
  destruct (reset_copies_baseline s) as (Hv & Hp & Hct & _).
  fold s' in Hv, Hp, Hct.
  assert (Hbase : xr.values (store s) (_raw_data_set s)
                  = xr.values (store s0) (_raw_data_set s0)).
  { rewrite Hraw. apply (values_take k); [apply Hb | exact Htake]. }
  repeat split.
  - rewrite Hv, Hbase, Hv0. reflexivity.
  - rewrite Hp, Hraw, Hp0. reflexivity.
  - rewrite Hct, Hraw, Hc0. reflexivity.
  - exact Hraw.
  - exact Hbase.
Qed.

(** The theorem at the example construction, followed by a centering, a
    call that raises, a normalization and a down-selection. *)
Lemma reset_restores_construction_witness :
  let s := after [MeanCenter None None; MeanCenter (Some ["foo"%string]) None;
                  Normalize None None 1; ReorderConditions [2%Z]] example_state in
  let s' := (reset_data_set s).2 in
  (xr.values (store s') (data_set s')
   = xr.values (store example_state) (data_set example_state)
   /\ xr.population (data_set s') = xr.population (data_set example_state)
   /\ xr.condition_time (data_set s')
      = xr.condition_time (data_set example_state))
  /\ _raw_data_set s = _raw_data_set example_state
  /\ xr.values (store s) (_raw_data_set s)
     = xr.values (store example_state) (_raw_data_set example_state).
Proof.
  apply (reset_restores_construction [1%Z; 2%Z] two_conditions ["rate"%string]
           complete_records example_state).
  reflexivity.
Defined.

(** ** Well-formed working data sets *)

Lemma update_keys {K V : Type} `{EqDecision K} (k : K) (v : V)
    (d : list (K * V)) :
  dict.keys (dict.update k v d)
  = if bool_decide (k ∈ dict.keys d) then dict.keys d else dict.keys d ++ [k].
Proof.
  induction d as [|[k' v'] d IH]; simpl; [reflexivity|].
  destruct (decide (k = k')) as [->|Hne]; simpl.
  - rewrite bool_decide_eq_true_2 by left. reflexivity.
  - fold (dict.keys d) in *. fold (dict.keys (dict.update k v d)). rewrite IH.
    destruct (bool_decide (k ∈ dict.keys d)) eqn:E.
    + rewrite bool_decide_eq_true_2; [reflexivity|].
      right. apply bool_decide_eq_true in E. exact E.
    + rewrite bool_decide_eq_false_2; [reflexivity|].
      apply bool_decide_eq_false in E. intros H.
      apply elem_of_cons in H as [H|H]; [congruence | contradiction].
Qed.

Lemma update_keys_NoDup {K V : Type} `{EqDecision K} (k : K) (v : V)
    (d : list (K * V)) :
  NoDup (dict.keys d) -> NoDup (dict.keys (dict.update k v d)).
Proof.
  intros Hd. rewrite update_keys.
  destruct (bool_decide (k ∈ dict.keys d)) eqn:E; [exact Hd|].
  apply bool_decide_eq_false in E.
  apply NoDup_app. split; [exact Hd|]. split.
  - intros x Hx Hk. apply list_elem_of_singleton in Hk. subst x. contradiction.
  - apply NoDup_singleton.
Qed.

Lemma renumbered_names (n : nat) {V : Type} (vars : list (string * V)) :
  map fst (imap (fun i (v : string * V) => (v.1, n + i)) vars) = map fst vars.
Proof.
  revert n. induction vars as [|v vars IH]; intros n; [reflexivity|].
  simpl. f_equal. rewrite <- (IH (S n)). f_equal.
  apply imap_ext. intros i x _. simpl. f_equal. lia.
Qed.

Lemma renumbered_buffers (n : nat) {V : Type} (vars : list (string * V)) :
  map snd (imap (fun i (v : string * V) => (v.1, n + i)) vars)
  = seq n (length vars).
Proof.
  revert n. induction vars as [|v vars IH]; intros n; [reflexivity|].
  simpl. f_equal; [lia|]. rewrite <- (IH (S n)). f_equal.
  apply imap_ext. intros i x _. simpl. f_equal. lia.
Qed.

Lemma fresh_data_set_well_formed (st extra : list matrix)
    (vars : list (string * nat)) (ds : xr.Dataset) :
  NoDup (map fst vars) ->
  length extra = length vars ->
  xr.data_vars ds = imap (fun i (v : string * nat) => (v.1, length st + i)) vars ->
  NoDup (map fst (xr.data_vars ds))
  /\ NoDup (map snd (xr.data_vars ds))
  /\ Forall (fun v : string * nat => v.2 < length (st ++ extra)) (xr.data_vars ds).
Proof.
  intros Hn Hl ->. rewrite renumbered_names, renumbered_buffers.
  split; [exact Hn|]. split; [apply NoDup_seq|].
  apply Forall_lookup_2. intros i v. rewrite list_lookup_imap.
  destruct (vars !! i) eqn:E; simpl; [|discriminate].
  intros [= <-]. simpl. rewrite length_app, Hl.
  apply lookup_lt_Some in E. lia.
Qed.

Lemma mutate_keeps_well_formed (m : mutation) (s : self) :
  well_formed s -> well_formed (mutate m s).2.
Proof.
  intros Hs.
  assert (Hinplace : forall op items s1,
             well_formed s1 -> well_formed (for_each (inplace op) items s1).2).
  { intros op items. induction items as [|item items IH]; intros s1 H1;
      [exact H1|].
    simpl. assert (H2 : well_formed (inplace op item s1).2).
    { unfold inplace. destruct (dict.get _ _); [|exact H1].
      destruct (as_floats _); [|exact H1].
      destruct H1 as (Ha & Hb & Hc). repeat split; try assumption.
      simpl. eapply Forall_impl; [exact Hc|].
      intros v Hv. simpl. rewrite length_insert. exact Hv. }
    destruct (inplace op item s1) as [[[]|e] s2]; [apply IH|]; exact H2. }
  destruct m as [only ref | only ref soft | ids]; simpl.
  - unfold mean_center. destruct (let* data_vars := _ in _); [|exact Hs].
    apply Hinplace. exact Hs.
  - unfold normalize. destruct (let* data_vars := _ in _); [|exact Hs].
    apply Hinplace. exact Hs.
  - unfold reorder_conditions, xr.reindex.
    destruct (xr.condition_time (data_set s)); [exact Hs|].
    destruct ids; [exact Hs|].
    destruct (xr.is_unique _); [|exact Hs].
    destruct Hs as (Ha & _ & _).
    apply (fresh_data_set_well_formed (store s) _ (xr.data_vars (data_set s)));
      [exact Ha | apply length_map | reflexivity].
Qed.

(** X7: in the object that construction yields, and after any sequence of
    mutating calls, the variables of the working data set have distinct
    names and distinct buffers, all of them in the store. *)
Theorem reachable_well_formed (population_keys : list Z)
    (condition_attributes : list condition) (attribute_names : list string)
    (data_attributes : list data_attribute) (s0 : self) (ms : list mutation) :
  _get_population_state population_keys condition_attributes attribute_names
    data_attributes = Ok s0 ->
  well_formed (after ms s0).
Proof.
  intros Hc.
  assert (H0 : well_formed s0).
  { revert Hc. unfold _get_population_state, _get_data_set, bind.
    destruct (_get_condition_time_multi_index condition_attributes)
      as [index|e]; [|discriminate].
    destruct (foldl _ _ attribute_names) as [built|e] eqn:Hbuilt; [|discriminate].
    destruct (forallb _ _); [|discriminate].
    intros [= <-]. unfold reset_data_set, xr.copy_deep. simpl.
    assert (Hkeys : NoDup (dict.keys built.2)).
    { revert Hbuilt.
      assert (Hgen : forall acc : result (list ((Z * Z) * option (list xfloat))
                                          * list (string * matrix)),
                 (forall st, acc = Ok st -> NoDup (dict.keys st.2)) ->
                 forall st,
                   foldl (fun acc attr_name =>
                            let* st := acc in
                            let* r := data_array population_keys
                                        condition_attributes
                                        (_get_data_keys data_attributes)
                                        data_attributes attr_name st.1 in
                            Ok (r.1, dict.update attr_name r.2 st.2))
                     acc attribute_names = Ok st ->
                   NoDup (dict.keys st.2)).
      { induction attribute_names as [|name names IH]; intros acc Hacc st;
          simpl; [apply Hacc|].
        apply IH. intros st1. destruct acc as [st0|e]; simpl; [|discriminate].
        destruct (data_array _ _ _ _ _ _) as [r|e]; simpl; [|discriminate].
        intros [= <-]. simpl. apply update_keys_NoDup. apply (Hacc st0 eq_refl). }
      apply Hgen. intros st [= <-]. apply NoDup_nil_2. }
    apply (fresh_data_set_well_formed (dict.values built.2) _
             (imap (fun i (v : string * matrix) => (v.1, i)) built.2)).
    - assert (Hn : map fst (imap (fun i (v : string * matrix) => (v.1, i)) built.2)
                   = map fst built.2) by exact (renumbered_names 0 built.2).
      rewrite Hn. exact Hkeys.
    - rewrite length_map. reflexivity.
    - reflexivity. }
  clear Hc. revert s0 H0. induction ms as [|m ms IH]; intros s0 H0; [exact H0|].
  simpl. apply IH. apply mutate_keeps_well_formed. exact H0.
Qed.

(** The theorem at the example construction and three calls. *)
Lemma reachable_well_formed_witness :
  well_formed (after [MeanCenter None None; ReorderConditions [2%Z];
                      Normalize None None 0] example_state).
Proof.
  apply (reachable_well_formed [1%Z; 2%Z] two_conditions ["rate"%string]
           complete_records example_state).
  reflexivity.
Defined.

(** A well-formed working data set whose arrays hold floats in non-empty
    rows is float data. *)
Lemma float_data_of_well_formed (s : self) :
  well_formed s ->
  Forall (fun v : string * nat =>
            exists fm, as_floats (store s !!! v.2) = Ok fm
                       /\ Forall (fun row => row <> []) fm)
    (xr.data_vars (data_set s)) ->
  float_data s.
Proof.
  intros (Ha & Hb & Hc) Hf. split; [exact Ha|]. split; [exact Hb|].
  apply Forall_lookup_2. intros i v Hv. split.
  - exact (Forall_lookup_1 _ _ _ _ Hc Hv).
  - exact (Forall_lookup_1 _ _ _ _ Hf Hv).
Qed.

(** ** [reorder_conditions] *)

Lemma label_eqb_refl (l : label) : xr.label_eqb l l = true.
Proof.
  unfold xr.label_eqb. rewrite Z.eqb_refl. simpl.
  apply Qeq_bool_iff. reflexivity.
Qed.

(** In an index without repeated labels, a label is found where it stands. *)
Lemma get_loc_unique (index : list label) (k : nat) (l : label) :
  xr.is_unique index = true -> index !! k = Some l ->
  xr.get_loc index l = Some k.
Proof.
  revert k. induction index as [|a index IH]; intros k Hu Hk; [discriminate|].
  simpl in Hu. apply andb_true_iff in Hu as [Ha Hu].
  destruct k as [|k]; simpl in *.
  - injection Hk as ->. rewrite label_eqb_refl. reflexivity.
  - destruct (xr.label_eqb a l) eqn:E.
    + exfalso. apply negb_true_iff in Ha.
      assert (Hex : existsb (xr.label_eqb a) index = true).
      { apply existsb_exists. exists l. split; [|exact E].
        apply list_elem_of_In. eapply list_elem_of_lookup_2. exact Hk. }
      congruence.
    + rewrite (IH k Hu Hk). reflexivity.
Qed.

Lemma reindex_row_lookup (index target : list label) (row : list cell)
    (j : nat) (l : label) :
  xr.is_unique index = true -> length row = length index ->
  target !! j = Some l -> l ∈ index ->
  exists k, index !! k = Some l
            /\ xr.reindex_row index target row !! j = row !! k.
Proof.
  intros Hu Hlen Hj Hl.
  apply list_elem_of_lookup in Hl as [k Hk]. exists k. split; [exact Hk|].
  unfold xr.reindex_row. rewrite list_lookup_fmap, Hj. simpl.
  rewrite (get_loc_unique index k l Hu Hk).
  destruct (row !! k) as [c|] eqn:Hc; [reflexivity|].
  apply lookup_ge_None in Hc. apply lookup_lt_Some in Hk. lia.
Qed.

Lemma block_of_present (index : list label) (cid : Z) :
  present index cid -> block index cid <> [].
Proof.
  intros [t Ht] Hb.
  assert (Hin : In (cid, t) (block index cid)).
  { unfold block. apply filter_In. split; [apply list_elem_of_In; exact Ht|].
    simpl. apply Z.eqb_refl. }
  rewrite Hb in Hin. destruct Hin.
Qed.

Lemma elem_of_blocks (index : list label) (ids : list Z) (l : label) :
  l ∈ flat_map (block index) ids <-> l ∈ index /\ l.1 ∈ ids.
Proof.
  rewrite !list_elem_of_In, in_flat_map. split.
  - intros (cid & Hc & Hl). unfold block in Hl. apply filter_In in Hl as [Hl He].
    apply Z.eqb_eq in He. subst cid. split; assumption.
  - intros [Hl Hc]. exists l.1. split; [exact Hc|].
    unfold block. apply filter_In. split; [exact Hl | apply Z.eqb_refl].
Qed.

Lemma get_of_renumbered (vars : list (string * nat)) (var : string)
    (buffer : nat) :
  dict.get var vars = Some buffer ->
  exists i,
    (exists name, vars !! i = Some (name, buffer))
    /\ forall n,
         dict.get var (imap (fun j (v : string * nat) => (v.1, n + j)) vars)
         = Some (n + i).
Proof.
  induction vars as [|[name loc] vars IH]; simpl; [discriminate|].
  destruct (decide (var = name)) as [->|Hne].
  - intros [= ->]. exists 0. split; [exists name; reflexivity|].
    intros n. destruct (decide (name = name)); [reflexivity | congruence].
  - intros Hget. destruct (IH Hget) as (i & Hi & Hn). exists (S i).
    split; [exact Hi|]. intros n.
    destruct (decide (var = name)); [congruence|].
    rewrite <- Nat.add_succ_comm, <- (Hn (S n)). f_equal.
    apply imap_ext. intros j v _. simpl. f_equal. lia.
Qed.

(** The array of a variable after a reindexing: every row reindexed. *)
Lemma variable_after_reindex (s s' : self) (target : list label)
    (st' : list matrix) (ds' : xr.Dataset) (var : string) (m : matrix) :
  xr.reindex (store s) (data_set s) target = Ok (st', ds') ->
  store s' = st' -> data_set s' = ds' ->
  variable s var = Ok m ->
  variable s' var
  = Ok (map (xr.reindex_row (xr.condition_time (data_set s)) target) m).
Proof.
  unfold xr.reindex, variable.
  destruct (xr.is_unique _); [|discriminate].
  intros [= <- <-] -> ->.
  destruct (dict.get var (xr.data_vars (data_set s))) as [buffer|] eqn:Hget;
    [|discriminate].
  intros [= <-]. simpl xr.data_vars.
  destruct (get_of_renumbered _ _ _ Hget) as (i & (name & Hi) & Hn).
  rewrite Hn. f_equal.
  rewrite lookup_total_app_r by lia.
  replace (length (store s) + i - length (store s)) with i by lia.
  apply list_lookup_total_correct.
  rewrite list_lookup_fmap, Hi. reflexivity.
Qed.

Lemma reorder_conditions_reindexes (s : self) (ids : list Z) :
  xr.condition_time (data_set s) <> [] -> ids <> [] ->
  reorder_conditions ids s
  = match xr.reindex (store s) (data_set s)
            (flat_map (block (xr.condition_time (data_set s))) ids) with
    | Ok (store', reindexed) =>
        (Ok tt, {| store := store';
                   _raw_data_set := _raw_data_set s;
                   data_set := reindexed |})
    | Raise e => (Raise e, s)
    end.
Proof.
  intros Hi Hn. unfold reorder_conditions.
  destruct (xr.condition_time (data_set s)); [congruence|].
  destruct ids; [congruence|]. reflexivity.
Qed.

(** C8 (amended): on every data set, [reorder_conditions] with the empty
    list raises [ValueError] and leaves the data set as it was.  On a data
    set whose condition-time labels are distinct, with condition ids that
    float64 holds exactly, for a non-empty list of condition ids that are
    all present, [reorder_conditions] succeeds and leaves as index the
    labels of the listed conditions, one block per listed id in the listed
    order, each block being the labels of its condition in their original
    order; no label of another condition remains; the members are the same;
    and every row of every variable holds, under each label, the cell it
    held under that label before. *)
Theorem reorder_conditions_blocks (s : self) (sorted_condition_ids : list Z) :
  let index := xr.condition_time (data_set s) in
  reorder_conditions [] s = (Raise ValueError, s)
  /\ (sorted_condition_ids <> [] ->
      exact_ids index ->
      xr.is_unique index = true ->
      Forall (present index) sorted_condition_ids ->
      exists s',
        reorder_conditions sorted_condition_ids s = (Ok tt, s')
        /\ xr.condition_time (data_set s')
           = flat_map (block index) sorted_condition_ids
        /\ Forall (fun cid => block index cid <> []) sorted_condition_ids
        /\ (forall l, l ∈ xr.condition_time (data_set s')
                      <-> l ∈ index /\ l.1 ∈ sorted_condition_ids)
        /\ xr.population (data_set s') = xr.population (data_set s)
        /\ (forall var m,
              variable s var = Ok m ->
              exists m',
                variable s' var = Ok m'
                /\ length m' = length m
                /\ forall i row j l,
                     m !! i = Some row -> length row = length index ->
                     xr.condition_time (data_set s') !! j = Some l ->
                     exists row' k,
                       m' !! i = Some row'
                       /\ index !! k = Some l
                       /\ row' !! j = row !! k)).
Proof.
  intros index. split.
  { unfold reorder_conditions. destruct (xr.condition_time (data_set s));
      reflexivity. }
  intros Hne _ Hu Hall. unfold index in Hu, Hall.
  assert (Hblocks : Forall (fun cid => block index cid <> []) sorted_condition_ids).
  { eapply Forall_impl; [exact Hall|]. intros cid. apply block_of_present. }
  assert (Hindex : index <> []).
  { destruct sorted_condition_ids as [|cid ids]; [congruence|].
    inversion Hblocks as [|? ? Hb _]. intros E. apply Hb. rewrite E. reflexivity. }
  rewrite (reorder_conditions_reindexes s sorted_condition_ids Hindex Hne).
  fold index.
  destruct (xr.reindex (store s) (data_set s)
              (flat_map (block index) sorted_condition_ids))
    as [[st' ds']|e] eqn:Hre.
  2:{ unfold xr.reindex in Hre. rewrite Hu in Hre. discriminate. }
  eexists. split; [reflexivity|]. simpl data_set.
  assert (Hds : xr.condition_time ds' = flat_map (block index) sorted_condition_ids
                /\ xr.population ds' = xr.population (data_set s)).
  { unfold xr.reindex in Hre. rewrite Hu in Hre.
    injection Hre as _ <-. split; reflexivity. }
  destruct Hds as [Hct Hpop].
  split; [exact Hct|]. split; [exact Hblocks|].
  split; [intros l; rewrite Hct; apply elem_of_blocks|].
  split; [exact Hpop|].
  intros var m Hm. eexists. split.
  { eapply variable_after_reindex; [exact Hre|reflexivity|reflexivity|exact Hm]. }
  split; [apply length_map|].
  intros i row j l Hrow Hlen Hj.
  assert (Hl : l ∈ index).
  { apply (elem_of_blocks index sorted_condition_ids l). rewrite <- Hct.
    eapply list_elem_of_lookup_2. exact Hj. }
  rewrite Hct in Hj.
  destruct (reindex_row_lookup index (flat_map (block index) sorted_condition_ids)
              row j l Hu Hlen Hj Hl) as (k & Hk & Hcell).
  exists (xr.reindex_row index (flat_map (block index) sorted_condition_ids) row), k.
  split; [|split].
  - fold index.
    exact (eq_trans (list_lookup_fmap _ m i) (f_equal (fmap _) Hrow)).
  - exact Hk.
  - exact Hcell.
Qed.

(** The theorem at the example state and the list 2, 1. *)
Lemma reorder_conditions_blocks_witness :
  exists s',
    reorder_conditions [2%Z; 1%Z] example_state = (Ok tt, s')
    /\ xr.condition_time (data_set s')
       = [(2%Z, 0%Q); (2%Z, 1%Q); (2%Z, 2%Q); (1%Z, 0%Q); (1%Z, 1%Q)]
    /\ variable s' "rate"
       = Ok (of_floats [[Fin 1; Fin 2; Fin 4; Fin 5; Fin 6];
                        [Fin 7; Fin 7; Fin 7; Fin 7; Fin 7]]).
Proof.
  destruct (proj2 (reorder_conditions_blocks example_state [2%Z; 1%Z]))
    as (s' & Hs' & Hct & _).
  - discriminate.
  - repeat constructor; unfold exact_id; simpl; lia.
  - reflexivity.
  - repeat constructor.
    + exists 0%Q. apply list_elem_of_In. simpl. tauto.
    + exists 0%Q. apply list_elem_of_In. simpl. tauto.
  - exists s'. split; [exact Hs'|]. split; [exact Hct|].
    injection Hs' as <-. reflexivity.
Defined.

(** C8 as stated fails on the empty list, which is a subset of the present
    conditions: [np.vstack] of no array raises and the data set is left as
    it was. *)
Lemma reorder_conditions_empty_list_raises :
  reorder_conditions [] example_state = (Raise ValueError, example_state).
Proof. reflexivity. Qed.

(** *** The labels that construction yields are distinct *)

Lemma is_unique_app (l1 l2 : list label) :
  xr.is_unique l1 = true -> xr.is_unique l2 = true ->
  (forall a b, a ∈ l1 -> b ∈ l2 -> xr.label_eqb a b = false) ->
  xr.is_unique (l1 ++ l2) = true.
Proof.
  intros H1 H2 Hcross. induction l1 as [|a l1 IH]; [exact H2|].
  simpl in *. apply andb_true_iff in H1 as [Ha H1].
  apply andb_true_iff. split.
  - rewrite existsb_app, negb_orb, Ha. simpl. apply negb_true_iff.
    destruct (existsb (xr.label_eqb a) l2) eqn:E; [|reflexivity].
    apply existsb_exists in E as (b & Hb & Hab).
    rewrite (Hcross a b) in Hab; [discriminate | left |].
    apply list_elem_of_In. exact Hb.
  - apply IH; [exact H1|]. intros x y Hx Hy. apply Hcross; [right|]; assumption.
Qed.

Lemma is_unique_block (cid : Z) (ts : list Q) :
  StronglySorted Qlt ts -> xr.is_unique (map (pair cid) ts) = true.
Proof.
  induction 1 as [|t ts Hs IH Ht]; [reflexivity|].
  simpl. rewrite IH, andb_true_r. apply negb_true_iff.
  destruct (existsb _ _) eqn:E; [|reflexivity].
  apply existsb_exists in E as (b & Hb & Hab).
  apply in_map_iff in Hb as (t' & <- & Ht').
  unfold xr.label_eqb in Hab. simpl in Hab.
  apply andb_true_iff in Hab as [_ Hq]. apply Qeq_bool_iff in Hq.
  apply list_elem_of_In in Ht'.
  pose proof (proj1 (Forall_forall _ _) Ht t' Ht') as Hlt.
  rewrite Hq in Hlt. exfalso. exact (Qlt_irrefl _ Hlt).
Qed.

Lemma multi_index_unique (condition_attributes : list condition)
    (index : list label) :
  NoDup (map fst condition_attributes) ->
  Forall (fun c : condition => StronglySorted Qlt c.2) condition_attributes ->
  _get_condition_time_multi_index condition_attributes = Ok index ->
  xr.is_unique index = true.
Proof.
  intros Hids Htimes. unfold _get_condition_time_multi_index.
  destruct condition_attributes as [|c0 cs0] eqn:E; [discriminate|].
  rewrite <- E in *. clear E c0 cs0. intros [= <-].
  induction Htimes as [|c cs Hc _ IH]; [reflexivity|].
  simpl in Hids. apply NoDup_cons in Hids as [Hc1 Hids].
  simpl. apply is_unique_app.
  - apply is_unique_block. exact Hc.
  - apply IH. exact Hids.
  - intros a b Ha Hb. unfold xr.label_eqb.
    apply list_elem_of_In, in_map_iff in Ha as (t & <- & _).
    apply list_elem_of_In, in_flat_map in Hb as (c' & Hc' & Hb).
    apply in_map_iff in Hb as (t' & <- & _). simpl.
    destruct (Z.eqb_spec c.1 c'.1) as [Heq|_]; [|reflexivity].
    exfalso. apply Hc1. rewrite Heq. apply list_elem_of_fmap.
    exists c'. split; [reflexivity | apply list_elem_of_In; exact Hc'].
Qed.

(** X8: when the fetched conditions have distinct ids and strictly
    increasing time vectors, the working data set that construction yields
    has distinct condition-time labels. *)
Theorem constructed_labels_unique (population_keys : list Z)
    (condition_attributes : list condition) (attribute_names : list string)
    (data_attributes : list data_attribute) (s0 : self) :
  NoDup (map fst condition_attributes) ->
  Forall (fun c : condition => StronglySorted Qlt c.2) condition_attributes ->
  _get_population_state population_keys condition_attributes attribute_names
    data_attributes = Ok s0 ->
  xr.is_unique (xr.condition_time (data_set s0)) = true.
Proof.
  intros Hids Htimes. unfold _get_population_state, _get_data_set, bind.
  destruct (_get_condition_time_multi_index condition_attributes)
    as [index|e] eqn:Hindex; [|discriminate].
  destruct (foldl _ _ attribute_names) as [built|e]; [|discriminate].
  destruct (forallb _ _); [|discriminate].
  intros [= <-]. simpl.
  exact (multi_index_unique _ _ Hids Htimes Hindex).
Qed.

(** The theorem at the example construction. *)
Lemma constructed_labels_unique_witness :
  xr.is_unique (xr.condition_time (data_set example_state)) = true.
Proof.
  apply (constructed_labels_unique [1%Z; 2%Z] two_conditions ["rate"%string]
           complete_records example_state).
  - apply NoDup_cons. split.
    + intros H. apply list_elem_of_singleton in H. discriminate.
    + apply NoDup_singleton.
  - repeat constructor.
  - reflexivity.
Defined.

(** ** [normalize] on a member with a constant attribute *)

Lemma traverse_ok {A B : Type} (f : A -> result B) (l : list A) :
  Forall (fun a => exists b, f a = Ok b) l ->
  exists bs, traverse f l = Ok bs /\ Forall2 (fun a b => f a = Ok b) l bs.
Proof.
  induction 1 as [|a l [b Hb] _ (bs & Hbs & HF)]; simpl.
  - exists []. split; [reflexivity | constructor].
  - rewrite Hb, Hbs. simpl. exists (b :: bs). split; [reflexivity|].
    constructor; assumption.
Qed.

Lemma traverse_lookup {A B : Type} (f : A -> result B) (l : list A)
    (bs : list B) (i : nat) (a : A) :
  traverse f l = Ok bs -> l !! i = Some a ->
  exists b, bs !! i = Some b /\ f a = Ok b.
Proof.
  revert bs i. induction l as [|x l IH]; intros bs i; simpl; [discriminate|].
  destruct (f x) as [y|] eqn:Hy; simpl; [|discriminate].
  destruct (traverse f l) as [ys|] eqn:Hys; simpl; [|discriminate].
  intros [= <-]. destruct i as [|i]; simpl.
  - intros [= <-]. exists y. split; [reflexivity | exact Hy].
  - intros Hi. exact (IH ys i eq_refl Hi).
Qed.

Lemma as_floats_of_floats (fm : list (list xfloat)) :
  as_floats (of_floats fm) = Ok fm.
Proof.
  unfold as_floats, of_floats.
  induction fm as [|row fm IH]; simpl; [reflexivity|].
  assert (Hrow : traverse as_float (map Num row) = Ok row).
  { clear. induction row as [|x row IH]; simpl; [reflexivity|].
    rewrite IH. reflexivity. }
  rewrite Hrow, IH. reflexivity.
Qed.

Lemma get_elem_of (vars : list (string * nat)) (name : string) (b : nat) :
  dict.get name vars = Some b -> (name, b) ∈ vars.
Proof.
  induction vars as [|[n loc] vars IH]; simpl; [discriminate|].
  destruct (decide (name = n)) as [->|_].
  - intros [= ->]. left.
  - intros H. right. exact (IH H).
Qed.

Lemma get_of_key (vars : list (string * nat)) (name : string) :
  name ∈ map fst vars -> exists b, dict.get name vars = Some b.
Proof.
  induction vars as [|[n loc] vars IH]; simpl.
  - intros H. inversion H.
  - intros H. destruct (decide (name = n)) as [->|Hne]; [eauto|].
    apply IH. inversion H; subst; [congruence | assumption].
Qed.

Lemma buffers_distinct (vars : list (string * nat)) (n1 n2 : string)
    (b : nat) :
  NoDup (map snd vars) ->
  dict.get n1 vars = Some b -> dict.get n2 vars = Some b -> n1 = n2.
Proof.
  intros Hnd H1 H2. apply get_elem_of in H1, H2.
  apply list_elem_of_lookup in H1 as [i Hi], H2 as [j Hj].
  assert (Hij : i = j).
  { eapply (NoDup_lookup _ i j b Hnd);
      rewrite list_lookup_fmap; [rewrite Hi | rewrite Hj]; reflexivity. }
  subst j. congruence.
Qed.

Lemma inplace_ok (op : xfloat -> xfloat -> xfloat)
    (item : string * list xfloat) (s : self) (b : nat) :
  floats_in_store (xr.data_vars (data_set s)) (store s) ->
  dict.get item.1 (xr.data_vars (data_set s)) = Some b ->
  exists fm s',
    as_floats (store s !!! b) = Ok fm
    /\ inplace op item s = (Ok tt, s')
    /\ data_set s' = data_set s
    /\ length (store s') = length (store s)
    /\ store s' !!! b
       = of_floats (zip_with (fun row x => map (fun c => op c x) row) fm item.2)
    /\ (forall b', b' <> b -> store s' !!! b' = store s !!! b')
    /\ floats_in_store (xr.data_vars (data_set s)) (store s').
Proof.
  intros Hf Hget.
  pose proof (get_elem_of _ _ _ Hget) as Hin.
  pose proof (proj1 (Forall_forall _ _) Hf _ Hin) as (Hlt & fm & Hfm).
  simpl in Hlt, Hfm.
  exists fm. eexists. split; [exact Hfm|].
  unfold inplace. rewrite Hget, Hfm. split; [reflexivity|]. simpl.
  split; [reflexivity|]. split; [apply length_insert|].
  split; [apply list_lookup_total_insert_eq; exact Hlt|].
  split; [intros b' Hb'; apply list_lookup_total_insert_ne; congruence|].
  unfold floats_in_store. eapply Forall_impl; [exact Hf|].
  intros v (Hv & fv & Hfv). split; [rewrite length_insert; exact Hv|].
  destruct (decide (v.2 = b)) as [->|Hne].
  - rewrite list_lookup_total_insert_eq by exact Hlt.
    eexists. apply as_floats_of_floats.
  - rewrite list_lookup_total_insert_ne by congruence. eauto.
Qed.

Lemma for_each_inplace_others (op : xfloat -> xfloat -> xfloat)
    (items : list (string * list xfloat)) (s : self) (b0 : nat) :
  floats_in_store (xr.data_vars (data_set s)) (store s) ->
  Forall (fun item : string * list xfloat =>
            exists b, dict.get item.1 (xr.data_vars (data_set s)) = Some b
                      /\ b <> b0) items ->
  exists s',
    for_each (inplace op) items s = (Ok tt, s')
    /\ data_set s' = data_set s
    /\ length (store s') = length (store s)
    /\ store s' !!! b0 = store s !!! b0
    /\ floats_in_store (xr.data_vars (data_set s)) (store s').
Proof.
  intros Hf Hitems. revert s Hf Hitems.
  induction items as [|item items IH]; intros s Hf Hitems; simpl.
  - exists s. repeat split. exact Hf.
  - inversion Hitems as [|? ? (b & Hget & Hne) Hrest]; subst.
    destruct (inplace_ok op item s b Hf Hget)
      as (fm & s1 & _ & Hrun & Hds & Hlen & _ & Hother & Hf1).
    rewrite Hrun.
    destruct (IH s1) as (s' & Hrun' & Hds' & Hlen' & Hb0 & Hf').
    { rewrite Hds. exact Hf1. }
    { rewrite Hds. exact Hrest. }
    exists s'. split; [exact Hrun'|]. split; [congruence|].
    split; [congruence|]. split.
    + rewrite Hb0. apply Hother. congruence.
    + rewrite <- Hds. exact Hf'.
Qed.

Lemma lookup_map {A B : Type} (f : A -> B) (l : list A) (i : nat) :
  map f l !! i = f <$> l !! i.
Proof. apply list_lookup_fmap. Qed.

Lemma for_each_app {A : Type} (f : A -> self -> call unit) (l1 l2 : list A)
    (s s1 : self) :
  for_each f l1 s = (Ok tt, s1) ->
  for_each f (l1 ++ l2) s = for_each f l2 s1.
Proof.
  revert s. induction l1 as [|a l1 IH]; intros s; simpl.
  - intros [= <-]. reflexivity.
  - destruct (f a s) as [[[]|e] s0]; [apply IH | discriminate].
Qed.

Lemma for_each_inplace_tracked (op : xfloat -> xfloat -> xfloat)
    (items : list (string * list xfloat)) (s : self) (var : string)
    (x : list xfloat) (b : nat) (fm : list (list xfloat)) :
  floats_in_store (xr.data_vars (data_set s)) (store s) ->
  NoDup (map snd (xr.data_vars (data_set s))) ->
  NoDup (map fst items) ->
  Forall (fun item : string * list xfloat =>
            exists b', dict.get item.1 (xr.data_vars (data_set s)) = Some b')
    items ->
  (var, x) ∈ items ->
  dict.get var (xr.data_vars (data_set s)) = Some b ->
  as_floats (store s !!! b) = Ok fm ->
  exists s',
    for_each (inplace op) items s = (Ok tt, s')
    /\ data_set s' = data_set s
    /\ store s' !!! b
       = of_floats (zip_with (fun row x => map (fun c => op c x) row) fm x).
Proof.
  intros Hf Hbuf Hnames Hitems Hin Hget Hfm.
  apply list_elem_of_split in Hin as (before & rest & ->).
  rewrite fmap_app in Hnames. simpl in Hnames.
  apply NoDup_app in Hnames as (_ & Hbefore & Hrest).
  apply NoDup_cons in Hrest as (Hrest & _).
  apply Forall_app in Hitems as (Hib & Hir).
  apply Forall_cons in Hir as (_ & Hir).
  assert (Hothers : forall l : list (string * list xfloat),
             var ∉ map fst l ->
             Forall (fun item : string * list xfloat =>
                       exists b', dict.get item.1 (xr.data_vars (data_set s))
                                  = Some b') l ->
             Forall (fun item : string * list xfloat =>
                       exists b', dict.get item.1 (xr.data_vars (data_set s))
                                  = Some b' /\ b' <> b) l).
  { intros l Hl Hall. induction Hall as [|item l (b' & Hb') _ IH];
      constructor.
    - exists b'. split; [exact Hb'|]. intros ->.
      apply Hl. rewrite (buffers_distinct _ _ _ _ Hbuf Hget Hb'). left.
    - apply IH. intros H. apply Hl. right. exact H. }
  destruct (for_each_inplace_others op before s b Hf)
    as (s1 & Hrun1 & Hds1 & Hlen1 & Hb1 & Hf1).
  { apply Hothers; [|exact Hib]. intros H. apply (Hbefore var); [exact H | left]. }
  destruct (inplace_ok op (var, x) s1 b)
    as (fm1 & s2 & Hfm1 & Hrun2 & Hds2 & Hlen2 & Hb2 & _ & Hf2).
  { rewrite Hds1. exact Hf1. }
  { rewrite Hds1. exact Hget. }
  assert (fm1 = fm) by (rewrite Hb1 in Hfm1; congruence). subst fm1.
  destruct (for_each_inplace_others op rest s2 b)
    as (s3 & Hrun3 & Hds3 & Hlen3 & Hb3 & Hf3).
  { rewrite Hds2, Hds1. rewrite Hds1 in Hf2. exact Hf2. }
  { rewrite Hds2, Hds1. apply Hothers; [exact Hrest | exact Hir]. }
  exists s3. split.
  - rewrite (for_each_app _ before _ s s1 Hrun1). simpl.
    rewrite Hrun2. exact Hrun3.
  - split; [congruence|]. rewrite Hb3. exact Hb2.
Qed.

Lemma as_float_row (row : list xfloat) :
  traverse as_float (map Num row) = Ok row.
Proof.
  induction row as [|x row IH]; simpl; [reflexivity|].
  rewrite IH. reflexivity.
Qed.

(** What the division leaves of the example: the constant row of member 2
    becomes infinite, the row of member 1 is scaled by its range 5. *)
Example normalize_example :
  exists s',
    normalize None None 0 example_state = (Ok tt, s')
    /\ variable s' "rate"
       = Ok [[Num (Fin (5 / (0 + (6 - 1)))); Num (Fin (6 / (0 + (6 - 1))));
              Num (Fin (1 / (0 + (6 - 1)))); Num (Fin (2 / (0 + (6 - 1))));
              Num (Fin (4 / (0 + (6 - 1))))];
             [Num PInf; Num PInf; Num PInf; Num PInf; Num PInf]].
Proof. eexists. split; reflexivity. Qed.

(** *** [mean_center] leaves rows of mean zero *)

Lemma sum_of_finite (qs : list Q) (x : Q) :
  exists total,
    foldl float64.add (Fin x) (map Fin qs) = Fin total
    /\ (total == x + qsum qs)%Q.
Proof.
  revert x. induction qs as [|q qs IH]; intros x; simpl.
  - exists x. split; [reflexivity | ring].
  - destruct (IH (x + q)%Q) as (total & Ht & Hq).
    exists total. split; [exact Ht|]. rewrite Hq. ring.
Qed.

Lemma mean_of_finite (qs : list Q) :
  qs <> [] ->
  exists mu,
    float64.mean (map Fin qs) = Fin mu
    /\ (mu * inject_Z (Z.of_nat (length qs)) == qsum qs)%Q.
Proof.
  intros Hne. unfold float64.mean, float64.of_nat.
  destruct (sum_of_finite qs 0) as (total & -> & Ht).
  rewrite length_map. simpl.
  assert (Hn : ~ (inject_Z (Z.of_nat (length qs)) == 0)%Q).
  { destruct qs as [|q qs]; [congruence|]. simpl length.
    unfold Qeq. simpl. lia. }
  destruct (Qeq_bool _ 0) eqn:E; [apply Qeq_bool_iff in E; contradiction|].
  eexists. split; [reflexivity|]. rewrite Ht. field. exact Hn.
Qed.

Lemma qsum_shift (qs : list Q) (mu : Q) :
  (qsum (map (fun q => q - mu) qs)
   == qsum qs - mu * inject_Z (Z.of_nat (length qs)))%Q.
Proof.
  induction qs as [|q qs IH]; simpl qsum.
  - simpl. ring.
  - rewrite IH. simpl length. rewrite Nat2Z.inj_succ. unfold Z.succ.
    rewrite inject_Z_plus. ring.
Qed.

(** X4: after [mean_center] with no restriction, on a data set of float arrays
    with non-empty rows, a row that held finite values holds finite values
    of mean zero. *)
Theorem mean_center_zero_mean (s : self) (var : string) (m : matrix)
    (i : nat) (qs : list Q) :
  float_data s ->
  variable s var = Ok m ->
  m !! i = Some (map Num (map Fin qs)) ->
  qs <> [] ->
  exists s' m' qs' z,
    mean_center None None s = (Ok tt, s')
    /\ variable s' var = Ok m'
    /\ m' !! i = Some (map Num (map Fin qs'))
    /\ float64.mean (map Fin qs') = Fin z
    /\ (z == 0)%Q.
Proof.
  intros (Hnames & Hbufs & Hdata) Hvar Hrow Hne.
  set (vars := xr.data_vars (data_set s)) in *.
  unfold variable in Hvar. fold vars in Hvar.
  destruct (dict.get var vars) as [b|] eqn:Hget; [|discriminate].
  injection Hvar as <-.
  assert (Hfloats : floats_in_store vars (store s)).
  { eapply Forall_impl; [exact Hdata|].
    intros v (Hv & fm & Hfm & _). split; [exact Hv | eauto]. }
  set (g := fun var0 : string =>
              let* m0 := variable s var0 in
              let* m1 := as_floats m0 in
              Ok (var0, map float64.mean m1)).
  assert (Hg : Forall (fun name => exists item, g name = Ok item)
                 (dict.keys vars)).
  { apply Forall_forall. intros name Hname.
    destruct (get_of_key vars name Hname) as (b' & Hb').
    pose proof (proj1 (Forall_forall _ _) Hdata _ (get_elem_of _ _ _ Hb'))
      as (_ & fm & Hfm & _).
    simpl in Hfm. eexists. unfold g, variable. fold vars.
    rewrite Hb'. simpl. rewrite Hfm. reflexivity. }
  destruct (traverse_ok g (dict.keys vars) Hg) as (means & Hmeans & HF).
  assert (Hfst : forall name item, g name = Ok item -> item.1 = name).
  { intros name item. unfold g.
    destruct (variable s name); simpl; [|discriminate].
    destruct (as_floats a); simpl; [|discriminate].
    intros [= <-]. reflexivity. }
  assert (Hkeys : map fst means = dict.keys vars).
  { clear -HF Hfst. induction HF as [|name item ? ? H _ IH]; simpl;
      [reflexivity|]. rewrite IH, (Hfst _ _ H). reflexivity. }
  pose proof (proj1 (Forall_forall _ _) Hdata _ (get_elem_of _ _ _ Hget))
    as (_ & fm & Hfm & _). simpl in Hfm.
  assert (Hvar_in : var ∈ dict.keys vars).
  { unfold dict.keys. apply list_elem_of_fmap. exists (var, b).
    split; [reflexivity | apply get_elem_of; exact Hget]. }
  apply list_elem_of_lookup in Hvar_in as (j & Hj).
  destruct (traverse_lookup g _ _ j var Hmeans Hj) as (item & Hitem & Hgv).
  assert (Hit : item = (var, map float64.mean fm)).
  { revert Hgv. unfold g, variable. fold vars. rewrite Hget. simpl.
    rewrite Hfm. simpl. intros [= <-]. reflexivity. }
  subst item.
  destruct (traverse_lookup (traverse as_float) _ _ i _ Hfm Hrow)
    as (frow & Hfrow & Hconv).
  rewrite as_float_row in Hconv. injection Hconv as <-.
  destruct (mean_of_finite qs Hne) as (mu & Hmu & Hmuq).
  destruct (for_each_inplace_tracked float64.sub means s var
              (map float64.mean fm) b fm)
    as (s' & Hrun & Hds & Hb); try assumption.
  { rewrite Hkeys. exact Hnames. }
  { apply Forall_forall. intros it Hit. apply get_of_key. fold vars.
    unfold dict.keys in Hkeys. rewrite <- Hkeys.
    apply list_elem_of_fmap. exists it. split; [reflexivity | exact Hit]. }
  { eapply list_elem_of_lookup_2. exact Hitem. }
  set (qs' := map (fun q => (q - mu)%Q) qs).
  destruct (mean_of_finite qs') as (z & Hz & Hzq).
  { unfold qs'. destruct qs; [congruence | discriminate]. }
  exists s', (store s' !!! b), qs', z.
  split.
  { unfold mean_center. fold vars. unfold selected_vars, with_reference.
    simpl bind. fold g. rewrite Hmeans. simpl bind. exact Hrun. }
  split.
  { unfold variable. rewrite Hds. fold vars. rewrite Hget. reflexivity. }
  split.
  { rewrite Hb. unfold of_floats, matrix. rewrite lookup_map.
    erewrite (proj2 (lookup_zip_with_Some _ _ _ _ _)).
    2:{ exists (map Fin qs), (Fin mu). split; [reflexivity|].
        split; [exact Hfrow|]. rewrite lookup_map, Hfrow. simpl.
        rewrite Hmu. reflexivity. }
    simpl. f_equal. f_equal. unfold qs'. rewrite !map_map. reflexivity. }
  split; [exact Hz|].
  assert (Hn : ~ (inject_Z (Z.of_nat (length qs')) == 0)%Q).
  { unfold qs'. rewrite length_map. destruct qs as [|q qs]; [congruence|].
    simpl length. unfold Qeq. simpl. lia. }
  assert (Hsum : (qsum qs' == 0)%Q).
  { unfold qs'. rewrite qsum_shift, Hmuq. ring. }
  rewrite Hsum in Hzq.
  destruct (Qmult_integral _ _ Hzq) as [H|H]; [exact H | contradiction].
Qed.

(** The theorem at the rate of member 1 in the example state. *)
Lemma mean_center_zero_mean_witness :
  exists s' m' qs' z,
    mean_center None None example_state = (Ok tt, s')
    /\ variable s' "rate" = Ok m'
    /\ m' !! 0 = Some (map Num (map Fin qs'))
    /\ float64.mean (map Fin qs') = Fin z
    /\ (z == 0)%Q.
Proof.
  apply (mean_center_zero_mean example_state "rate" example_array 0
           [5; 6; 1; 2; 4]%Q).
  - split; [|split].
    + apply NoDup_cons. split; [apply not_elem_of_nil | apply NoDup_nil_2].
    + apply NoDup_cons. split; [apply not_elem_of_nil | apply NoDup_nil_2].
    + repeat constructor. simpl. eexists. split; [reflexivity|].
      repeat constructor; discriminate.
  - reflexivity.
  - reflexivity.
  - discriminate.
Defined.

(** ** [_rebin] *)

(** C4, at a failing input: rebinning a raster onto its own grid moves
    every spike one sample later ([np.digitize] counts the leading [-inf]
    edge and nothing is subtracted), and drops a spike in the last sample. *)
Theorem rebin_on_same_grid_shifts :
  _rebin [true; false; false] [0; 1; 2]%Q [0; 1; 2]%Q 1000 = Ok [false; true; false]
  /\ _rebin [false; false; true] [0; 1; 2]%Q [0; 1; 2]%Q 1000
     = Ok [false; false; false].
Proof. split; reflexivity. Qed.

(** *** [_rebin] onto the grid of the raster itself *)

Lemma midpoints_cons (a b : Q) (t : list Q) :
  midpoints (a :: b :: t) = ((a + b) / 2)%Q :: midpoints (b :: t).
Proof. reflexivity. Qed.

Lemma midpoint_above (a b : Q) : (a < b)%Q -> Qle_bool ((a + b) / 2) a = false.
Proof.
  intros H. destruct (Qle_bool _ _) eqn:E; [|reflexivity].
  apply Qle_bool_iff in E. exfalso.
  apply (Qlt_irrefl a). apply Qlt_le_trans with ((a + b) / 2)%Q; [|exact E].
  apply Qlt_shift_div_l; [reflexivity|]. lra.
Qed.

(** In a strictly increasing grid the sample at position [k] comes after
    exactly [k] midpoints. *)
Lemma searchsorted_midpoints (t : list Q) (k : nat) (x : Q) :
  StronglySorted Qlt t -> t !! k = Some x ->
  np.searchsorted_right float64.leb (map Fin (midpoints t) ++ [PInf]) (Fin x) = k.
Proof.
  intros Hs. revert k. induction Hs as [|a t Hs IH Ha]; intros k Hk;
    [discriminate|].
  destruct k as [|k]; simpl in Hk.
  - injection Hk as <-. destruct t as [|b t]; [reflexivity|].
    rewrite midpoints_cons. simpl.
    inversion Ha as [|? ? Hab _]; subst.
    rewrite (midpoint_above a b Hab). reflexivity.
  - destruct t as [|b t]; [discriminate|].
    rewrite midpoints_cons. simpl.
    inversion Ha as [|? ? Hab _]; subst.
    assert (Hbx : (b <= x)%Q).
    { destruct k as [|k]; simpl in Hk.
      - injection Hk as <-. apply Qle_refl.
      - inversion Hs as [|? ? _ Hb]; subst. apply Qlt_le_weak.
        apply (proj1 (Forall_forall _ _) Hb).
        eapply list_elem_of_lookup_2. exact Hk. }
    assert (Hm : Qle_bool ((a + b) / 2) x = true).
    { apply Qle_bool_iff. apply Qle_shift_div_r; [reflexivity|]. lra. }
    rewrite Hm. f_equal. apply IH. exact Hk.
Qed.

Lemma nondecreasing_midpoints (t : list Q) :
  StronglySorted Qlt t ->
  np.nondecreasing float64.leb (map Fin (midpoints t) ++ [PInf]) = true.
Proof.
  induction 1 as [|a t Hs IH Ha]; [reflexivity|].
  destruct t as [|b t]; [reflexivity|].
  rewrite midpoints_cons.
  destruct t as [|c t]; [reflexivity|].
  rewrite midpoints_cons in *. simpl in *.
  rewrite IH, andb_true_r.
  inversion Ha as [|? ? Hab _]; subst.
  inversion Hs as [|? ? _ Hb]; subst. inversion Hb as [|? ? Hbc _]; subst.
  apply Qle_bool_iff. apply Qle_shift_div_l; [reflexivity|].
  assert (H : ((a + b) / 2 * 2 == a + b)%Q) by field.
  rewrite H. lra.
Qed.

Lemma digitized_positions (t1 t2 : list Q) (raster : list bool) :
  StronglySorted Qlt (t1 ++ t2) ->
  map (np.searchsorted_right float64.leb (t_bins (t1 ++ t2)))
    (map Fin (np.select t2 raster))
  = map S (spike_positions (length t1) (firstn (length t2) raster)).
Proof.
  intros Hs. revert t1 raster Hs.
  induction t2 as [|x t2 IH]; intros t1 raster Hs; [reflexivity|].
  destruct raster as [|b raster]; [reflexivity|].
  assert (Hrest : map (np.searchsorted_right float64.leb
                         (t_bins (t1 ++ x :: t2)))
                    (map Fin (np.select t2 raster))
                  = map S (spike_positions (S (length t1))
                             (firstn (length t2) raster))).
  { specialize (IH (t1 ++ [x]) raster).
    rewrite <- app_assoc in IH. simpl in IH.
    rewrite length_app in IH. simpl in IH.
    rewrite Nat.add_1_r in IH. apply IH. exact Hs. }
  destruct b; cbn [np.select firstn spike_positions map length];
    [|exact Hrest].
  rewrite Hrest. f_equal.
  unfold t_bins. fold (midpoints (t1 ++ x :: t2)).
  cbn [app np.searchsorted_right float64.leb]. f_equal.
  apply searchsorted_midpoints; [exact Hs|].
  rewrite lookup_app_r by lia. rewrite Nat.sub_diag. reflexivity.
Qed.

Lemma elem_of_spike_positions (raster : list bool) (k i : nat) :
  i ∈ spike_positions k raster <-> k <= i /\ raster !! (i - k) = Some true.
Proof.
  revert k. induction raster as [|b raster IH]; intros k; simpl.
  - split; [intros H; inversion H | intros [_ H]; discriminate].
  - assert (Hstep : i ∈ spike_positions (S k) raster
                    <-> k <= i /\ i <> k /\ (b :: raster) !! (i - k) = Some true).
    { rewrite IH. split.
      - intros [Hk Hi]. split; [lia|]. split; [lia|].
        replace (i - k) with (S (i - S k)) by lia. exact Hi.
      - intros (Hk & Hne & Hi). split; [lia|].
        replace (i - k) with (S (i - S k)) in Hi by lia. exact Hi. }
    destruct b.
    + rewrite elem_of_cons, Hstep. split.
      * intros [->|(Hk & _ & Hi)]; [|tauto].
        split; [lia|]. rewrite Nat.sub_diag. reflexivity.
      * intros [Hk Hi]. destruct (decide (i = k)); [left; assumption|].
        right. tauto.
    + rewrite Hstep. split; [tauto|]. intros [Hk Hi].
      split; [exact Hk|]. split; [|exact Hi].
      intros ->. rewrite Nat.sub_diag in Hi. discriminate.
Qed.

Lemma rebin_same_grid (raster : list bool) (t : list Q) (fs_new : Q) :
  length raster = length t ->
  StronglySorted Qlt t ->
  _rebin raster t t fs_new = Ok (removelast (false :: raster)).
Proof.
  intros Hlen Hs.
  unfold _rebin, np.mask_index.
  rewrite <- Hlen, Nat.eqb_refl. simpl bind.
  unfold np.digitize, np.monotonicity.
  assert (Hmono : np.nondecreasing float64.leb
                    (t_bins t) = true).
  { unfold t_bins. fold (midpoints t).
    pose proof (nondecreasing_midpoints t Hs) as H.
    cbn [app]. destruct (midpoints t) as [|m ms]; [reflexivity|].
    cbn [map app] in *. cbn [np.nondecreasing float64.leb andb]. exact H. }
  rewrite Hmono. simpl bind. f_equal.
  pose proof (digitized_positions [] t raster Hs) as Hd. simpl in Hd.
  rewrite Hd. rewrite <- Hlen, firstn_all.
  apply list_eq. intros i.
  rewrite list_lookup_fmap.
  destruct (decide (i < length raster)) as [Hi|Hi].
  - rewrite lookup_seq_lt by exact Hi.
    assert (Hin : i ∈ map S (spike_positions 0 raster)
                  <-> exists j, i = S j /\ raster !! j = Some true).
    { rewrite list_elem_of_fmap. split.
      - intros (j & -> & Hj). exists j. split; [reflexivity|].
        apply elem_of_spike_positions in Hj as [_ Hj].
        rewrite Nat.sub_0_r in Hj. exact Hj.
      - intros (j & -> & Hj). exists j. split; [reflexivity|].
        apply elem_of_spike_positions. split; [lia|].
        rewrite Nat.sub_0_r. exact Hj. }
    assert (Hlook : removelast (false :: raster) !! i
                    = (false :: raster) !! i).
    { clear -Hi. revert i Hi. generalize false.
      induction raster as [|b raster IH]; intros b0 i Hi; simpl in Hi; [lia|].
      destruct i as [|i]; [reflexivity|].
      change (removelast (b0 :: b :: raster)) with (b0 :: removelast (b :: raster)).
      simpl. destruct raster as [|c raster].
      - simpl in Hi. lia.
      - apply IH. simpl in *. lia. }
    rewrite Hlook. destruct i as [|i]; simpl.
    + f_equal. apply bool_decide_eq_false. rewrite Hin.
      intros (j & Hj & _). discriminate.
    + destruct (raster !! i) as [b|] eqn:Hb.
      * f_equal. destruct b.
        -- apply bool_decide_eq_true. apply Hin. eauto.
        -- apply bool_decide_eq_false. rewrite Hin.
           intros (j & [= <-] & Hj). congruence.
      * apply lookup_ge_None in Hb. lia.
  - rewrite lookup_seq_ge by lia. symmetry.
    apply lookup_ge_None.
    assert (Hl : length (removelast (false :: raster)) = length raster).
    { clear. generalize false. induction raster as [|b raster IH]; intros b0;
        [reflexivity|].
      change (removelast (b0 :: b :: raster)) with (b0 :: removelast (b :: raster)).
      cbn [length]. rewrite IH. reflexivity. }
    lia.
Qed.

(** X1: on a strictly increasing grid, rebinning a raster onto its own grid
    gives the raster delayed by one sample: a false first entry, then the
    raster without its last entry. *)
Theorem rebin_same_grid_delays (raster : list bool) (t : list Q) (fs_new : Q) :
  length raster = length t ->
  StronglySorted Qlt t ->
  _rebin raster t t fs_new = Ok (removelast (false :: raster)).
Proof. exact (rebin_same_grid raster t fs_new). Qed.

(** The theorem at a raster of three samples on the grid 0, 1, 2. *)
Lemma rebin_same_grid_delays_witness :
  _rebin [true; false; true] [0; 1; 2]%Q [0; 1; 2]%Q 1000
  = Ok [false; true; false].
Proof.
  apply (rebin_same_grid_delays [true; false; true] [0; 1; 2]%Q 1000).
  - reflexivity.
  - repeat constructor.
Defined.

Lemma removelast_delayed (b0 : bool) (raster : list bool) :
  removelast (b0 :: raster) = raster <-> Forall (fun b => b = b0) raster.
Proof.
  revert b0. induction raster as [|b raster IH]; intros b0.
  - split; [constructor | reflexivity].
  - change (removelast (b0 :: b :: raster)) with (b0 :: removelast (b :: raster)).
    split.
    + intros [= -> H]. constructor; [reflexivity|].
      apply IH. exact H.
    + intros H. inversion H as [|? ? -> Hr]; subst. f_equal.
      apply IH. exact Hr.
Qed.

(** X2: hence, on a strictly increasing grid, rebinning onto the same grid
    returns the raster exactly when the raster has no spike. *)
Theorem rebin_same_grid_fixed_iff_silent (raster : list bool) (t : list Q)
    (fs_new : Q) :
  length raster = length t ->
  StronglySorted Qlt t ->
  (_rebin raster t t fs_new = Ok raster
   <-> Forall (fun b => b = false) raster).
Proof.
  intros Hlen Hs. rewrite (rebin_same_grid raster t fs_new Hlen Hs).
  rewrite <- removelast_delayed.
  split; [intros [= H]; exact H | intros ->; reflexivity].
Qed.

(** The theorem at a silent raster of three samples. *)
Lemma rebin_same_grid_fixed_iff_silent_witness :
  _rebin [false; false; false] [0; 1; 2]%Q [0; 1; 2]%Q 1000
  = Ok [false; false; false]
  <-> Forall (fun b => b = false) [false; false; false].
Proof.
  apply (rebin_same_grid_fixed_iff_silent [false; false; false] [0; 1; 2]%Q 1000).
  - reflexivity.
  - repeat constructor.
Defined.

(** ** The messages of [mean_center] and [normalize] *)

(** C6, at a failing input: for an unknown name in [only_vars] the message
    of the assertion holds the placeholder and not the name, so two
    different unknown names give the same exception; an unknown
    [reference_var] is named in its message. *)
Theorem unknown_only_vars_message :
  (mean_center (Some ["foo"%string]) None example_state).1
  = Raise (AssertionError "Attributes {} not found in data set")
  /\ (mean_center (Some ["bar"%string]) None example_state).1
     = Raise (AssertionError "Attributes {} not found in data set")
  /\ (normalize (Some ["foo"%string]) None 0 example_state).1
     = Raise (AssertionError "Attributes {} not found in data set")
  /\ (mean_center None (Some "foo"%string) example_state).1
     = Raise (AssertionError "Reference variable foo not found in data set")
  /\ (normalize None (Some "foo"%string) 0 example_state).1
     = Raise (AssertionError "Reference variable foo not found in data set").
Proof. repeat split. Qed.

(** X5: when [only_vars] holds a non-empty name that the data set lacks,
    [mean_center] and [normalize] raise the assertion and change nothing;
    the message depends on the number of unknown names only. *)
Lemma only_vars_message_counts (only_vars : list string)
    (reference_var : option string) (soft_factor : Q) (s : self) :
  let unknown :=
    unrecognized_variables only_vars (dict.keys (xr.data_vars (data_set s))) in
  existsb truthy unknown = true ->
  mean_center (Some only_vars) reference_var s
  = (Raise (AssertionError (attributes_message (length unknown))), s)
  /\ normalize (Some only_vars) reference_var soft_factor s
     = (Raise (AssertionError (attributes_message (length unknown))), s).
Proof.
  intros unknown H. unfold mean_center, normalize, selected_vars.
  fold unknown. rewrite H. split; reflexivity.
Qed.

(** The lemma at two unknown names. *)
Lemma only_vars_message_counts_witness :
  mean_center (Some ["foo"%string; "bar"%string]) None example_state
  = (Raise (AssertionError "Attributes {} {} not found in data set"),
     example_state)
  /\ normalize (Some ["foo"%string; "bar"%string]) None 0 example_state
     = (Raise (AssertionError "Attributes {} {} not found in data set"),
        example_state).
Proof.
  apply (only_vars_message_counts ["foo"%string; "bar"%string] None 0
           example_state).
  reflexivity.
Defined.

(** X6: an unknown [reference_var] is named: on a data set of float arrays,
    [mean_center] with a reference variable that the data set lacks raises
    the assertion whose message holds the name, and changes nothing. *)
Theorem unknown_reference_var_is_named (s : self) (reference_var : string) :
  float_data s ->
  reference_var ∉ dict.keys (xr.data_vars (data_set s)) ->
  mean_center None (Some reference_var) s
  = (Raise (AssertionError
              ("Reference variable " ++ reference_var
                 ++ " not found in data set")%string), s).
Proof.
  intros (_ & _ & Hdata) Hnot.
  set (vars := xr.data_vars (data_set s)) in *.
  set (g := fun var0 : string =>
              let* m0 := variable s var0 in
              let* m1 := as_floats m0 in
              Ok (var0, map float64.mean m1)).
  assert (Hg : Forall (fun name => exists item, g name = Ok item)
                 (dict.keys vars)).
  { apply Forall_forall. intros name Hname.
    destruct (get_of_key vars name Hname) as (b' & Hb').
    pose proof (proj1 (Forall_forall _ _) Hdata _ (get_elem_of _ _ _ Hb'))
      as (_ & fm & Hfm & _).
    simpl in Hfm. eexists. unfold g, variable. fold vars.
    rewrite Hb'. simpl. rewrite Hfm. reflexivity. }
  destruct (traverse_ok g (dict.keys vars) Hg) as (means & Hmeans & _).
  unfold mean_center. fold vars. unfold selected_vars, with_reference.
  simpl bind. fold g. rewrite Hmeans. simpl bind.
  rewrite bool_decide_eq_false_2 by exact Hnot. reflexivity.
Qed.

(** The theorem at the example state and the name foo. *)
Lemma unknown_reference_var_is_named_witness :
  mean_center None (Some "foo"%string) example_state
  = (Raise (AssertionError "Reference variable foo not found in data set"),
     example_state).
Proof.
  apply (unknown_reference_var_is_named example_state "foo").
  - split; [|split].
    + apply NoDup_cons. split; [apply not_elem_of_nil | apply NoDup_nil_2].
    + apply NoDup_cons. split; [apply not_elem_of_nil | apply NoDup_nil_2].
    + repeat constructor. simpl. eexists. split; [reflexivity|].
      repeat constructor; discriminate.
  - simpl. intros H. apply list_elem_of_singleton in H. discriminate.
Defined.

(** An unknown name that is the empty string passes the assertion. *)
Example empty_name_is_not_reported :
  (mean_center (Some [""%string]) None example_state).1 = Ok tt.
Proof. reflexivity. Qed.

(** ** Assembly with a missing combination *)

(** C9, at a failing input: member 1 has a record for condition 1 and none
    for condition 2.  The [None] that stands for the missing combination
    takes one column of the row where condition 2 has three labels, so the
    array does not fit the condition-time coordinate and construction
    raises. *)
Theorem missing_combination_breaks_assembly :
  data_array [1%Z] two_conditions [(1%Z, 1%Z)] [rate_record 1 1 [5; 6]%Q] "rate"
    [((1%Z, 1%Z), None); ((1%Z, 2%Z), None)]
  = Ok ([((1%Z, 1%Z), Some [Fin 5; Fin 6]); ((1%Z, 2%Z), None)],
        [[Num (Fin 5); Num (Fin 6); PyNone]])
  /\ _get_condition_time_multi_index two_conditions = Ok example_index
  /\ _get_population_state [1%Z] two_conditions ["rate"%string]
       [rate_record 1 1 [5; 6]%Q]
     = Raise ValueError.
Proof. repeat split. Qed.

(** Where the missing condition has a single sample the assembly completes
    and the cell holds [None]. *)
Example missing_combination_of_one_sample :
  exists s,
    _get_population_state [1%Z] [(1%Z, [0; 1]%Q); (2%Z, [0]%Q)] ["rate"%string]
      [rate_record 1 1 [5; 6]%Q] = Ok s
    /\ variable s "rate" = Ok [[Num (Fin 5); Num (Fin 6); PyNone]].
Proof. eexists. split; reflexivity. Qed.

(** * Further properties *)

(** ** The bins that [NeuronSpikeRaster.make] marks *)

Section Prefix.
Context {T : Type} (leb : T -> T -> bool).

(** [searchsorted_right] is the length of the longest prefix of entries
    that are at most [v]. *)
Lemma searchsorted_right_spec (l : list T) (v : T) (n : nat) :
  np.searchsorted_right leb l v = n
  <-> n <= length l
      /\ Forall (fun e => leb e v = true) (take n l)
      /\ (forall x, l !! n = Some x -> leb x v = false).
Proof.
  revert n. induction l as [|e l IH]; intros n; simpl.
  - split.
    + intros <-. split; [lia|]. split; [constructor | intros x H; discriminate].
    + intros (Hn & _). lia.
  - destruct (leb e v) eqn:E.
    + destruct n as [|n].
      * split; [discriminate|]. intros (_ & _ & H).
        specialize (H e eq_refl). congruence.
      * split.
        -- intros [= H]. apply IH in H as (Hn & Hall & Hstop).
           split; [lia|]. split; [constructor; assumption | exact Hstop].
        -- intros (Hn & Hall & Hstop). f_equal. apply IH.
           split; [lia|]. inversion Hall; subst. split; assumption.
    + destruct n as [|n].
      * split; [|reflexivity]. intros _. split; [lia|].
        split; [constructor | intros x [= <-]; exact E].
      * split; [discriminate|]. intros (_ & Hall & _).
        inversion Hall; subst. congruence.
Qed.

End Prefix.

Lemma nondecreasing_lookup (l : list Z) (i j : nat) (x y : Z) :
  np.nondecreasing Z.leb l = true -> i <= j ->
  l !! i = Some x -> l !! j = Some y -> (x <= y)%Z.
Proof.
  revert i j x. induction l as [|a [|b l] IH]; intros i j x Hs Hij Hi Hj.
  - discriminate.
  - destruct i; [|discriminate]. destruct j; [|discriminate].
    simpl in *. injection Hi as <-. injection Hj as <-. lia.
  - simpl in Hs. apply andb_true_iff in Hs as [Hab Hs]. apply Z.leb_le in Hab.
    destruct i as [|i].
    + simpl in Hi. injection Hi as <-. destruct j as [|j].
      * simpl in Hj. injection Hj as <-. lia.
      * simpl in Hj. pose proof (IH 0 j b Hs (Nat.le_0_l _) eq_refl Hj). lia.
    + destruct j as [|j]; [lia|]. simpl in Hi, Hj.
      apply (IH i j x Hs); [lia | exact Hi | exact Hj].
Qed.

Lemma set_true_lookup (bins : list Z) (r : list bool) (k : nat) :
  Forall (fun b => (0 <= b)%Z) bins ->
  np.set_true r bins !! k = Some true
  <-> r !! k = Some true \/ (k < length r /\ Z.of_nat k ∈ bins).
Proof.
  intros Hb. revert r. induction Hb as [|b bins Hb0 _ IH]; intros r.
  - unfold np.set_true. simpl. split; [tauto|].
    intros [H|[_ H]]; [exact H | inversion H].
  - unfold np.set_true in *. simpl. rewrite IH, length_insert.
    destruct (decide (k = Z.to_nat b)) as [->|Hne].
    + split.
      * intros [H|[Hk _]].
        -- apply lookup_lt_Some in H. rewrite length_insert in H.
           right. split; [exact H|]. rewrite Z2Nat.id by exact Hb0. left.
        -- right. split; [exact Hk|]. rewrite Z2Nat.id by exact Hb0. left.
      * intros [H|[Hk _]]; left.
        -- apply list_lookup_insert_eq. apply lookup_lt_Some in H. exact H.
        -- apply list_lookup_insert_eq. exact Hk.
    + rewrite list_lookup_insert_ne by congruence.
      rewrite elem_of_cons. split.
      * intros [H|[Hk Hin]]; [left; exact H | right; tauto].
      * intros [H|[Hk [Heq|Hin]]]; [left; exact H | | right; tauto].
        exfalso. apply Hne. rewrite <- Heq, Nat2Z.id. reflexivity.
Qed.

Lemma last_lookup (a : list Z) (final : Z) :
  py.last a = Ok final -> a !! (length a - 1) = Some final.
Proof.
  induction a as [|x [|y a] IH]; simpl; intros H.
  - discriminate.
  - congruence.
  - specialize (IH H). simpl in IH. rewrite Nat.sub_0_r in IH. exact IH.
Qed.

Lemma last_of_nonempty {A : Type} (a : list A) :
  a <> [] -> exists final, py.last a = Ok final.
Proof.
  induction a as [|x [|y a] IH]; intros H; [congruence | eauto |].
  apply IH. discriminate.
Qed.

(** The bin of a spike among the shifted edges, read on the integers. *)
Lemma spike_bin_spec (a : list Z) (final s : Z) (k : nat) (x : Z) :
  np.nondecreasing Z.leb a = true -> py.last a = Ok final ->
  a !! k = Some x ->
  np.searchsorted_right Z.leb (a ++ [(final + 1 + 0)%Z; (final + 1 + 1)%Z]) s
  = S k
  <-> (x <= s)%Z /\ (s < default (x + 1)%Z (a !! S k))%Z.
Proof.
  intros Hs Hl Hk.
  pose proof (lookup_lt_Some _ _ _ Hk) as Hlt.
  pose proof (last_lookup _ _ Hl) as Hfinal.
  rewrite searchsorted_right_spec.
  rewrite take_app_le by lia.
  assert (Hprefix : Forall (fun e => (e <=? s)%Z = true) (take (S k) a)
                    <-> (x <= s)%Z).
  { split.
    - intros H. apply Z.leb_le.
      apply (Forall_lookup_1 _ _ k x H). rewrite lookup_take_lt by lia. exact Hk.
    - intros Hx. apply Forall_lookup_2. intros i e Hi.
      apply lookup_take_Some in Hi as [Hi Hik].
      apply Z.leb_le.
      pose proof (nondecreasing_lookup a i k e x Hs ltac:(lia) Hi Hk). lia. }
  assert (Hupper : (forall y, (a ++ [(final + 1 + 0)%Z; (final + 1 + 1)%Z]) !! S k
                              = Some y -> (y <=? s)%Z = false)
                   <-> (s < default (x + 1)%Z (a !! S k))%Z).
  { destruct (a !! S k) as [y|] eqn:Hy.
    - rewrite lookup_app_l by (apply lookup_lt_Some in Hy; exact Hy).
      rewrite Hy. simpl. split.
      + intros H. specialize (H y eq_refl). apply Z.leb_gt in H. exact H.
      + intros H z [= <-]. apply Z.leb_gt. exact H.
    - apply lookup_ge_None in Hy.
      assert (Hkl : S k = length a) by lia.
      assert (x = final).
      { rewrite <- Hkl in Hfinal. simpl in Hfinal. rewrite Nat.sub_0_r in Hfinal.
        congruence. }
      subst x. rewrite lookup_app_r by lia. rewrite Hkl, Nat.sub_diag. simpl.
      split.
      + intros H. specialize (H _ eq_refl). apply Z.leb_gt in H. lia.
      + intros H z [= <-]. apply Z.leb_gt. lia. }
  rewrite Hprefix, Hupper, length_app. simpl. split; [tauto|].
  intros H. split; [lia | exact H].
Qed.

(** X9: for a non-decreasing alignment whose indices float64 holds
    exactly, the raster that [NeuronSpikeRaster.make] returns is true at
    position [k] exactly when some spike index lies from the alignment index
    at [k] up to, and not including, the next alignment index (for the last
    position: equals the last alignment index). *)
Theorem raster_marks_bins (ephys_alignment spikes : list Z)
    (raster : list bool) (k : nat) (x : Z) :
  Forall exact_index ephys_alignment ->
  np.nondecreasing Z.leb ephys_alignment = true ->
  NeuronSpikeRaster.make ephys_alignment spikes = Ok raster ->
  ephys_alignment !! k = Some x ->
  raster !! k = Some true
  <-> exists s, s ∈ spikes /\ (x <= s)%Z
                /\ (s < default (x + 1)%Z (ephys_alignment !! S k))%Z.
Proof.
  intros Hexact Hs Hmake Hk.
  pose proof (lookup_lt_Some _ _ _ Hk) as Hlt.
  destruct (last_of_nonempty ephys_alignment) as [final Hl].
  { intros ->. discriminate. }
  revert Hmake.
  unfold NeuronSpikeRaster.make.
  rewrite (spike_bin_edges_exact _ _ Hexact Hl). cbn [bind].
  unfold np.digitize, np.monotonicity.
  rewrite nondecreasing_half_shift, (nondecreasing_app_tail _ _ Hs Hl).
  cbn [bind]. intros [= <-].
  rewrite set_true_lookup.
  2:{ unfold np.within. apply Forall_forall. intros b Hb.
      apply list_elem_of_In, filter_In in Hb as [_ Hb].
      apply andb_true_iff in Hb as [Hb _]. apply Z.leb_le. exact Hb. }
  unfold np.zeros_bool. rewrite repeat_length.
  split.
  - intros [H|[_ H]].
    { apply list_elem_of_lookup_2, list_elem_of_In, repeat_spec in H.
      discriminate. }
    unfold np.within in H. apply list_elem_of_In, filter_In in H as [H _].
    apply in_map_iff in H as (d & Hd & H).
    apply in_map_iff in H as (q & <- & H).
    apply in_map_iff in H as (s & <- & H).
    rewrite searchsorted_half_shift in Hd.
    exists s. split; [apply list_elem_of_In; exact H|].
    apply (spike_bin_spec ephys_alignment final s k x Hs Hl Hk). lia.
  - intros (s & Hin & Hbounds). right. split; [exact Hlt|].
    apply (spike_bin_spec ephys_alignment final s k x Hs Hl Hk) in Hbounds.
    unfold np.within. apply list_elem_of_In, filter_In. split.
    + apply in_map_iff. eexists. split.
      2:{ apply in_map_iff. eexists. split; [reflexivity|].
          apply in_map_iff. exists s. split; [reflexivity|].
          apply list_elem_of_In. exact Hin. }
      rewrite searchsorted_half_shift, Hbounds. lia.
    + apply andb_true_iff. split; [apply Z.leb_le | apply Z.ltb_lt]; lia.
Qed.

(** The theorem at the alignment 10, 12, 15 with spikes 11 and 15: the
    first position is marked, by the spike 11, the second is not. *)
Lemma raster_marks_bins_witness :
  (exists s, s ∈ [11; 15]%Z /\ (10 <= s)%Z
             /\ (s < default (10 + 1)%Z ([10; 12; 15]%Z !! 1%nat))%Z)
  /\ ~ (exists s, s ∈ [11; 15]%Z /\ (12 <= s)%Z
                  /\ (s < default (12 + 1)%Z ([10; 12; 15]%Z !! 2%nat))%Z).
Proof.
  assert (Hexact : Forall exact_index [10; 12; 15]%Z)
    by (repeat constructor; unfold exact_index; lia).
  split.
  - apply (raster_marks_bins [10; 12; 15]%Z [11; 15]%Z [true; false; true]
             0 10 Hexact); reflexivity.
  - intros H.
    apply (raster_marks_bins [10; 12; 15]%Z [11; 15]%Z [true; false; true]
             1 12 Hexact) in H; [discriminate H | reflexivity..].
Defined.

(** ** The variables that [mean_center] and [normalize] leave alone *)

(** An in-place update under a name other than [var] leaves the array of
    [var] as it was, whether the update raised or not. *)
Lemma inplace_frame (op : xfloat -> xfloat -> xfloat)
    (item : string * list xfloat) (s : self) (var : string) :
  NoDup (map snd (xr.data_vars (data_set s))) ->
  item.1 <> var ->
  data_set (inplace op item s).2 = data_set s
  /\ _raw_data_set (inplace op item s).2 = _raw_data_set s
  /\ variable (inplace op item s).2 var = variable s var.
Proof.
  intros Hnd Hne. unfold inplace.
  destruct (dict.get item.1 (xr.data_vars (data_set s))) as [b|] eqn:Hget;
    [|repeat split].
  destruct (as_floats (store s !!! b)) as [fm|e]; [|repeat split].
  simpl. split; [reflexivity|]. split; [reflexivity|].
  unfold variable. simpl.
  destruct (dict.get var (xr.data_vars (data_set s))) as [b'|] eqn:Hvar;
    [|reflexivity].
  rewrite list_lookup_total_insert_ne; [reflexivity|].
  intros ->. apply Hne. exact (buffers_distinct _ _ _ _ Hnd Hget Hvar).
Qed.

Lemma for_each_inplace_frame (op : xfloat -> xfloat -> xfloat)
    (items : list (string * list xfloat)) (s : self) (var : string) :
  NoDup (map snd (xr.data_vars (data_set s))) ->
  var ∉ map fst items ->
  data_set (for_each (inplace op) items s).2 = data_set s
  /\ _raw_data_set (for_each (inplace op) items s).2 = _raw_data_set s
  /\ variable (for_each (inplace op) items s).2 var = variable s var.
Proof.
  revert s. induction items as [|item items IH]; intros s Hnd Hvar; simpl.
  - repeat split.
  - destruct (inplace_frame op item s var Hnd) as (Hds & Hraw & Hv).
    { intros H. apply Hvar. rewrite <- H. left. }
    destruct (inplace op item s) as [[[]|e] s1]; simpl in *.
    + destruct (IH s1) as (Hds' & Hraw' & Hv').
      { rewrite Hds. exact Hnd. }
      { intros H. apply Hvar. right. exact H. }
      split; [congruence|]. split; congruence.
    + split; [exact Hds|]. split; [exact Hraw | exact Hv].
Qed.

Lemma traverse_names {A : Type} (f : string -> result (string * A))
    (names : list string) (items : list (string * A)) :
  (forall name item, f name = Ok item -> item.1 = name) ->
  traverse f names = Ok items -> map fst items = names.
Proof.
  intros Hf. revert items.
  induction names as [|name names IH]; intros items; simpl.
  - intros [= <-]. reflexivity.
  - destruct (f name) as [item|] eqn:Hitem; simpl; [|discriminate].
    destruct (traverse f names) as [rest|]; simpl; [|discriminate].
    intros [= <-]. simpl. rewrite (Hf _ _ Hitem), (IH rest eq_refl). reflexivity.
Qed.

Lemma selected_vars_subset (only_vars data_vars selected : list string)
    (var : string) :
  selected_vars (Some only_vars) data_vars = Ok selected ->
  var ∈ selected -> var ∈ only_vars.
Proof.
  unfold selected_vars.
  destruct (existsb truthy _); [discriminate|]. intros [= <-] Hin.
  apply list_elem_of_In, filter_In in Hin as [_ Hin].
  apply bool_decide_eq_true in Hin. exact Hin.
Qed.

Lemma with_reference_names (reference_var : option string)
    (data_vars : list string) (stats items : list (string * list xfloat)) :
  map fst stats = data_vars ->
  with_reference reference_var data_vars stats = Ok items ->
  map fst items = data_vars.
Proof.
  intros Hstats. unfold with_reference.
  destruct reference_var as [r|]; [|intros [= <-]; exact Hstats].
  destruct (bool_decide _); [|discriminate].
  destruct (dict.get r stats); [|discriminate].
  intros [= <-]. rewrite <- list_fmap_compose. apply list_fmap_id.
Qed.

(** X10: [mean_center] and [normalize] called with [only_vars] leave the
    coordinates and every variable that [only_vars] does not list as they
    were, whatever the reference variable and whether the call raises or
    not. *)
Theorem only_vars_frame (s : self) (only_vars : list string)
    (reference_var : option string) (soft_factor : Q) (var : string) :
  NoDup (map snd (xr.data_vars (data_set s))) ->
  var ∉ only_vars ->
  (data_set (mean_center (Some only_vars) reference_var s).2 = data_set s
   /\ variable (mean_center (Some only_vars) reference_var s).2 var
      = variable s var)
  /\ (data_set (normalize (Some only_vars) reference_var soft_factor s).2
      = data_set s
      /\ variable (normalize (Some only_vars) reference_var soft_factor s).2 var
         = variable s var).
Proof.
  intros Hnd Hvar. split.
  - unfold mean_center.
    destruct (selected_vars _ _) as [sel|e] eqn:Hsel; simpl bind; [|split; reflexivity].
    match goal with |- context [traverse ?f sel] =>
      destruct (traverse f sel) as [stats|e] eqn:Hstats; simpl bind;
        [apply traverse_names in Hstats|split; reflexivity] end.
    2:{ intros name item.
        destruct (variable s name); simpl; [|discriminate].
        destruct (as_floats a); simpl; [|discriminate].
        intros [= <-]. reflexivity. }
    destruct (with_reference _ _ _) as [items|e] eqn:Hitems; [|split; reflexivity].
    apply (with_reference_names _ _ _ _ Hstats) in Hitems.
    destruct (for_each_inplace_frame float64.sub items s var Hnd) as (H1 & _ & H2).
    { rewrite Hitems. intros H. apply Hvar.
      exact (selected_vars_subset _ _ _ _ Hsel H). }
    split; assumption.
  - unfold normalize.
    destruct (selected_vars _ _) as [sel|e] eqn:Hsel; simpl bind; [|split; reflexivity].
    match goal with |- context [traverse ?f sel] =>
      destruct (traverse f sel) as [stats|e] eqn:Hstats; simpl bind;
        [apply traverse_names in Hstats|split; reflexivity] end.
    2:{ intros name item.
        destruct (variable s name); simpl; [|discriminate].
        destruct (as_floats a); simpl; [|discriminate].
        destruct (traverse float64.ptp a0); simpl; [|discriminate].
        intros [= <-]. reflexivity. }
    destruct (with_reference _ _ _) as [items|e] eqn:Hitems; [|split; reflexivity].
    apply (with_reference_names _ _ _ _ Hstats) in Hitems.
    match goal with |- context [for_each _ ?l s] =>
      destruct (for_each_inplace_frame float64.div l s var Hnd) as (H1 & _ & H2) end.
    { rewrite <- list_fmap_compose.
      replace (map (fst ∘ _) items) with (map fst items) by reflexivity.
      rewrite Hitems. intros H. apply Hvar.
      exact (selected_vars_subset _ _ _ _ Hsel H). }
    split; assumption.
Qed.

Lemma only_vars_frame_witness :
  (data_set (mean_center (Some ["rate"%string]) None two_variables).2
   = data_set two_variables
   /\ variable (mean_center (Some ["rate"%string]) None two_variables).2 "force"
      = variable two_variables "force")
  /\ (data_set (normalize (Some ["rate"%string]) None 0 two_variables).2
      = data_set two_variables
      /\ variable (normalize (Some ["rate"%string]) None 0 two_variables).2 "force"
         = variable two_variables "force").
Proof.
  apply (only_vars_frame two_variables ["rate"%string] None 0 "force").
  - apply (bool_decide_unpack _). vm_compute. reflexivity.
  - apply (bool_decide_unpack _). vm_compute. reflexivity.
Defined.

(** ** [reorder_conditions] with ids that no label carries *)

Lemma block_of_unknown (index : list label) (cid : Z) :
  known index cid = false -> block index cid = [].
Proof.
  unfold known, block. induction index as [|ct index IH]; [reflexivity|].
  simpl. destruct (ct.1 =? cid)%Z; [discriminate|]. exact IH.
Qed.

Lemma blocks_of_known (index : list label) (ids : list Z) :
  flat_map (block index) (List.filter (known index) ids)
  = flat_map (block index) ids.
Proof.
  induction ids as [|cid ids IH]; [reflexivity|]. simpl.
  destruct (known index cid) eqn:E; simpl.
  - rewrite IH. reflexivity.
  - rewrite (block_of_unknown _ _ E), IH. reflexivity.
Qed.

(** X11: with condition ids, in the index and in the list, that float64
    holds exactly, [reorder_conditions] ignores the listed ids that no
    label of the data set carries: as long as one listed id is known, the
    call does what it does on the list without the unknown ids, and raises
    nothing for them. *)
Theorem reorder_conditions_ignores_unknown (s : self) (ids : list Z) :
  exact_ids (xr.condition_time (data_set s)) ->
  Forall exact_id ids ->
  List.filter (known (xr.condition_time (data_set s))) ids <> [] ->
  reorder_conditions ids s
  = reorder_conditions (List.filter (known (xr.condition_time (data_set s))) ids) s.
Proof.
  intros _ _ Hk.
  assert (Hids : ids <> []) by (intros ->; apply Hk; reflexivity).
  assert (Hindex : xr.condition_time (data_set s) <> []).
  { intros E. apply Hk. rewrite E. clear. induction ids; [reflexivity | exact IHids]. }
  rewrite (reorder_conditions_reindexes s ids Hindex Hids).
  rewrite (reorder_conditions_reindexes s _ Hindex Hk).
  rewrite blocks_of_known. reflexivity.
Qed.

Lemma reorder_conditions_ignores_unknown_witness :
  reorder_conditions [9%Z; 2%Z; 5%Z; 1%Z] example_state
  = reorder_conditions
      (List.filter (known (xr.condition_time (data_set example_state)))
         [9%Z; 2%Z; 5%Z; 1%Z]) example_state.
Proof.
  apply (reorder_conditions_ignores_unknown example_state [9%Z; 2%Z; 5%Z; 1%Z]).
  - repeat constructor; unfold exact_id; simpl; lia.
  - repeat constructor; unfold exact_id; lia.
  - discriminate.
Defined.

(** X12: when the index is not empty and holds no label twice, the
    condition ids in the index and in the list are ids that float64 holds
    exactly, and none of the listed ids is known, [reorder_conditions]
    raises nothing and leaves a data set with no condition-time label,
    every row of every variable empty; from then on every
    [reorder_conditions] raises [ValueError]. *)
Theorem reorder_conditions_unknown_only (s : self) (ids : list Z) :
  exact_ids (xr.condition_time (data_set s)) ->
  Forall exact_id ids ->
  ids <> [] ->
  xr.condition_time (data_set s) <> [] ->
  xr.is_unique (xr.condition_time (data_set s)) = true ->
  Forall (fun cid => known (xr.condition_time (data_set s)) cid = false) ids ->
  exists s',
    reorder_conditions ids s = (Ok tt, s')
    /\ xr.condition_time (data_set s') = []
    /\ (forall var m,
          variable s var = Ok m -> variable s' var = Ok (map (fun _ => []) m))
    /\ forall ids', reorder_conditions ids' s' = (Raise ValueError, s').
Proof.
  intros _ _ Hids Hindex Hu Hall.
  assert (Hempty : flat_map (block (xr.condition_time (data_set s))) ids = []).
  { clear Hids. induction Hall as [|cid ids Hc _ IH]; [reflexivity|]. simpl.
    rewrite (block_of_unknown _ _ Hc). exact IH. }
  rewrite (reorder_conditions_reindexes s ids Hindex Hids), Hempty.
  destruct (xr.reindex (store s) (data_set s) []) as [[st' ds']|e] eqn:Hre.
  2:{ unfold xr.reindex in Hre. rewrite Hu in Hre. discriminate. }
  assert (Hct : xr.condition_time ds' = []).
  { unfold xr.reindex in Hre. rewrite Hu in Hre. injection Hre as _ <-.
    reflexivity. }
  eexists. split; [reflexivity|]. simpl data_set. split; [exact Hct|]. split.
  - intros var m Hm.
    erewrite variable_after_reindex; [|exact Hre|reflexivity|reflexivity|exact Hm].
    reflexivity.
  - intros ids'. unfold reorder_conditions. simpl data_set. rewrite Hct.
    reflexivity.
Qed.

Lemma reorder_conditions_unknown_only_witness :
  exists s',
    reorder_conditions [9%Z; 5%Z] example_state = (Ok tt, s')
    /\ xr.condition_time (data_set s') = []
    /\ (forall var m,
          variable example_state var = Ok m
          -> variable s' var = Ok (map (fun _ => []) m))
    /\ forall ids', reorder_conditions ids' s' = (Raise ValueError, s').
Proof.
  apply (reorder_conditions_unknown_only example_state [9%Z; 5%Z]).
  - repeat constructor; unfold exact_id; simpl; lia.
  - repeat constructor; unfold exact_id; lia.
  - discriminate.
  - discriminate.
  - reflexivity.
  - repeat constructor.
Defined.

(** ** [reorder_conditions] called twice *)

Lemma known_block (index : list label) (cid : Z) :
  known index cid = true -> block index cid <> [].
Proof.
  unfold known, block. intros H. apply existsb_exists in H as (ct & Hin & Hct).
  intros E. assert (Hb : In ct (List.filter (fun ct => (ct.1 =? cid)%Z) index)).
  { apply filter_In. split; assumption. }
  rewrite E in Hb. destruct Hb.
Qed.

Lemma is_unique_repeated (p q r : list label) (x : label) :
  xr.is_unique (p ++ x :: q ++ x :: r) = false.
Proof.
  induction p as [|a p IH]; simpl.
  - apply andb_false_iff. left. apply negb_false_iff.
    apply existsb_exists. exists x. split; [|apply label_eqb_refl].
    apply in_or_app. right. left. reflexivity.
  - rewrite IH. apply andb_false_r.
Qed.

(** X13: a condition id listed twice is not refused: on an index that
    holds no label twice, [reorder_conditions] with a known id listed
    twice raises nothing and leaves an index that holds the labels of that
    condition twice; from then on every [reorder_conditions] raises
    [ValueError] and changes nothing. *)
Theorem reorder_conditions_repeated_id (s : self) (cid : Z)
    (ids1 ids2 ids3 : list Z) :
  xr.is_unique (xr.condition_time (data_set s)) = true ->
  known (xr.condition_time (data_set s)) cid = true ->
  exists s',
    reorder_conditions (ids1 ++ cid :: ids2 ++ cid :: ids3) s = (Ok tt, s')
    /\ xr.is_unique (xr.condition_time (data_set s')) = false
    /\ forall ids', reorder_conditions ids' s' = (Raise ValueError, s').
Proof.
  intros Hu Hk.
  pose proof (known_block _ _ Hk) as Hb.
  assert (Hindex : xr.condition_time (data_set s) <> []).
  { intros E. rewrite E in Hk. discriminate. }
  rewrite (reorder_conditions_reindexes s _ Hindex)
    by (destruct ids1; discriminate).
  set (index := xr.condition_time (data_set s)) in *.
  destruct (xr.reindex _ _ _) as [[st' ds']|e] eqn:Hre.
  2:{ unfold xr.reindex in Hre. fold index in Hre. rewrite Hu in Hre.
      discriminate. }
  assert (Hct : xr.condition_time ds'
                = flat_map (block index) (ids1 ++ cid :: ids2 ++ cid :: ids3)).
  { unfold xr.reindex in Hre. fold index in Hre. rewrite Hu in Hre.
    injection Hre as _ <-. reflexivity. }
  assert (Hdup : xr.is_unique (xr.condition_time ds') = false).
  { rewrite Hct, flat_map_app. simpl. rewrite flat_map_app. simpl.
    destruct (block index cid) as [|x b]; [congruence|]. simpl.
    rewrite (app_assoc b (flat_map _ ids2)). apply is_unique_repeated. }
  eexists. split; [reflexivity|]. simpl data_set. split; [exact Hdup|].
  intros ids'. unfold reorder_conditions. simpl data_set.
  destruct (xr.condition_time ds') as [|l ct] eqn:E; [reflexivity|].
  destruct ids' as [|i ids']; [reflexivity|].
  unfold xr.reindex. simpl xr.condition_time. rewrite E, Hdup. reflexivity.
Qed.

Lemma reorder_conditions_repeated_id_witness :
  exists s',
    reorder_conditions ([] ++ 1%Z :: [2%Z] ++ 1%Z :: []) example_state = (Ok tt, s')
    /\ xr.is_unique (xr.condition_time (data_set s')) = false
    /\ forall ids', reorder_conditions ids' s' = (Raise ValueError, s').
Proof.
  apply (reorder_conditions_repeated_id example_state 1 [] [2%Z] []); reflexivity.
Defined.

Lemma block_block (index : list label) (c cid : Z) :
  block (block index c) cid = if (c =? cid)%Z then block index cid else [].
Proof.
  unfold block. induction index as [|ct index IH]; simpl.
  - destruct (c =? cid)%Z; reflexivity.
  - destruct (Z.eqb_spec ct.1 c) as [E1|E1]; simpl.
    + destruct (Z.eqb_spec c cid) as [E2|E2].
      * replace (ct.1 =? cid)%Z with true by (symmetry; apply Z.eqb_eq; lia).
        rewrite IH. reflexivity.
      * replace (ct.1 =? cid)%Z with false by (symmetry; apply Z.eqb_neq; lia).
        exact IH.
    + rewrite IH. destruct (Z.eqb_spec c cid) as [E2|E2]; [|reflexivity].
      replace (ct.1 =? cid)%Z with false by (symmetry; apply Z.eqb_neq; lia).
      reflexivity.
Qed.

Lemma block_app (l1 l2 : list label) (cid : Z) :
  block (l1 ++ l2) cid = block l1 cid ++ block l2 cid.
Proof. apply List.filter_app. Qed.

Lemma block_of_blocks (index : list label) (ids : list Z) (cid : Z) :
  NoDup ids ->
  block (flat_map (block index) ids) cid
  = if bool_decide (cid ∈ ids) then block index cid else [].
Proof.
  induction 1 as [|c ids Hc _ IH]; [reflexivity|].
  simpl. rewrite block_app, block_block, IH.
  destruct (Z.eqb_spec c cid) as [->|Hne].
  - rewrite (bool_decide_eq_false_2 _ Hc).
    rewrite bool_decide_eq_true_2 by left. apply app_nil_r.
  - simpl. destruct (decide (cid ∈ ids)) as [Hin|Hin].
    + rewrite !bool_decide_eq_true_2; [reflexivity | right; exact Hin | exact Hin].
    + rewrite !bool_decide_eq_false_2; [reflexivity | | exact Hin].
      intros H. inversion H; subst; congruence.
Qed.

Lemma blocks_of_blocks (index : list label) (ids1 ids2 : list Z) :
  NoDup ids1 -> Forall (fun cid => cid ∈ ids1) ids2 ->
  flat_map (block (flat_map (block index) ids1)) ids2
  = flat_map (block index) ids2.
Proof.
  intros Hnd. induction 1 as [|cid ids2 Hc _ IH]; [reflexivity|].
  simpl. rewrite IH, (block_of_blocks _ _ _ Hnd), bool_decide_eq_true_2 by exact Hc.
  reflexivity.
Qed.

Lemma is_unique_filter (p : label -> bool) (index : list label) :
  xr.is_unique index = true -> xr.is_unique (List.filter p index) = true.
Proof.
  induction index as [|a index IH]; [reflexivity|]. simpl.
  intros H. apply andb_true_iff in H as [Ha Hu].
  destruct (p a); [|exact (IH Hu)].
  simpl. rewrite (IH Hu), andb_true_r. apply negb_true_iff.
  apply negb_true_iff in Ha.
  destruct (existsb (xr.label_eqb a) (List.filter p index)) eqn:E; [|reflexivity].
  apply existsb_exists in E as (b & Hb & Hab). apply filter_In in Hb as [Hb _].
  rewrite <- Ha. symmetry. apply existsb_exists. exists b. split; assumption.
Qed.

Lemma is_unique_blocks (index : list label) (ids : list Z) :
  xr.is_unique index = true -> NoDup ids ->
  xr.is_unique (flat_map (block index) ids) = true.
Proof.
  intros Hu. induction 1 as [|c ids Hc _ IH]; [reflexivity|].
  simpl. apply is_unique_app; [apply is_unique_filter; exact Hu | exact IH|].
  intros a b Ha Hb.
  apply list_elem_of_In, filter_In in Ha as [_ Ha]. apply Z.eqb_eq in Ha.
  apply elem_of_blocks in Hb as [_ Hb].
  unfold xr.label_eqb. apply andb_false_iff. left. apply Z.eqb_neq.
  intros E. apply Hc. rewrite <- Ha, E. exact Hb.
Qed.

Lemma reindex_row_compose (index target1 target2 : list label)
    (row : list cell) :
  xr.is_unique target1 = true ->
  (forall l, l ∈ target2 -> l ∈ target1) ->
  xr.reindex_row target1 target2 (xr.reindex_row index target1 row)
  = xr.reindex_row index target2 row.
Proof.
  intros Hu Hsub. unfold xr.reindex_row at 1 3. apply map_ext_in.
  intros l Hl. apply list_elem_of_In, Hsub, list_elem_of_lookup in Hl as [k Hk].
  rewrite (get_loc_unique target1 k l Hu Hk).
  unfold xr.reindex_row. rewrite list_lookup_fmap, Hk. reflexivity.
Qed.

Lemma get_of_renumbered_none (vars : list (string * nat)) (var : string)
    (n : nat) :
  dict.get var vars = None ->
  dict.get var (imap (fun j (v : string * nat) => (v.1, n + j)) vars) = None.
Proof.
  revert n. induction vars as [|[name loc] vars IH]; intros n; simpl;
    [reflexivity|].
  destruct (decide (var = name)); [discriminate|].
  intros H. rewrite <- (IH (S n) H). f_equal.
  apply imap_ext. intros j v _. simpl. f_equal. lia.
Qed.

(** The array of a variable after a reindexing, and the [KeyError] of a
    name that the data set lacks. *)
Lemma variable_after_reindex_any (s s' : self) (target : list label)
    (st' : list matrix) (ds' : xr.Dataset) (var : string) :
  xr.reindex (store s) (data_set s) target = Ok (st', ds') ->
  store s' = st' -> data_set s' = ds' ->
  variable s' var
  = let* m := variable s var in
    Ok (map (xr.reindex_row (xr.condition_time (data_set s)) target) m).
Proof.
  intros Hre Hst Hds.
  destruct (variable s var) as [m|e] eqn:Hm; simpl.
  - exact (variable_after_reindex s s' target st' ds' var m Hre Hst Hds Hm).
  - revert Hre Hm. unfold xr.reindex, variable.
    destruct (xr.is_unique _); [|discriminate].
    intros [= <- <-]. rewrite Hds. simpl xr.data_vars.
    destruct (dict.get var (xr.data_vars (data_set s))) eqn:Hget; [discriminate|].
    intros [= <-]. rewrite (get_of_renumbered_none _ _ _ Hget). reflexivity.
Qed.

(** X14: on an index that holds no label twice, with condition ids that
    float64 holds exactly, after
    [reorder_conditions] with distinct known ids, a second
    [reorder_conditions] with ids among them leaves what the second call
    alone would have left of the original data set: the same labels, the
    same members and, for every name, the same array (or the same
    [KeyError]). *)
Theorem reorder_conditions_twice (s : self) (ids1 ids2 : list Z) :
  exact_ids (xr.condition_time (data_set s)) ->
  ids2 <> [] ->
  NoDup ids1 ->
  xr.is_unique (xr.condition_time (data_set s)) = true ->
  Forall (fun cid => known (xr.condition_time (data_set s)) cid = true) ids1 ->
  Forall (fun cid => cid ∈ ids1) ids2 ->
  exists s1 s2 sd,
    reorder_conditions ids1 s = (Ok tt, s1)
    /\ reorder_conditions ids2 s1 = (Ok tt, s2)
    /\ reorder_conditions ids2 s = (Ok tt, sd)
    /\ xr.condition_time (data_set s2) = xr.condition_time (data_set sd)
    /\ xr.population (data_set s2) = xr.population (data_set sd)
    /\ forall var, variable s2 var = variable sd var.
Proof.
  intros _ Hne Hnd Hu Hknown Hsub.
  set (index := xr.condition_time (data_set s)) in *.
  set (target1 := flat_map (block index) ids1).
  set (target2 := flat_map (block index) ids2).
  assert (Hex : exists c, c ∈ ids2).
  { destruct ids2 as [|c r]; [congruence|]. exists c. left. }
  destruct Hex as [c Hc2].
  assert (Hc : c ∈ ids1) by exact (proj1 (Forall_forall _ _) Hsub c Hc2).
  assert (Hcb : block index c <> []).
  { apply known_block. exact (proj1 (Forall_forall _ _) Hknown c Hc). }
  assert (Hindex : index <> []).
  { intros E. apply Hcb. rewrite E. reflexivity. }
  assert (Hids1 : ids1 <> []).
  { intros E. rewrite E in Hc. inversion Hc. }
  assert (Htarget1 : target1 <> []).
  { destruct (block index c) as [|l b] eqn:Eb; [congruence|].
    assert (Hl : l ∈ target1).
    { apply elem_of_blocks. split; [|].
      - assert (Hin : In l (block index c)) by (rewrite Eb; left; reflexivity).
        apply filter_In in Hin as [Hin _]. apply list_elem_of_In. exact Hin.
      - assert (Hin : In l (block index c)) by (rewrite Eb; left; reflexivity).
        apply filter_In in Hin as [_ Hin]. apply Z.eqb_eq in Hin.
        rewrite Hin. exact Hc. }
    intros E. rewrite E in Hl. inversion Hl. }
  (* the first call *)
  destruct (xr.reindex (store s) (data_set s) target1) as [[st1 ds1]|e] eqn:Hre1.
  2:{ unfold xr.reindex in Hre1. fold index in Hre1. rewrite Hu in Hre1.
      discriminate. }
  assert (Hct1 : xr.condition_time ds1 = target1).
  { unfold xr.reindex in Hre1. fold index in Hre1. rewrite Hu in Hre1.
    injection Hre1 as _ <-. reflexivity. }
  assert (Hpop1 : xr.population ds1 = xr.population (data_set s)).
  { unfold xr.reindex in Hre1. fold index in Hre1. rewrite Hu in Hre1.
    injection Hre1 as _ <-. reflexivity. }
  set (s1 := {| store := st1; _raw_data_set := _raw_data_set s; data_set := ds1 |}).
  assert (Hrun1 : reorder_conditions ids1 s = (Ok tt, s1)).
  { rewrite (reorder_conditions_reindexes s ids1 Hindex Hids1).
    fold index. fold target1. rewrite Hre1. reflexivity. }
  (* the second call *)
  assert (Hu1 : xr.is_unique target1 = true) by (apply is_unique_blocks; assumption).
  assert (Ht2 : flat_map (block target1) ids2 = target2).
  { apply blocks_of_blocks; assumption. }
  destruct (xr.reindex (store s1) (data_set s1) target2) as [[st2 ds2]|e] eqn:Hre2.
  2:{ unfold xr.reindex in Hre2. simpl data_set in Hre2. rewrite Hct1, Hu1 in Hre2.
      discriminate. }
  assert (Hct2 : xr.condition_time ds2 = target2
                 /\ xr.population ds2 = xr.population ds1).
  { unfold xr.reindex in Hre2. simpl data_set in Hre2. rewrite Hct1, Hu1 in Hre2.
    injection Hre2 as _ <-. split; reflexivity. }
  set (s2 := {| store := st2; _raw_data_set := _raw_data_set s1; data_set := ds2 |}).
  assert (Hrun2 : reorder_conditions ids2 s1 = (Ok tt, s2)).
  { rewrite (reorder_conditions_reindexes s1 ids2).
    - change (xr.condition_time (data_set s1)) with (xr.condition_time ds1).
      rewrite Hct1, Ht2, Hre2. reflexivity.
    - change (xr.condition_time (data_set s1)) with (xr.condition_time ds1).
      rewrite Hct1. exact Htarget1.
    - exact Hne. }
  (* the second call alone *)
  destruct (xr.reindex (store s) (data_set s) target2) as [[std dsd]|e] eqn:Hred.
  2:{ unfold xr.reindex in Hred. fold index in Hred. rewrite Hu in Hred.
      discriminate. }
  assert (Hctd : xr.condition_time dsd = target2
                 /\ xr.population dsd = xr.population (data_set s)).
  { unfold xr.reindex in Hred. fold index in Hred. rewrite Hu in Hred.
    injection Hred as _ <-. split; reflexivity. }
  set (sd := {| store := std; _raw_data_set := _raw_data_set s; data_set := dsd |}).
  assert (Hrund : reorder_conditions ids2 s = (Ok tt, sd)).
  { rewrite (reorder_conditions_reindexes s ids2 Hindex Hne).
    fold index. fold target2. rewrite Hred. reflexivity. }
  exists s1, s2, sd. split; [exact Hrun1|]. split; [exact Hrun2|].
  split; [exact Hrund|]. simpl data_set.
  split; [destruct Hct2, Hctd; congruence|].
  split; [destruct Hct2, Hctd; congruence|].
  intros var.
  rewrite (variable_after_reindex_any s1 s2 target2 st2 ds2 var Hre2 eq_refl eq_refl).
  rewrite (variable_after_reindex_any s s1 target1 st1 ds1 var Hre1 eq_refl eq_refl).
  rewrite (variable_after_reindex_any s sd target2 std dsd var Hred eq_refl eq_refl).
  fold index. simpl data_set. rewrite Hct1.
  destruct (variable s var) as [m|e]; [|reflexivity]. simpl. f_equal.
  rewrite <- list_fmap_compose. apply list_fmap_ext. intros i row _. simpl.
  apply reindex_row_compose; [exact Hu1|].
  intros l Hl. apply elem_of_blocks in Hl as [Hl1 Hl2]. apply elem_of_blocks.
  split; [exact Hl1|]. exact (proj1 (Forall_forall _ _) Hsub _ Hl2).
Qed.

Lemma reorder_conditions_twice_witness :
  exists s1 s2 sd,
    reorder_conditions [2%Z; 1%Z] example_state = (Ok tt, s1)
    /\ reorder_conditions [1%Z] s1 = (Ok tt, s2)
    /\ reorder_conditions [1%Z] example_state = (Ok tt, sd)
    /\ xr.condition_time (data_set s2) = xr.condition_time (data_set sd)
    /\ xr.population (data_set s2) = xr.population (data_set sd)
    /\ forall var, variable s2 var = variable sd var.
Proof.
  apply (reorder_conditions_twice example_state [2%Z; 1%Z] [1%Z]).
  - repeat constructor; unfold exact_id; simpl; lia.
  - discriminate.
  - apply (bool_decide_unpack _). vm_compute. reflexivity.
  - reflexivity.
  - repeat constructor.
  - apply (bool_decide_unpack _). vm_compute. reflexivity.
Defined.

(** ** [NeuronPsth.make] on rates of different lengths *)

Lemma sum_after_raise (e : exn) (rest : list (list Q)) :
  foldl (fun acc x => let* s := acc in np.add s x) (Raise e) rest = Raise e.
Proof. induction rest as [|x rest IH]; [reflexivity | exact IH]. Qed.

Lemma add_mismatch (a b : list Q) :
  length a <> 1 -> length b <> 1 -> length a <> length b ->
  np.add a b = Raise ValueError.
Proof.
  intros Ha Hb Hab. unfold np.add.
  destruct (Nat.eqb_spec (length a) (length b)) as [E|_]; [congruence|].
  destruct a as [|x [|x' a]]; destruct b as [|y [|y' b]]; simpl in *;
    congruence.
Qed.

Lemma sum_of_ragged_rows (rest : list (list Q)) (s : list Q) (n : nat) :
  length s = n -> n <> 1 ->
  Forall (fun x => length x <> 1) rest ->
  Exists (fun x => length x <> n) rest ->
  foldl (fun acc x => let* s := acc in np.add s x) (Ok s) rest
  = Raise ValueError.
Proof.
  intros Hs Hn Hall Hex. revert s Hs.
  induction Hall as [|x rest Hx Hall IH]; intros s Hs; [inversion Hex|].
  simpl. destruct (decide (length x = n)) as [E|E].
  - unfold np.add. rewrite Hs, E, Nat.eqb_refl.
    apply IH.
    + inversion Hex; subst; [congruence | assumption].
    + rewrite length_zip_with. lia.
  - rewrite add_mismatch by congruence. apply sum_after_raise.
Qed.

(** X15: when no fetched rate has length 1 and some rate differs in length
    from the first, [NeuronPsth.make] raises [ValueError] (the rates cannot
    be added) and yields no average. *)
Theorem psth_of_ragged_rates_raises (rate : list Q) (rates : list (list Q)) :
  Forall (fun x => length x <> 1) (rate :: rates) ->
  Exists (fun x => length x <> length rate) rates ->
  NeuronPsth.make (rate :: rates) = Raise ValueError.
Proof.
  intros Hall Hex. inversion Hall as [|? ? Hr Hrest]; subst.
  unfold NeuronPsth.make, np.mean_axis0.
  rewrite (sum_of_ragged_rows rates rate (length rate) eq_refl Hr Hrest Hex).
  reflexivity.
Qed.

Lemma psth_of_ragged_rates_raises_witness :
  NeuronPsth.make ([1; 2] :: [[3; 4]; [5; 6; 7]; [8; 9]])%Q = Raise ValueError.
Proof.
  apply (psth_of_ragged_rates_raises [1; 2]%Q [[3; 4]; [5; 6; 7]; [8; 9]]%Q).
  - repeat constructor; simpl; lia.
  - apply Exists_cons_tl, Exists_cons_hd. simpl. lia.
Defined.

(** ** Soft normalization *)

(** What [normalize] with no restriction and no reference leaves of a row
    of a float data set: each cell divided by the soft factor plus the
    range of the row. *)
Lemma normalize_row (s : self) (var : string) (m : matrix) (i : nat)
    (frow : list xfloat) (soft_factor : Q) :
  float_data s ->
  variable s var = Ok m ->
  m !! i = Some (map Num frow) ->
  exists s' m' r,
    normalize None None soft_factor s = (Ok tt, s')
    /\ float64.ptp frow = Ok r
    /\ variable s' var = Ok m'
    /\ m' !! i
       = Some (map Num
                 (map (fun x => float64.div x (float64.add (Fin soft_factor) r))
                    frow)).
Proof.
  intros (Hnames & Hbufs & Hdata) Hvar Hrow.
  set (vars := xr.data_vars (data_set s)) in *.
  unfold variable in Hvar. fold vars in Hvar.
  destruct (dict.get var vars) as [b|] eqn:Hget; [|discriminate].
  injection Hvar as <-.
  assert (Hfloats : floats_in_store vars (store s)).
  { eapply Forall_impl; [exact Hdata|].
    intros v (Hv & fm & Hfm & _). split; [exact Hv | eauto]. }
  set (g := fun var0 : string =>
              let* m0 := variable s var0 in
              let* m1 := as_floats m0 in
              let* r := traverse float64.ptp m1 in
              Ok (var0, r)).
  assert (Hg : Forall (fun name => exists item, g name = Ok item)
                 (dict.keys vars)).
  { apply Forall_forall. intros name Hname.
    destruct (get_of_key vars name Hname) as (b' & Hb').
    pose proof (proj1 (Forall_forall _ _) Hdata _ (get_elem_of _ _ _ Hb'))
      as (_ & fm & Hfm & Hrows).
    simpl in Hfm.
    destruct (traverse_ok float64.ptp fm) as (rs & Hrs & _).
    { eapply Forall_impl; [exact Hrows|]. intros [|x r] Hr; [congruence|].
      eexists. reflexivity. }
    exists (name, rs). unfold g, variable. fold vars.
    rewrite Hb'. simpl. rewrite Hfm. simpl. rewrite Hrs. reflexivity. }
  destruct (traverse_ok g (dict.keys vars) Hg) as (ranges & Hranges & HF).
  assert (Hkeys : map fst ranges = dict.keys vars).
  { apply (traverse_names g); [|exact Hranges]. intros name item. unfold g.
    destruct (variable s name); simpl; [|discriminate].
    destruct (as_floats a); simpl; [|discriminate].
    destruct (traverse float64.ptp a0); simpl; [|discriminate].
    intros [= <-]. reflexivity. }
  pose proof (proj1 (Forall_forall _ _) Hdata _ (get_elem_of _ _ _ Hget))
    as (_ & fm & Hfm & _). simpl in Hfm.
  assert (Hvar_in : var ∈ dict.keys vars).
  { unfold dict.keys. apply list_elem_of_fmap. exists (var, b).
    split; [reflexivity | apply get_elem_of; exact Hget]. }
  apply list_elem_of_lookup in Hvar_in as (j & Hj).
  destruct (traverse_lookup g _ _ j var Hranges Hj) as (item & Hitem & Hgv).
  assert (Hrs : exists rs, item = (var, rs) /\ traverse float64.ptp fm = Ok rs).
  { revert Hgv. unfold g, variable. fold vars. rewrite Hget. simpl.
    rewrite Hfm. simpl.
    destruct (traverse float64.ptp fm) as [rs|]; simpl; [|discriminate].
    intros [= <-]. eauto. }
  destruct Hrs as (rs & -> & Hrs).
  destruct (traverse_lookup (traverse as_float) _ _ i _ Hfm Hrow)
    as (frow' & Hfrow & Hconv).
  rewrite as_float_row in Hconv. injection Hconv as <-.
  destruct (traverse_lookup float64.ptp _ _ i _ Hrs Hfrow) as (r & Hr & Hptp).
  set (items := map (fun item : string * list xfloat =>
                       (item.1, map (float64.add (Fin soft_factor)) item.2))
                  ranges).
  destruct (for_each_inplace_tracked float64.div items s var
              (map (float64.add (Fin soft_factor)) rs) b fm)
    as (s' & Hrun & Hds & Hb); try assumption.
  { unfold items. rewrite <- list_fmap_compose.
    replace (map (fst ∘ _) ranges) with (map fst ranges); [|reflexivity].
    rewrite Hkeys. exact Hnames. }
  { unfold items. apply Forall_forall. intros it Hit.
    apply list_elem_of_fmap in Hit as (it0 & -> & Hit0). simpl.
    apply get_of_key. fold vars. unfold dict.keys in Hkeys. rewrite <- Hkeys.
    apply list_elem_of_fmap. exists it0. split; [reflexivity | exact Hit0]. }
  { unfold items. apply list_elem_of_fmap. exists (var, rs).
    split; [reflexivity|]. eapply list_elem_of_lookup_2. exact Hitem. }
  exists s', (store s' !!! b), r.
  split.
  { unfold normalize. fold vars. unfold selected_vars, with_reference.
    simpl bind. fold g. rewrite Hranges. simpl bind. exact Hrun. }
  split; [exact Hptp|].
  split.
  { unfold variable. rewrite Hds. fold vars. rewrite Hget. reflexivity. }
  rewrite Hb. unfold of_floats, matrix. rewrite lookup_map.
  erewrite (proj2 (lookup_zip_with_Some _ _ _ _ _)); [reflexivity|].
  exists frow, (float64.add (Fin soft_factor) r). split; [reflexivity|].
  split; [exact Hfrow|]. rewrite lookup_map, Hr. reflexivity.
Qed.

Lemma max_of_finite (qs : list Q) (x : Q) :
  foldl float64.max (Fin x) (map Fin qs) = Fin (foldl np.qmax x qs).
Proof.
  revert x. induction qs as [|y qs IH]; intros x; [reflexivity|].
  simpl. unfold np.qmax at 2. destruct (Qle_bool x y); apply IH.
Qed.

Lemma min_of_finite (qs : list Q) (x : Q) :
  foldl float64.min (Fin x) (map Fin qs) = Fin (foldl np.qmin x qs).
Proof.
  revert x. induction qs as [|y qs IH]; intros x; [reflexivity|].
  simpl. unfold np.qmin at 2. destruct (Qle_bool x y); apply IH.
Qed.

Lemma qmax_above (qs : list Q) (x : Q) : (x <= foldl np.qmax x qs)%Q.
Proof.
  revert x. induction qs as [|y qs IH]; intros x; simpl; [apply Qle_refl|].
  unfold np.qmax at 2. destruct (Qle_bool x y) eqn:E.
  - apply Qle_bool_iff in E. eapply Qle_trans; [exact E | apply IH].
  - apply IH.
Qed.

Lemma qmin_below (qs : list Q) (x : Q) : (foldl np.qmin x qs <= x)%Q.
Proof.
  revert x. induction qs as [|y qs IH]; intros x; simpl; [apply Qle_refl|].
  unfold np.qmin at 2. destruct (Qle_bool x y) eqn:E.
  - apply IH.
  - eapply Qle_trans; [apply IH|].
    destruct (Qlt_le_dec y x) as [H|H]; [apply Qlt_le_weak; exact H|].
    apply Qle_bool_iff in H. congruence.
Qed.

Lemma ptp_of_finite (qs : list Q) :
  float64.ptp (map Fin qs) = let* r := np.ptp qs in Ok (Fin r).
Proof.
  destruct qs as [|x qs]; [reflexivity|]. simpl.
  rewrite max_of_finite, min_of_finite. reflexivity.
Qed.

Lemma ptp_nonnegative (qs : list Q) (r : Q) : np.ptp qs = Ok r -> (0 <= r)%Q.
Proof.
  destruct qs as [|x qs]; [discriminate|]. intros [= <-].
  pose proof (qmax_above qs x). pose proof (qmin_below qs x). lra.
Qed.

(** X16: on a data set of float arrays with non-empty rows, [normalize]
    with a positive soft factor and no restriction raises nothing, and a
    row of finite values is left holding finite values: each value divided
    by the soft factor plus the range of the row, which is not zero. *)
Theorem soft_normalize_finite (s : self) (var : string) (m : matrix)
    (i : nat) (qs : list Q) (soft_factor : Q) :
  float_data s ->
  variable s var = Ok m ->
  m !! i = Some (map Num (map Fin qs)) ->
  (0 < soft_factor)%Q ->
  exists s' m' r,
    normalize None None soft_factor s = (Ok tt, s')
    /\ np.ptp qs = Ok r
    /\ (0 < soft_factor + r)%Q
    /\ variable s' var = Ok m'
    /\ m' !! i = Some (map Num (map (fun q => Fin (q / (soft_factor + r))) qs)).
Proof.
  intros Hdata Hvar Hrow Hsoft.
  destruct (normalize_row s var m i (map Fin qs) soft_factor Hdata Hvar Hrow)
    as (s' & m' & r & Hrun & Hptp & Hvar' & Hrow').
  rewrite ptp_of_finite in Hptp.
  destruct (np.ptp qs) as [q|] eqn:Hq; [|discriminate]. injection Hptp as <-.
  pose proof (ptp_nonnegative qs q Hq) as H0.
  exists s', m', q. split; [exact Hrun|]. split; [reflexivity|].
  split; [lra|]. split; [exact Hvar'|].
  rewrite Hrow'. do 2 f_equal. rewrite <- list_fmap_compose.
  apply list_fmap_ext. intros j x _. simpl.
  destruct (Qeq_bool (soft_factor + q) 0) eqn:E; [|reflexivity].
  apply Qeq_bool_iff in E. lra.
Qed.

Lemma soft_normalize_finite_witness :
  exists s' m' r,
    normalize None None 5 example_state = (Ok tt, s')
    /\ np.ptp [7; 7; 7; 7; 7]%Q = Ok r
    /\ (0 < 5 + r)%Q
    /\ variable s' "rate" = Ok m'
    /\ m' !! 1%nat
       = Some (map Num (map (fun q => Fin (q / (5 + r))) [7; 7; 7; 7; 7]%Q)).
Proof.
  apply (soft_normalize_finite example_state "rate" example_array 1
           [7; 7; 7; 7; 7]%Q 5%Q).
  - split; [|split].
    + apply NoDup_cons. split; [apply not_elem_of_nil | apply NoDup_nil_2].
    + apply NoDup_cons. split; [apply not_elem_of_nil | apply NoDup_nil_2].
    + repeat constructor. simpl. eexists. split; [reflexivity|].
      repeat constructor; discriminate.
  - reflexivity.
  - reflexivity.
  - reflexivity.
Defined.

(** ** Centering by a reference variable *)

Lemma get_of_elem {V : Type} (d : list (string * V)) (k : string) (v : V) :
  NoDup (map fst d) -> (k, v) ∈ d -> dict.get k d = Some v.
Proof.
  induction d as [|[k' v'] d IH]; simpl; intros Hnd Hin; [inversion Hin|].
  apply NoDup_cons in Hnd as [Hk Hnd].
  destruct (decide (k = k')) as [->|Hne].
  - inversion Hin; subst; [reflexivity|].
    exfalso. apply Hk. apply list_elem_of_fmap. exists (k', v). split; [reflexivity | assumption].
  - apply IH; [exact Hnd|]. inversion Hin; subst; [congruence | assumption].
Qed.

(** X17: on a data set of float arrays, [mean_center] with a reference
    variable and no restriction raises nothing and subtracts from every row
    of every variable the mean of the same member's row of the reference
    variable, as it was before the call. *)
Theorem mean_center_by_reference (s : self) (reference_var var : string)
    (mref m : matrix) (fref fm : list (list xfloat)) :
  float_data s ->
  variable s reference_var = Ok mref -> as_floats mref = Ok fref ->
  variable s var = Ok m -> as_floats m = Ok fm ->
  exists s',
    mean_center None (Some reference_var) s = (Ok tt, s')
    /\ variable s' var
       = Ok (of_floats
               (zip_with (fun row mu => map (fun c => float64.sub c mu) row)
                  fm (map float64.mean fref))).
Proof.
  intros (Hnames & Hbufs & Hdata) Href Hfref Hvar Hfm.
  set (vars := xr.data_vars (data_set s)) in *.
  unfold variable in Href, Hvar. fold vars in Href, Hvar.
  destruct (dict.get reference_var vars) as [bref|] eqn:Hgetref; [|discriminate].
  destruct (dict.get var vars) as [b|] eqn:Hget; [|discriminate].
  injection Href as <-. injection Hvar as <-.
  assert (Hfloats : floats_in_store vars (store s)).
  { eapply Forall_impl; [exact Hdata|].
    intros v (Hv & fv & Hfv & _). split; [exact Hv | eauto]. }
  set (g := fun var0 : string =>
              let* m0 := variable s var0 in
              let* m1 := as_floats m0 in
              Ok (var0, map float64.mean m1)).
  assert (Hg : Forall (fun name => exists item, g name = Ok item)
                 (dict.keys vars)).
  { apply Forall_forall. intros name Hname.
    destruct (get_of_key vars name Hname) as (b' & Hb').
    pose proof (proj1 (Forall_forall _ _) Hdata _ (get_elem_of _ _ _ Hb'))
      as (_ & fv & Hfv & _).
    simpl in Hfv. eexists. unfold g, variable. fold vars.
    rewrite Hb'. simpl. rewrite Hfv. reflexivity. }
  destruct (traverse_ok g (dict.keys vars) Hg) as (means & Hmeans & _).
  assert (Hkeys : map fst means = dict.keys vars).
  { apply (traverse_names g); [|exact Hmeans]. intros name item. unfold g.
    destruct (variable s name); simpl; [|discriminate].
    destruct (as_floats a); simpl; [|discriminate].
    intros [= <-]. reflexivity. }
  assert (Hin : forall name b', dict.get name vars = Some b' -> name ∈ dict.keys vars).
  { intros name b' Hb'. unfold dict.keys. apply list_elem_of_fmap.
    exists (name, b'). split; [reflexivity | apply get_elem_of; exact Hb']. }
  pose proof (Hin _ _ Hgetref) as Hrefin.
  pose proof (Hin _ _ Hget) as Hvarin.
  assert (Hrefmean : dict.get reference_var means = Some (map float64.mean fref)).
  { apply get_of_elem; [rewrite Hkeys; exact Hnames|].
    apply list_elem_of_lookup in Hrefin as (j & Hj).
    destruct (traverse_lookup g _ _ j _ Hmeans Hj) as (item & Hitem & Hgv).
    revert Hgv. unfold g, variable. fold vars. rewrite Hgetref. simpl.
    rewrite Hfref. simpl. intros [= <-].
    eapply list_elem_of_lookup_2. exact Hitem. }
  set (x := map float64.mean fref) in *.
  set (items := map (fun var0 : string => (var0, x)) (dict.keys vars)).
  destruct (for_each_inplace_tracked float64.sub items s var x b fm)
    as (s' & Hrun & Hds & Hb); try assumption.
  { unfold items. rewrite <- list_fmap_compose.
    replace (map (fst ∘ _) (dict.keys vars)) with (map id (dict.keys vars))
      by reflexivity.
    rewrite list_fmap_id. exact Hnames. }
  { unfold items. apply Forall_forall. intros it Hit.
    apply list_elem_of_fmap in Hit as (name & -> & Hname). simpl.
    apply get_of_key. exact Hname. }
  { unfold items. apply list_elem_of_fmap. exists var.
    split; [reflexivity | exact Hvarin]. }
  exists s'. split.
  - unfold mean_center. fold vars. unfold selected_vars. simpl bind. fold g.
    rewrite Hmeans. simpl bind. unfold with_reference.
    rewrite (bool_decide_eq_true_2 _ Hrefin), Hrefmean. exact Hrun.
  - unfold variable. rewrite Hds. fold vars. rewrite Hget, Hb. reflexivity.
Qed.

Lemma mean_center_by_reference_witness :
  exists s',
    mean_center None (Some "force"%string) two_variables = (Ok tt, s')
    /\ variable s' "rate"
       = Ok (of_floats
               (zip_with (fun row mu => map (fun c => float64.sub c mu) row)
                  [[Fin 5; Fin 6; Fin 1; Fin 2; Fin 4];
                   [Fin 7; Fin 7; Fin 7; Fin 7; Fin 7]]
                  (map float64.mean
                     [[Fin 1; Fin 3; Fin 1; Fin 3; Fin 1];
                      [Fin 2; Fin 2; Fin 2; Fin 2; Fin 2]]))).
Proof.
  apply (mean_center_by_reference two_variables "force" "rate"
           (of_floats [[Fin 1; Fin 3; Fin 1; Fin 3; Fin 1];
                       [Fin 2; Fin 2; Fin 2; Fin 2; Fin 2]])
           example_array).
  - split; [|split].
    + apply (bool_decide_unpack _). vm_compute. reflexivity.
    + apply (bool_decide_unpack _). vm_compute. reflexivity.
    + repeat constructor; simpl; eexists; (split; [reflexivity|]);
        repeat constructor; discriminate.
  - reflexivity.
  - reflexivity.
  - reflexivity.
  - reflexivity.
Defined.

(** ** The arrays that [_get_data_set] assembles *)

Section Dict.
Context {K V : Type} `{EqDecision K}.

Lemma update_fresh (k : K) (v : V) (d : list (K * V)) :
  k ∉ dict.keys d -> dict.update k v d = d ++ [(k, v)].
Proof.
  induction d as [|[k' v'] d IH]; simpl; intros Hk; [reflexivity|].
  destruct (decide (k = k')) as [->|Hne].
  - exfalso. apply Hk. left.
  - rewrite IH; [reflexivity|]. intros H. apply Hk. right. exact H.
Qed.

Lemma update_all_fresh (v : V) (ks : list K) (d : list (K * V)) :
  NoDup (dict.keys d ++ ks) ->
  foldl (fun d k => dict.update k v d) d ks = d ++ map (fun k => (k, v)) ks.
Proof.
  revert d. induction ks as [|k ks IH]; intros d Hnd; simpl.
  - rewrite app_nil_r. reflexivity.
  - apply NoDup_app in Hnd as (Hd & Hcross & Hks).
    apply NoDup_cons in Hks as (Hk & Hks).
    rewrite update_fresh.
    2:{ intros H. apply (Hcross k H). left. }
    rewrite IH, <- app_assoc; [reflexivity|].
    unfold dict.keys. rewrite fmap_app. simpl. rewrite <- app_assoc. simpl.
    apply NoDup_app. split; [exact Hd|]. split.
    + intros x Hx Hin. apply (Hcross x Hx). exact Hin.
    + apply NoDup_cons. split; assumption.
Qed.

(** Updating a key that the dictionary holds changes its value in place. *)
Lemma update_present (k : K) (v : V) (d : list (K * V)) :
  NoDup (dict.keys d) -> k ∈ dict.keys d ->
  dict.update k v d
  = map (fun kv : K * V => (kv.1, if decide (kv.1 = k) then v else kv.2)) d.
Proof.
  induction d as [|[k' v'] d IH]; simpl; intros Hnd Hk; [inversion Hk|].
  apply NoDup_cons in Hnd as (Hk' & Hnd).
  destruct (decide (k = k')) as [->|Hne].
  - destruct (decide (k' = k')); [|congruence]. f_equal.
    clear IH Hk. induction d as [|[k2 v2] d IH]; [reflexivity|].
    simpl. destruct (decide (k2 = k')) as [->|_].
    + exfalso. apply Hk'. left.
    + rewrite <- IH; [reflexivity| |].
      * intros H. apply Hk'. right. exact H.
      * apply NoDup_cons in Hnd as (_ & Hnd). exact Hnd.
  - destruct (decide (k' = k)); [congruence|]. f_equal.
    apply IH; [exact Hnd|]. inversion Hk; subst; [congruence | assumption].
Qed.
End Dict.

Lemma records_fill (name : string) (records : list data_attribute)
    (ks : list (Z * Z)) (d : list ((Z * Z) * option (list xfloat))) :
  NoDup ks ->
  Forall (fun r => data_key r ∈ ks
                   /\ exists x, dict.get name (attributes r) = Some x) records ->
  dict.keys d = ks ->
  foldl (fun acc (item : (Z * Z) * data_attribute) =>
           let* d := acc in
           let* x := attribute item.2 name in
           Ok (dict.update item.1 (Some x) d))
    (Ok d) (zip (_get_data_keys records) records)
  = Ok (map (fun kv : (Z * Z) * option (list xfloat) =>
               (kv.1, match recorded name records kv.1 with
                      | Some x => Some x
                      | None => kv.2
                      end)) d).
Proof.
  intros Hnd Hall. revert d.
  induction Hall as [|r rest (Hkey & x & Hx) _ IH]; intros d Hd; simpl.
  - f_equal. symmetry. etransitivity; [|apply list_fmap_id].
    apply list_fmap_ext. intros i [k v] _. reflexivity.
  - unfold attribute at 2. rewrite Hx. simpl.
    fold (data_key r).
    assert (Hkeys : dict.keys (dict.update (data_key r) (Some x) d) = ks).
    { rewrite update_keys, bool_decide_eq_true_2; rewrite Hd; [reflexivity | exact Hkey]. }
    rewrite (IH _ Hkeys).
    rewrite update_present by (rewrite Hd; assumption).
    f_equal. rewrite <- list_fmap_compose. apply list_fmap_ext.
    intros i [k v] _. simpl.
    destruct (recorded name rest k) as [y|]; [reflexivity|].
    destruct (decide (k = data_key r)) as [->|Hne].
    + destruct (decide (data_key r = data_key r)); [reflexivity | congruence].
    + destruct (decide (data_key r = k)); [congruence | reflexivity].
Qed.

(** With a record for every key, the dictionary ends with the recorded
    arrays, whatever it held before. *)
Lemma array_data_of_records (name : string) (records : list data_attribute)
    (ks : list (Z * Z)) (d : list ((Z * Z) * option (list xfloat))) :
  NoDup ks ->
  Forall (fun r => data_key r ∈ ks
                   /\ exists x, dict.get name (attributes r) = Some x) records ->
  (forall k, k ∈ ks -> exists x, recorded name records k = Some x) ->
  dict.keys d = ks ->
  foldl (fun acc (item : (Z * Z) * data_attribute) =>
           let* d := acc in
           let* x := attribute item.2 name in
           Ok (dict.update item.1 (Some x) d))
    (Ok d) (zip (_get_data_keys records) records)
  = Ok (map (fun k => (k, Some (default [] (recorded name records k)))) ks).
Proof.
  intros Hnd Hall Hrec Hd.
  rewrite (records_fill name records ks d Hnd Hall Hd). f_equal.
  rewrite <- Hd. unfold dict.keys. rewrite <- list_fmap_compose.
  apply list_fmap_ext. intros i [k v] Hi. simpl.
  destruct (Hrec k) as (x & Hx).
  { rewrite <- Hd. unfold dict.keys. apply list_elem_of_fmap.
    exists (k, v). split; [reflexivity|]. eapply list_elem_of_lookup_2. exact Hi. }
  rewrite Hx. reflexivity.
Qed.

Lemma member_conditions_NoDup (population_keys : list Z)
    (condition_attributes : list condition) :
  NoDup population_keys -> NoDup (map fst condition_attributes) ->
  NoDup (member_conditions population_keys condition_attributes).
Proof.
  intros Hp Hc. unfold member_conditions.
  induction Hp as [|p pop Hp _ IH]; simpl; [apply NoDup_nil_2|].
  apply NoDup_app. split; [|split; [|exact IH]].
  - replace (map (fun c : condition => (p, c.1)) condition_attributes)
      with (map (pair p) (map fst condition_attributes))
      by (rewrite <- list_fmap_compose; reflexivity).
    apply NoDup_fmap_2; [|exact Hc]. intros a b [= ->]. reflexivity.
  - intros k Hk Hin. apply list_elem_of_fmap in Hk as (c & -> & _).
    apply list_elem_of_In, in_flat_map in Hin as (p' & Hp' & Hin).
    apply in_map_iff in Hin as (c' & [= <- _] & _).
    apply Hp. apply list_elem_of_In. exact Hp'.
Qed.

Lemma elem_of_member_conditions (population_keys : list Z)
    (condition_attributes : list condition) (p cid : Z) :
  (p, cid) ∈ member_conditions population_keys condition_attributes
  <-> p ∈ population_keys /\ cid ∈ map fst condition_attributes.
Proof.
  unfold member_conditions. rewrite list_elem_of_In, in_flat_map. split.
  - intros (p' & Hp' & Hin). apply in_map_iff in Hin as (c & [= <- <-] & Hc).
    split; [apply list_elem_of_In; exact Hp'|].
    apply list_elem_of_fmap. exists c. split; [reflexivity|].
    apply list_elem_of_In. exact Hc.
  - intros [Hp Hc]. apply list_elem_of_fmap in Hc as (c & -> & Hc).
    exists p. split; [apply list_elem_of_In; exact Hp|].
    apply in_map_iff. exists c. split; [reflexivity|].
    apply list_elem_of_In. exact Hc.
Qed.

(** The dictionary that [_get_data_set] starts from. *)
Lemma initial_array_data (population_keys : list Z)
    (condition_attributes : list condition) :
  NoDup population_keys -> NoDup (map fst condition_attributes) ->
  foldl (fun (d : list ((Z * Z) * option (list xfloat))) k =>
           dict.update k None d) []
    (flat_map (fun p => map (fun c : condition => (p, c.1)) condition_attributes)
       population_keys)
  = map (fun k => (k, None))
      (member_conditions population_keys condition_attributes).
Proof.
  intros Hp Hc.
  exact (update_all_fresh None _ []
           (member_conditions_NoDup _ _ Hp Hc)).
Qed.

Lemma recorded_elem (name : string) (records : list data_attribute)
    (k : Z * Z) (x : list xfloat) :
  recorded name records k = Some x ->
  exists r, r ∈ records /\ data_key r = k
            /\ dict.get name (attributes r) = Some x.
Proof.
  induction records as [|r rest IH]; simpl; [discriminate|].
  destruct (recorded name rest k) as [y|].
  - intros [= ->]. destruct (IH eq_refl) as (r' & Hin & H).
    exists r'. split; [right; exact Hin | exact H].
  - destruct (decide (data_key r = k)); [|discriminate].
    intros Hx. exists r. split; [left | split; assumption].
Qed.

Lemma recorded_complete (name : string) (records : list data_attribute)
    (k : Z * Z) (r : data_attribute) :
  r ∈ records -> data_key r = k ->
  (exists x, dict.get name (attributes r) = Some x) ->
  exists x, recorded name records k = Some x.
Proof.
  intros Hin Hk (x & Hx). induction records as [|r' rest IH]; [inversion Hin|].
  simpl. destruct (recorded name rest k) as [y|] eqn:E; [eauto|].
  apply elem_of_cons in Hin as [<-|Hin].
  - destruct (decide (data_key r = k)); [eauto | congruence].
  - destruct (IH Hin) as (y & Hy). discriminate.
Qed.

Lemma member_conditions_length (population_keys : list Z)
    (condition_attributes : list condition) :
  length (member_conditions population_keys condition_attributes)
  = length population_keys * length condition_attributes.
Proof.
  unfold member_conditions.
  induction population_keys as [|p pop IH]; [reflexivity|].
  simpl. rewrite length_app, length_map, IH. reflexivity.
Qed.

Lemma np_array_homogeneous (vals : list (list xfloat)) (T : nat) :
  vals <> [] -> Forall (fun x => length x = T) vals ->
  np_array (map Some vals) = Float2 vals.
Proof.
  intros Hne Hall. destruct vals as [|a vals]; [congruence|].
  unfold np_array. cbn [map].
  assert (Ha : length a = T) by (inversion Hall; assumption).
  replace (forallb _ (Some a :: map Some vals)) with true.
  - f_equal. simpl. f_equal. clear.
    induction vals as [|b vals IH]; [reflexivity|]. simpl. rewrite IH.
    reflexivity.
  - symmetry. apply forallb_forall. intros o Ho.
    change (Some a :: map Some vals) with (map Some (a :: vals)) in Ho.
    apply in_map_iff in Ho as (b & <- & Hb). apply Nat.eqb_eq.
    rewrite (proj1 (Forall_forall _ _) Hall b), Ha; [reflexivity|].
    apply list_elem_of_In. exact Hb.
Qed.

Lemma concat_length_constant {A : Type} (rows : list (list A)) (T : nat) :
  Forall (fun x => length x = T) rows -> length (concat rows) = length rows * T.
Proof.
  induction 1 as [|x rows Hx _ IH]; [reflexivity|].
  simpl. rewrite length_app, IH, Hx. reflexivity.
Qed.

Lemma attributes_after_raise (population_keys : list Z)
    (condition_attributes : list condition) (data_keys : list (Z * Z))
    (data_attributes : list data_attribute) (names : list string) (e : exn) :
  foldl (fun acc attr_name =>
           let* st := acc in
           let* r := data_array population_keys condition_attributes
                       data_keys data_attributes attr_name st.1 in
           Ok (r.1, dict.update attr_name r.2 st.2))
    (Raise e) names
  = Raise e.
Proof. induction names as [|n names IH]; [reflexivity | exact IH]. Qed.

(** With a record for every key and arrays of one length other than 1,
    the array of the attribute cannot be formed. *)
Lemma data_array_equal_lengths (population_keys : list Z)
    (condition_attributes : list condition) (name : string)
    (data_attributes : list data_attribute) (T : nat)
    (d : list ((Z * Z) * option (list xfloat))) :
  NoDup population_keys -> NoDup (map fst condition_attributes) ->
  population_keys <> [] -> condition_attributes <> [] ->
  Forall (fun r => member r ∈ population_keys
                   /\ condition_id r ∈ map fst condition_attributes
                   /\ exists x, dict.get name (attributes r) = Some x
                                /\ length x = T) data_attributes ->
  (forall p cid, p ∈ population_keys -> cid ∈ map fst condition_attributes ->
                 exists r, r ∈ data_attributes /\ data_key r = (p, cid)) ->
  T <> 1 ->
  dict.keys d = member_conditions population_keys condition_attributes ->
  data_array population_keys condition_attributes
    (_get_data_keys data_attributes) data_attributes name d
  = Raise ValueError.
Proof.
  intros Hp Hc Hpne Hcne Hall Hcomplete HT Hd.
  set (ks := member_conditions population_keys condition_attributes) in *.
  assert (Hks : NoDup ks) by (apply member_conditions_NoDup; assumption).
  assert (Hrecs : Forall (fun r => data_key r ∈ ks
                            /\ exists x, dict.get name (attributes r) = Some x)
                    data_attributes).
  { eapply Forall_impl; [exact Hall|]. intros r (H1 & H2 & x & Hx & _).
    split; [|eauto]. apply elem_of_member_conditions. split; assumption. }
  assert (Hval : forall k, k ∈ ks ->
             exists x, recorded name data_attributes k = Some x /\ length x = T).
  { intros [p cid] Hk. apply elem_of_member_conditions in Hk as [H1 H2].
    destruct (Hcomplete p cid H1 H2) as (r & Hr & Hkey).
    pose proof (proj1 (Forall_forall _ _) Hall r Hr) as (_ & _ & x & Hx & _).
    destruct (recorded_complete name data_attributes (p, cid) r Hr Hkey)
      as (y & Hy); [eauto|].
    exists y. split; [exact Hy|].
    destruct (recorded_elem _ _ _ _ Hy) as (r' & Hr' & _ & Hy').
    pose proof (proj1 (Forall_forall _ _) Hall r' Hr') as (_ & _ & z & Hz & Hlen).
    congruence. }
  unfold data_array.
  rewrite (array_data_of_records name data_attributes ks d Hks Hrecs).
  2:{ intros k Hk. destruct (Hval k Hk) as (x & Hx & _). eauto. }
  2:{ exact Hd. }
  simpl bind. unfold dict.values. rewrite <- list_fmap_compose.
  set (vals := map (fun k => default [] (recorded name data_attributes k)) ks).
  replace (map (snd ∘ _) ks) with (map Some vals)
    by (unfold vals; rewrite <- list_fmap_compose; reflexivity).
  assert (Hlen : length vals
                 = length population_keys * length condition_attributes).
  { unfold vals. rewrite length_map. apply member_conditions_length. }
  assert (Hpos : 0 < length population_keys * length condition_attributes).
  { destruct population_keys; [congruence|].
    destruct condition_attributes; [congruence|]. simpl. lia. }
  assert (HvT : Forall (fun x => length x = T) vals).
  { unfold vals. apply Forall_fmap, Forall_forall. intros k Hk. simpl.
    destruct (Hval k Hk) as (x & -> & Hx). exact Hx. }
  rewrite (np_array_homogeneous vals T);
    [|intros E; rewrite E in Hlen; simpl in Hlen; lia|exact HvT].
  unfold reshape, entries. rewrite length_map.
  rewrite (concat_length_constant vals T HvT), Hlen.
  destruct (Nat.eqb_spec (length population_keys * length condition_attributes * T)
              (length population_keys * length condition_attributes)) as [E|_].
  { exfalso. nia. }
  reflexivity.
Qed.

(** X18: when the members and the condition ids are distinct, every member
    has a record for every condition and the arrays of the first attribute
    all have one length that is not 1 (conditions of equal duration),
    construction raises [ValueError]: [np.array] makes a 2-D array of the
    arrays, which cannot be reshaped to members by conditions. *)
Theorem equal_lengths_break_assembly (population_keys : list Z)
    (condition_attributes : list condition) (name : string)
    (names : list string) (data_attributes : list data_attribute) (T : nat) :
  NoDup population_keys -> NoDup (map fst condition_attributes) ->
  population_keys <> [] -> condition_attributes <> [] ->
  Forall (fun r => member r ∈ population_keys
                   /\ condition_id r ∈ map fst condition_attributes
                   /\ exists x, dict.get name (attributes r) = Some x
                                /\ length x = T) data_attributes ->
  (forall p cid, p ∈ population_keys -> cid ∈ map fst condition_attributes ->
                 exists r, r ∈ data_attributes /\ data_key r = (p, cid)) ->
  T <> 1 ->
  _get_population_state population_keys condition_attributes (name :: names)
    data_attributes = Raise ValueError.
Proof.
  intros Hp Hc Hpne Hcne Hall Hcomplete HT.
  assert (Hindex : exists index,
             _get_condition_time_multi_index condition_attributes = Ok index).
  { destruct condition_attributes; [congruence|]. eexists. reflexivity. }
  destruct Hindex as (index & Hindex).
  unfold _get_population_state. rewrite Hindex. simpl bind.
  unfold _get_data_set.
  pose proof (initial_array_data _ _ Hp Hc) as Hinit.
  unfold condition in Hinit. rewrite Hinit. clear Hinit.
  cbn [foldl]. simpl bind.
  rewrite (data_array_equal_lengths population_keys condition_attributes name
             data_attributes T _ Hp Hc Hpne Hcne Hall Hcomplete HT).
  2:{ unfold dict.keys. rewrite <- list_fmap_compose. apply list_fmap_id. }
  simpl bind. rewrite attributes_after_raise. reflexivity.
Qed.

Lemma equal_lengths_break_assembly_witness :
  _get_population_state [1%Z; 2%Z] equal_conditions ["rate"%string] equal_records
  = Raise ValueError.
Proof.
  apply (equal_lengths_break_assembly [1%Z; 2%Z] equal_conditions "rate" []
           equal_records 2).
  - apply (bool_decide_unpack _). vm_compute. reflexivity.
  - apply (bool_decide_unpack _). vm_compute. reflexivity.
  - discriminate.
  - discriminate.
  - repeat constructor;
      try (apply (bool_decide_unpack _); vm_compute; reflexivity);
      eexists; split; reflexivity.
  - intros p cid Hp Hc. simpl in Hc.
    repeat (apply elem_of_cons in Hp as [->|Hp]);
      [| |inversion Hp];
      (repeat (apply elem_of_cons in Hc as [->|Hc]); [| |inversion Hc]);
      solve [ eexists; split; [left | reflexivity]
            | eexists; split; [right; left | reflexivity]
            | eexists; split; [right; right; left | reflexivity]
            | eexists; split; [right; right; right; left | reflexivity] ].
  - lia.
Defined.

(** *** Conditions of different durations *)

Lemma np_array_ragged (vals : list (list xfloat)) (x y : list xfloat) :
  x ∈ vals -> y ∈ vals -> length x <> length y ->
  np_array (map Some vals) = Object1 (map Some vals).
Proof.
  intros Hx Hy Hxy. destruct vals as [|a vals]; [reflexivity|].
  unfold np_array. cbn [map].
  replace (forallb _ (Some a :: map Some vals)) with false; [reflexivity|].
  symmetry. apply not_true_is_false. intros Hall.
  assert (Hlen : forall z, z ∈ a :: vals -> length z = length a).
  { intros z Hz. apply Nat.eqb_eq.
    apply (proj1 (forallb_forall _ _) Hall (Some z)).
    change (Some a :: map Some vals) with (map Some (a :: vals)).
    apply in_map, list_elem_of_In. exact Hz. }
  rewrite (Hlen x Hx), (Hlen y Hy) in Hxy. congruence.
Qed.

Lemma entries_of_arrays (vals : list (list xfloat)) :
  entries (Object1 (map Some vals)) = map (map Num) vals.
Proof. unfold entries. rewrite <- list_fmap_compose. reflexivity. Qed.

Lemma reshape_rows {A B C : Type} (f : A -> B -> C) (ps : list A)
    (cs : list B) :
  list.reshape (replicate (length ps) (length cs))
    (flat_map (fun p => map (f p) cs) ps)
  = map (fun p => map (f p) cs) ps.
Proof.
  induction ps as [|p ps IH]; [reflexivity|]. simpl.
  rewrite take_app_length' by (symmetry; apply length_map).
  rewrite drop_app_length' by (symmetry; apply length_map).
  rewrite IH. reflexivity.
Qed.

Lemma traverse_hstack (rows : list (list (list cell))) :
  Forall (fun row => row <> []) rows ->
  traverse hstack rows = Ok (map (fun row => concat row) rows).
Proof.
  induction 1 as [|row rows Hrow _ IH]; [reflexivity|].
  simpl. rewrite IH. destruct row; [congruence | reflexivity].
Qed.

Lemma vstack_ok (rows : list (list cell)) (n : nat) :
  rows <> [] -> Forall (fun row => length row = n) rows ->
  vstack rows = Ok rows.
Proof.
  intros Hne Hall. destruct rows as [|r rows]; [congruence|].
  unfold vstack. inversion Hall as [|? ? Hr Hrest]; subst.
  replace (forallb _ rows) with true; [reflexivity|].
  symmetry. apply forallb_forall. intros r' Hr'. apply Nat.eqb_eq.
  apply (proj1 (Forall_forall _ _) Hrest). apply list_elem_of_In. exact Hr'.
Qed.

Lemma concat_length_flat_map {A B C : Type} (g : A -> list B)
    (h : A -> list C) (l : list A) :
  Forall (fun a => length (g a) = length (h a)) l ->
  length (concat (map g l)) = length (flat_map h l).
Proof.
  induction 1 as [|a l Ha _ IH]; [reflexivity|].
  simpl. rewrite !length_app, Ha, IH. reflexivity.
Qed.

(** With a record for every key, arrays as long as their conditions and
    two conditions of different durations, the array of the attribute is
    the assembled one. *)
Lemma data_array_ragged (population_keys : list Z)
    (condition_attributes : list condition) (name : string)
    (data_attributes : list data_attribute)
    (d : list ((Z * Z) * option (list xfloat))) :
  NoDup population_keys -> NoDup (map fst condition_attributes) ->
  population_keys <> [] ->
  Forall (fun r => member r ∈ population_keys
                   /\ condition_id r ∈ map fst condition_attributes
                   /\ exists x, dict.get name (attributes r) = Some x
                                /\ forall c : condition,
                                     c ∈ condition_attributes ->
                                     c.1 = condition_id r ->
                                     length x = length c.2) data_attributes ->
  (forall p cid, p ∈ population_keys -> cid ∈ map fst condition_attributes ->
                 exists r, r ∈ data_attributes /\ data_key r = (p, cid)) ->
  (exists c1 c2 : condition,
      c1 ∈ condition_attributes /\ c2 ∈ condition_attributes
      /\ length c1.2 <> length c2.2) ->
  dict.keys d = member_conditions population_keys condition_attributes ->
  exists d',
    data_array population_keys condition_attributes
      (_get_data_keys data_attributes) data_attributes name d
    = Ok (d', assembled population_keys condition_attributes name data_attributes)
    /\ dict.keys d' = member_conditions population_keys condition_attributes
    /\ conforms population_keys
         (flat_map (fun c : condition => map (pair c.1) c.2) condition_attributes)
         (assembled population_keys condition_attributes name data_attributes)
       = true.
Proof.
  intros Hp Hc Hpne Hall Hcomplete (c1 & c2 & Hc1 & Hc2 & Hragged) Hd.
  set (ks := member_conditions population_keys condition_attributes) in *.
  set (val := fun k => default [] (recorded name data_attributes k)).
  assert (Hks : NoDup ks) by (apply member_conditions_NoDup; assumption).
  assert (Hrecs : Forall (fun r => data_key r ∈ ks
                            /\ exists x, dict.get name (attributes r) = Some x)
                    data_attributes).
  { eapply Forall_impl; [exact Hall|]. intros r (H1 & H2 & x & Hx & _).
    split; [|eauto]. apply elem_of_member_conditions. split; assumption. }
  assert (Hval : forall p (c : condition),
             p ∈ population_keys -> c ∈ condition_attributes ->
             recorded name data_attributes (p, c.1) = Some (val (p, c.1))
             /\ length (val (p, c.1)) = length c.2).
  { intros p c H1 H2.
    assert (H2' : c.1 ∈ map fst condition_attributes).
    { apply list_elem_of_fmap. exists c. split; [reflexivity | exact H2]. }
    destruct (Hcomplete p c.1 H1 H2') as (r & Hr & Hkey).
    pose proof (proj1 (Forall_forall _ _) Hall r Hr) as (_ & _ & x & Hx & _).
    destruct (recorded_complete name data_attributes (p, c.1) r Hr Hkey)
      as (y & Hy); [eauto|].
    unfold val. rewrite Hy. split; [reflexivity|]. simpl.
    destruct (recorded_elem _ _ _ _ Hy) as (r' & Hr' & Hkey' & Hy').
    pose proof (proj1 (Forall_forall _ _) Hall r' Hr') as (_ & _ & z & Hz & Hlen).
    assert (z = y) by congruence. subst z.
    apply Hlen; [exact H2|]. unfold data_key in Hkey'. congruence. }
  assert (Hcne : condition_attributes <> []).
  { intros E. rewrite E in Hc1. inversion Hc1. }
  unfold data_array.
  rewrite (array_data_of_records name data_attributes ks d Hks Hrecs).
  2:{ intros [p cid] Hk. apply elem_of_member_conditions in Hk as [H1 H2].
      apply list_elem_of_fmap in H2 as (c & -> & H2).
      destruct (Hval p c H1 H2) as (Hv & _). eauto. }
  2:{ exact Hd. }
  simpl bind. unfold dict.values. rewrite <- list_fmap_compose.
  fold val.
  replace (map (snd ∘ _) ks) with (map Some (map val ks))
    by (rewrite <- list_fmap_compose; reflexivity).
  assert (Hp0 : exists p0, p0 ∈ population_keys).
  { destruct population_keys as [|p0 ?]; [congruence|]. exists p0. left. }
  destruct Hp0 as (p0 & Hp0).
  rewrite (np_array_ragged (map val ks) (val (p0, c1.1)) (val (p0, c2.1))).
  2,3: apply list_elem_of_fmap; eexists; split; [reflexivity|];
       apply elem_of_member_conditions; split; [exact Hp0|];
       apply list_elem_of_fmap; eexists; split; [reflexivity | eassumption].
  2:{ rewrite (proj2 (Hval p0 c1 Hp0 Hc1)), (proj2 (Hval p0 c2 Hp0 Hc2)).
      exact Hragged. }
  unfold reshape. rewrite entries_of_arrays, !length_map.
  unfold ks at 1. rewrite member_conditions_length, Nat.eqb_refl.
  assert (Hrows : list.reshape
                    (replicate (length population_keys)
                       (length condition_attributes))
                    (map (map Num) (map val ks))
                  = map (fun p => map (fun c : condition =>
                                         map Num (val (p, c.1)))
                                    condition_attributes) population_keys).
  { rewrite <- reshape_rows. f_equal. unfold ks, member_conditions.
    rewrite <- list_fmap_compose. clear.
    induction population_keys as [|p pop IH]; [reflexivity|].
    simpl. rewrite fmap_app, IH. f_equal.
    rewrite <- list_fmap_compose. reflexivity. }
  rewrite Hrows. simpl bind.
  rewrite traverse_hstack.
  2:{ apply Forall_fmap, Forall_forall. intros p _. simpl.
      destruct condition_attributes; [congruence | discriminate]. }
  simpl bind. rewrite <- list_fmap_compose.
  set (index := flat_map (fun c : condition => map (pair c.1) c.2)
                  condition_attributes).
  assert (Hlen : Forall (fun row : list cell => length row = length index)
                   (assembled population_keys condition_attributes name
                      data_attributes)).
  { unfold assembled. apply Forall_fmap, Forall_forall. intros p H1. simpl.
    apply (concat_length_flat_map
             (fun c : condition =>
                map Num (default [] (recorded name data_attributes (p, c.1))))
             (fun c : condition => map (pair c.1) c.2)).
    apply Forall_forall. intros c H2. rewrite !length_map.
    exact (proj2 (Hval p c H1 H2)). }
  change (map ((fun row => concat row) ∘ _) population_keys)
    with (assembled population_keys condition_attributes name data_attributes).
  rewrite (vstack_ok _ (length index)); [|..|exact Hlen].
  2:{ unfold assembled. destruct population_keys; [congruence | discriminate]. }
  simpl bind. eexists. split; [reflexivity|]. split.
  - unfold dict.keys. rewrite <- list_fmap_compose. apply list_fmap_id.
  - unfold conforms. apply andb_true_iff. split.
    + apply Nat.eqb_eq. unfold assembled. apply length_map.
    + apply forallb_forall. intros row Hrow. apply Nat.eqb_eq.
      apply (proj1 (Forall_forall _ _) Hlen). apply list_elem_of_In. exact Hrow.
Qed.

Lemma variable_of_values (s : self) (var : string) (m : matrix) :
  dict.get var (xr.values (store s) (data_set s)) = Some m ->
  variable s var = Ok m.
Proof.
  unfold variable, xr.values.
  induction (xr.data_vars (data_set s)) as [|[n b] vars IH]; simpl;
    [discriminate|].
  destruct (decide (var = n)); [intros [= <-]; reflexivity | exact IH].
Qed.

Lemma values_of_numbered (built : list (string * matrix)) :
  map (fun v : string * nat => (v.1, dict.values built !!! v.2))
    (imap (fun i (v : string * matrix) => (v.1, i)) built)
  = built.
Proof.
  apply list_eq. intros i. rewrite list_lookup_fmap, list_lookup_imap.
  destruct (built !! i) as [[n m]|] eqn:E; simpl; [|reflexivity].
  f_equal. f_equal. apply list_lookup_total_correct.
  unfold dict.values. rewrite list_lookup_fmap, E. reflexivity.
Qed.

(** The loop over the attribute names, when every array can be formed. *)
Lemma built_of_names (population_keys : list Z)
    (condition_attributes : list condition)
    (data_attributes : list data_attribute) (matrix_of : string -> matrix)
    (names : list string) :
  forall (done : list (string * matrix))
         (d : list ((Z * Z) * option (list xfloat))),
  dict.keys d = member_conditions population_keys condition_attributes ->
  NoDup (dict.keys done ++ names) ->
  (forall name d0,
      name ∈ names ->
      dict.keys d0 = member_conditions population_keys condition_attributes ->
      exists d',
        data_array population_keys condition_attributes
          (_get_data_keys data_attributes) data_attributes name d0
        = Ok (d', matrix_of name)
        /\ dict.keys d'
           = member_conditions population_keys condition_attributes) ->
  exists d',
    foldl (fun acc attr_name =>
             let* st := acc in
             let* r := data_array population_keys condition_attributes
                         (_get_data_keys data_attributes) data_attributes
                         attr_name st.1 in
             Ok (r.1, dict.update attr_name r.2 st.2))
      (Ok (d, done)) names
    = Ok (d', done ++ map (fun n => (n, matrix_of n)) names).
Proof.
  induction names as [|name names IH]; intros done d Hd Hnd Hstep; simpl.
  - exists d. rewrite app_nil_r. reflexivity.
  - destruct (Hstep name d) as (d1 & Hrun & Hd1); [left | exact Hd|].
    rewrite Hrun. simpl bind.
    apply NoDup_app in Hnd as (Hdone & Hcross & Hnames).
    apply NoDup_cons in Hnames as (Hname & Hnames).
    rewrite update_fresh by (intros H; apply (Hcross name H); left).
    destruct (IH (done ++ [(name, matrix_of name)]) d1 Hd1) as (d' & Hd').
    + unfold dict.keys. rewrite fmap_app. simpl.
      apply NoDup_app. split; [|split; [|exact Hnames]].
      * apply NoDup_app. split; [exact Hdone|]. split; [|apply NoDup_singleton].
        intros x Hx Hin. apply list_elem_of_singleton in Hin. subst x.
        apply (Hcross name Hx). left.
      * intros x Hx Hin. apply elem_of_app in Hx as [Hx|Hx].
        -- apply (Hcross x Hx). right. exact Hin.
        -- apply list_elem_of_singleton in Hx. subst x. contradiction.
    + intros n d0 Hn. apply Hstep. right. exact Hn.
    + exists d'. rewrite Hd', <- app_assoc. reflexivity.
Qed.

(** X19: when the members, the condition ids and the attribute names are
    distinct, every member has a record for every condition, every record
    holds each attribute as an array with one value per sample of its
    condition, and two conditions differ in duration, construction succeeds
    and the array of each attribute has one row per member, holding the
    member's arrays of the conditions side by side in the order of the
    conditions, under the members and the condition-time labels as
    coordinates. *)
Theorem complete_records_assemble (population_keys : list Z)
    (condition_attributes : list condition) (attribute_names : list string)
    (data_attributes : list data_attribute) :
  NoDup population_keys -> NoDup (map fst condition_attributes) ->
  NoDup attribute_names -> population_keys <> [] ->
  Forall (fun r => member r ∈ population_keys
                   /\ condition_id r ∈ map fst condition_attributes)
    data_attributes ->
  (forall name r,
      name ∈ attribute_names -> r ∈ data_attributes ->
      exists x, dict.get name (attributes r) = Some x
                /\ forall c : condition,
                     c ∈ condition_attributes -> c.1 = condition_id r ->
                     length x = length c.2) ->
  (forall p cid, p ∈ population_keys -> cid ∈ map fst condition_attributes ->
                 exists r, r ∈ data_attributes /\ data_key r = (p, cid)) ->
  (exists c1 c2 : condition,
      c1 ∈ condition_attributes /\ c2 ∈ condition_attributes
      /\ length c1.2 <> length c2.2) ->
  exists s,
    _get_population_state population_keys condition_attributes attribute_names
      data_attributes = Ok s
    /\ xr.population (data_set s) = population_keys
    /\ xr.condition_time (data_set s)
       = flat_map (fun c : condition => map (pair c.1) c.2) condition_attributes
    /\ forall name,
         name ∈ attribute_names ->
         variable s name
         = Ok (assembled population_keys condition_attributes name
                 data_attributes).
Proof.
  intros Hp Hc Hn Hpne Hkeys Hattrs Hcomplete Hragged.
  set (index := flat_map (fun c : condition => map (pair c.1) c.2)
                  condition_attributes).
  set (matrix_of := fun name =>
         assembled population_keys condition_attributes name data_attributes).
  assert (Hindex : _get_condition_time_multi_index condition_attributes = Ok index).
  { destruct Hragged as (c1 & _ & Hc1 & _).
    destruct condition_attributes; [inversion Hc1 | reflexivity]. }
  assert (Hstep : forall name d0,
             name ∈ attribute_names ->
             dict.keys d0 = member_conditions population_keys condition_attributes ->
             exists d',
               data_array population_keys condition_attributes
                 (_get_data_keys data_attributes) data_attributes name d0
               = Ok (d', matrix_of name)
               /\ dict.keys d'
                  = member_conditions population_keys condition_attributes
               /\ conforms population_keys index (matrix_of name) = true).
  { intros name d0 Hname Hd0.
    apply data_array_ragged; try assumption.
    apply Forall_forall. intros r Hr.
    pose proof (proj1 (Forall_forall _ _) Hkeys r Hr) as (H1 & H2).
    split; [exact H1|]. split; [exact H2|]. exact (Hattrs name r Hname Hr). }
  unfold _get_population_state. rewrite Hindex. simpl bind.
  unfold _get_data_set.
  pose proof (initial_array_data _ _ Hp Hc) as Hinit.
  unfold condition in Hinit. rewrite Hinit. clear Hinit.
  destruct (built_of_names population_keys condition_attributes data_attributes
              matrix_of attribute_names []
              (map (fun k => (k, None))
                 (member_conditions population_keys condition_attributes)))
    as (d' & Hbuilt).
  { unfold dict.keys. rewrite <- list_fmap_compose. apply list_fmap_id. }
  { exact Hn. }
  { intros name d0 Hname Hd0.
    destruct (Hstep name d0 Hname Hd0) as (d1 & H1 & H2 & _). eauto. }
  rewrite Hbuilt. simpl bind. cbn [snd app].
  set (built := map (fun n => (n, matrix_of n)) attribute_names).
  assert (Hconf : forallb (fun v : string * matrix =>
                             conforms population_keys index v.2) built = true).
  { apply forallb_forall. intros v Hv. unfold built in Hv.
    apply in_map_iff in Hv as (name & <- & Hname). simpl.
    destruct (Hstep name
                (map (fun k => (k, None))
                   (member_conditions population_keys condition_attributes)))
      as (_ & _ & _ & H); [apply list_elem_of_In; exact Hname| |exact H].
    unfold dict.keys. rewrite <- list_fmap_compose. apply list_fmap_id. }
  rewrite Hconf.
  eexists. split; [reflexivity|]. split; [reflexivity|]. split; [reflexivity|].
  intros name Hname. apply variable_of_values.
  unfold xr.values. cbn [store data_set xr.data_vars].
  rewrite (appended_buffers_values (dict.values built)
             (imap (fun i (v : string * matrix) => (v.1, i)) built)
             (fun v => dict.values built !!! v.2)).
  rewrite values_of_numbered.
  apply get_of_elem.
  - unfold built. rewrite <- list_fmap_compose.
    replace (map (fst ∘ _) attribute_names) with (map id attribute_names)
      by reflexivity.
    rewrite list_fmap_id. exact Hn.
  - unfold built. apply list_elem_of_fmap. exists name.
    split; [reflexivity | exact Hname].
Qed.

Lemma complete_records_assemble_witness :
  exists s,
    _get_population_state [1%Z; 2%Z] two_conditions ["rate"%string]
      complete_records = Ok s
    /\ xr.population (data_set s) = [1%Z; 2%Z]
    /\ xr.condition_time (data_set s)
       = flat_map (fun c : condition => map (pair c.1) c.2) two_conditions
    /\ forall name,
         name ∈ ["rate"%string] ->
         variable s name
         = Ok (assembled [1%Z; 2%Z] two_conditions name complete_records).
Proof.
  apply (complete_records_assemble [1%Z; 2%Z] two_conditions ["rate"%string]
           complete_records).
  - apply (bool_decide_unpack _). vm_compute. reflexivity.
  - apply (bool_decide_unpack _). vm_compute. reflexivity.
  - apply (bool_decide_unpack _). vm_compute. reflexivity.
  - discriminate.
  - repeat constructor; apply (bool_decide_unpack _); vm_compute; reflexivity.
  - intros name r Hname Hr. apply list_elem_of_singleton in Hname. subst name.
    repeat (apply elem_of_cons in Hr as [->|Hr]); [| | | |inversion Hr];
      (eexists; split; [reflexivity|]); intros c Hc E;
      (repeat (apply elem_of_cons in Hc as [->|Hc]); [| |inversion Hc]);
      solve [reflexivity | discriminate E].
  - intros p cid Hp Hc. simpl in Hc.
    repeat (apply elem_of_cons in Hp as [->|Hp]);
      [| |inversion Hp];
      (repeat (apply elem_of_cons in Hc as [->|Hc]); [| |inversion Hc]);
      solve [ eexists; split; [left | reflexivity]
            | eexists; split; [right; left | reflexivity]
            | eexists; split; [right; right; left | reflexivity]
            | eexists; split; [right; right; right; left | reflexivity] ].
  - exists (1%Z, [0; 1]%Q), (2%Z, [0; 1; 2]%Q).
    split; [left|]. split; [right; left|]. simpl. lia.
Defined.

(** ** [NeuronRate.make] at equal sample rates *)

Lemma grid_le (t0 fs a b : Q) :
  (0 < fs)%Q -> (t0 + a / fs <= t0 + b / fs)%Q <-> (a <= b)%Q.
Proof.
  intros Hfs. rewrite Qplus_le_r. unfold Qdiv.
  apply Qmult_le_r. apply Qinv_lt_0_compat. exact Hfs.
Qed.

Lemma half_below (a b : Z) :
  (inject_Z a + - (1 # 2) <= inject_Z b + 0)%Q <-> (a <= b)%Z.
Proof.
  split.
  - intros H. destruct (Z_le_gt_dec a b) as [Hab|Hab]; [exact Hab|].
    assert (Hq : (inject_Z (b + 1) <= inject_Z a)%Q) by (rewrite <- Zle_Qle; lia).
    rewrite inject_Z_plus in Hq. change (inject_Z 1) with 1%Q in Hq. lra.
  - intros H. rewrite Zle_Qle in H. lra.
Qed.

Lemma searchsorted_on_grid (t0 fs : Q) (edges : list Q) (i : nat) (tau : Q) :
  (0 < fs)%Q ->
  on_grid t0 fs (- (1 # 2)) edges ->
  S i <= length edges ->
  (tau == t0 + (inject_Z (Z.of_nat i) + 0) / fs)%Q ->
  np.searchsorted_right Qle_bool edges tau = S i.
Proof.
  intros Hfs Hgrid Hlen Htau. apply searchsorted_right_spec.
  split; [exact Hlen|]. split.
  - apply Forall_lookup_2. intros j e Hj.
    apply lookup_take_Some in Hj as [Hj Hji].
    apply Qle_bool_iff. rewrite (Hgrid j e Hj), Htau.
    apply grid_le; [exact Hfs|]. apply half_below. lia.
  - intros e He. apply not_true_is_false. intros H.
    apply Qle_bool_iff in H. rewrite (Hgrid _ e He), Htau in H.
    apply grid_le in H; [|exact Hfs]. apply (proj1 (half_below _ _)) in H. lia.
Qed.

Lemma nondecreasing_on_grid (t0 fs c : Q) (l : list Q) :
  (0 < fs)%Q -> on_grid t0 fs c l -> np.nondecreasing Qle_bool l = true.
Proof.
  intros Hfs. revert t0.
  induction l as [|x [|y l] IH]; intros t0 Hgrid; [reflexivity..|].
  change (Qle_bool x y && np.nondecreasing Qle_bool (y :: l) = true).
  apply andb_true_iff. split.
  - apply Qle_bool_iff.
    rewrite (Hgrid 0 x eq_refl), (Hgrid 1 y eq_refl).
    apply grid_le; [exact Hfs|]. rewrite Qplus_le_l.
    rewrite <- Zle_Qle. lia.
  - apply (IH (t0 + 1 / fs)%Q). intros j e Hj.
    rewrite (Hgrid (S j) e Hj). rewrite Nat2Z.inj_succ, <- Z.add_1_r, inject_Z_plus.
    assert (~ fs == 0)%Q by (intros E; rewrite E in Hfs; inversion Hfs).
    field. assumption.
Qed.

Lemma regular_grid_snoc (t0 fs : Q) (m : nat) :
  regular_grid t0 fs (S m)
  = regular_grid t0 fs m ++ [(t0 + inject_Z (Z.of_nat m) / fs)%Q].
Proof. unfold regular_grid. rewrite seq_S, map_app. reflexivity. Qed.

Lemma last_snoc {A : Type} (a : list A) (x : A) : py.last (a ++ [x]) = Ok x.
Proof.
  induction a as [|y a IH]; simpl; [reflexivity|].
  destruct (a ++ [x]) eqn:E; [destruct a; discriminate|]. exact IH.
Qed.

Lemma regular_grid_on_grid (t0 fs : Q) (n : nat) :
  on_grid t0 fs 0 (regular_grid t0 fs n).
Proof.
  intros j x. unfold regular_grid. rewrite list_lookup_fmap.
  destruct (seq 0 n !! j) as [i|] eqn:E; [|discriminate].
  apply lookup_seq in E as [-> _]. simpl. intros [= <-].
  rewrite Qplus_0_r. reflexivity.
Qed.

Lemma nondecreasing_skip (x y : Q) (r : list Q) :
  Qle_bool x y = true -> np.nondecreasing Qle_bool (y :: r) = true ->
  np.nondecreasing Qle_bool (x :: r) = true.
Proof.
  intros Hxy Hs. destruct r as [|z r]; [reflexivity|].
  change (Qle_bool y z && np.nondecreasing Qle_bool (z :: r) = true) in Hs.
  change (Qle_bool x z && np.nondecreasing Qle_bool (z :: r) = true).
  apply andb_true_iff in Hs as [Hyz Hs]. rewrite Hs, andb_true_r.
  apply Qle_bool_iff. apply Qle_bool_iff in Hxy, Hyz.
  eapply Qle_trans; eassumption.
Qed.

Lemma qmax_sorted (x : Q) (r : list Q) :
  np.nondecreasing Qle_bool (x :: r) = true ->
  py.last (x :: r) = Ok (foldl np.qmax x r).
Proof.
  revert x. induction r as [|y r IH]; intros x Hs; [reflexivity|].
  change (Qle_bool x y && np.nondecreasing Qle_bool (y :: r) = true) in Hs.
  apply andb_true_iff in Hs as [Hxy Hs].
  change (py.last (y :: r) = Ok (foldl np.qmax (np.qmax x y) r)).
  unfold np.qmax at 2. rewrite Hxy. exact (IH y Hs).
Qed.

Lemma qmin_sorted (x : Q) (r : list Q) :
  np.nondecreasing Qle_bool (x :: r) = true -> foldl np.qmin x r = x.
Proof.
  induction r as [|y r IH]; intros Hs; [reflexivity|].
  change (Qle_bool x y && np.nondecreasing Qle_bool (y :: r) = true) in Hs.
  apply andb_true_iff in Hs as [Hxy Hs].
  simpl. unfold np.qmin at 2. rewrite Hxy.
  apply IH. exact (nondecreasing_skip x y r Hxy Hs).
Qed.

Lemma round_of_integer (x : Q) (z : Z) : (x == inject_Z z)%Q -> py.round x = z.
Proof.
  intros H. unfold py.round.
  assert (Hf : Qfloor x = z) by (rewrite H; apply Qfloor_Z).
  rewrite Hf.
  assert (Hlt : Qcompare (x - inject_Z z) (1 # 2) = Lt).
  { apply -> Qlt_alt. rewrite H. lra. }
  rewrite Hlt. reflexivity.
Qed.

(** The ephys time vector of a trial sampled like the behavior. *)
Lemma linspace_on_grid (t0 fs : Q) (m : nat) :
  (0 < fs)%Q ->
  exists l,
    np.linspace (t0 + inject_Z (Z.of_nat 0) / fs)
      (t0 + inject_Z (Z.of_nat m) / fs) (1 + Z.of_nat m)
    = Ok l
    /\ length l = S m
    /\ on_grid t0 fs 0 l.
Proof.
  intros Hfs.
  assert (Hfs0 : ~ (fs == 0)%Q) by (intros E; rewrite E in Hfs; inversion Hfs).
  destruct m as [|m].
  - eexists. split; [reflexivity|]. split; [reflexivity|].
    intros [|j] x; [|discriminate]. intros [= <-]. simpl. reflexivity.
  - unfold np.linspace.
    destruct (1 + Z.of_nat (S m))%Z as [|p|p] eqn:E; [lia| |lia].
    assert (Hp : p <> 1%positive) by (intros ->; lia).
    assert (Hnum : (Z.pos p - 1 = Z.of_nat (S m))%Z) by lia.
    assert (Hn : Z.to_nat (Z.pos p) - 1 = S m) by lia.
    rewrite Hnum, Hn.
    assert (Hm0 : ~ (inject_Z (Z.of_nat (S m)) == 0)%Q).
    { change 0%Q with (inject_Z 0). rewrite inject_Z_injective. lia. }
    eexists. split.
    { destruct p; try reflexivity. congruence. }
    split; [rewrite length_app, length_map, length_seq; simpl; lia|].
    intros j x Hj.
    destruct (decide (j < S m)) as [Hlt|Hge].
    + rewrite lookup_app_l in Hj by (rewrite length_map, length_seq; exact Hlt).
      rewrite list_lookup_fmap in Hj.
      destruct (seq 0 (S m) !! j) as [i|] eqn:Ei; [|discriminate].
      apply lookup_seq in Ei as [-> _]. simpl in Hj. injection Hj as <-.
      change (Z.of_nat 0) with 0%Z. change (inject_Z 0) with 0%Q.
      field. split; assumption.
    + rewrite lookup_app_r in Hj by (rewrite length_map, length_seq; lia).
      rewrite length_map, length_seq in Hj.
      destruct (j - S m) as [|k] eqn:Ek; [|discriminate].
      assert (j = S m) by lia. subst j. injection Hj as <-.
      rewrite Qplus_0_r. reflexivity.
Qed.

(** The bin edges of a regular behavior time vector. *)
Lemma time_bin_edges_on_grid (t0 fs : Q) (m : nat) :
  (0 < fs)%Q ->
  exists edges,
    NeuronRate.time_bin_edges (regular_grid t0 fs (S m)) fs = Ok edges
    /\ length edges = S (S (S m))
    /\ on_grid t0 fs (- (1 # 2)) edges.
Proof.
  intros Hfs.
  assert (Hfs0 : ~ (fs == 0)%Q) by (intros E; rewrite E in Hfs; inversion Hfs).
  unfold NeuronRate.time_bin_edges.
  assert (Hlast : py.last (regular_grid t0 fs (S m))
                  = Ok (t0 + inject_Z (Z.of_nat m) / fs)%Q).
  { rewrite regular_grid_snoc. apply last_snoc. }
  rewrite Hlast. cbn [bind].
  assert (Hz : Qeq_bool fs 0 = false).
  { apply not_true_is_false. intros E. apply Qeq_bool_iff in E. contradiction. }
  rewrite Hz. eexists. split; [reflexivity|]. split.
  { rewrite length_map, length_app. unfold regular_grid.
    rewrite length_map, length_seq. simpl. lia. }
  intros j x Hj. rewrite list_lookup_fmap in Hj.
  destruct (decide (j < S m)) as [Hlt|Hge].
  - rewrite lookup_app_l in Hj
      by (unfold regular_grid; rewrite length_map, length_seq; exact Hlt).
    destruct (regular_grid t0 fs (S m) !! j) as [t|] eqn:Et; [|discriminate].
    injection Hj as <-. rewrite (regular_grid_on_grid t0 fs (S m) j t Et).
    field. exact Hfs0.
  - rewrite lookup_app_r in Hj
      by (unfold regular_grid; rewrite length_map, length_seq; lia).
    unfold regular_grid in Hj at 1. rewrite length_map, length_seq in Hj.
    destruct (j - S m) as [|[|k]] eqn:Ek; simpl in Hj; [| |discriminate].
    + assert (j = S m) by lia. subst j. injection Hj as <-.
      rewrite Nat2Z.inj_succ, <- Z.add_1_r, inject_Z_plus.
      change (inject_Z 1) with 1%Q. field. exact Hfs0.
    + assert (j = S (S m)) by lia. subst j. injection Hj as <-.
      rewrite !Nat2Z.inj_succ, <- !Z.add_1_r, !inject_Z_plus.
      change (inject_Z 1) with 1%Q. field. exact Hfs0.
Qed.

Lemma select_positions {A B : Type} (f : A -> B) (g : nat -> B) (l : list A) :
  forall (mask : list bool) (k : nat),
  length l = length mask ->
  (forall i x, l !! i = Some x -> mask !! i = Some true -> f x = g (k + i)) ->
  map f (np.select l mask) = map g (spike_positions k mask).
Proof.
  induction l as [|x l IH]; intros [|b mask] k Hlen H; try discriminate;
    [reflexivity|].
  assert (Hrest : map f (np.select l mask) = map g (spike_positions (S k) mask)).
  { apply IH; [simpl in Hlen; lia|]. intros i y Hy Hm.
    replace (S k + i) with (k + S i) by lia. apply (H (S i) y); assumption. }
  simpl. destruct b; simpl; rewrite Hrest; [|reflexivity].
  f_equal. rewrite (H 0 x eq_refl eq_refl), Nat.add_0_r. reflexivity.
Qed.

Lemma bool_list_eq (a b : list bool) :
  length a = length b ->
  (forall k, a !! k = Some true <-> b !! k = Some true) -> a = b.
Proof.
  intros Hlen H. apply list_eq. intros k.
  destruct (a !! k) as [x|] eqn:Ea; destruct (b !! k) as [y|] eqn:Eb.
  - specialize (H k). rewrite Ea, Eb in H.
    destruct x, y; try reflexivity.
    + destruct H as [H _]. specialize (H eq_refl). discriminate.
    + destruct H as [_ H]. specialize (H eq_refl). discriminate.
  - apply lookup_lt_Some in Ea. apply lookup_ge_None in Eb. lia.
  - apply lookup_lt_Some in Eb. apply lookup_ge_None in Ea. lia.
  - reflexivity.
Qed.

(** Marking the positions of the spikes of a raster gives the raster. *)
Lemma set_true_positions (raster : list bool) :
  np.set_true (np.zeros_bool (length raster))
    (np.within (length raster) (map Z.of_nat (spike_positions 0 raster)))
  = raster.
Proof.
  apply bool_list_eq.
  { rewrite set_true_length. apply repeat_length. }
  intros k. rewrite set_true_lookup.
  2:{ unfold np.within. apply Forall_forall. intros b Hb.
      apply list_elem_of_In, filter_In in Hb as [_ Hb].
      apply andb_true_iff in Hb as [Hb _]. apply Z.leb_le. exact Hb. }
  unfold np.zeros_bool. rewrite repeat_length. split.
  - intros [H|[Hk H]].
    { apply list_elem_of_lookup_2, list_elem_of_In, repeat_spec in H.
      discriminate. }
    unfold np.within in H. apply list_elem_of_In, filter_In in H as [H _].
    apply in_map_iff in H as (i & Hi & H). apply Nat2Z.inj in Hi. subst i.
    apply list_elem_of_In, elem_of_spike_positions in H as [_ H].
    rewrite Nat.sub_0_r in H. exact H.
  - intros H. right. pose proof (lookup_lt_Some _ _ _ H) as Hk.
    split; [exact Hk|]. unfold np.within.
    apply list_elem_of_In, filter_In. split.
    + apply in_map, list_elem_of_In, elem_of_spike_positions.
      split; [lia|]. rewrite Nat.sub_0_r. exact H.
    + apply andb_true_iff. split; [apply Z.leb_le | apply Z.ltb_lt]; lia.
Qed.

(** X20: when the ephys and the behavior sample rates are one positive
    rate, the behavior time vector is regular at that rate and has one
    sample per raster sample, rebinning changes nothing: for a raster with
    a spike, [NeuronRate.make] returns the sample rate times the filtered
    raster itself, or raises what the filter lookup or the filter raises
    (exact rationals). *)
Theorem rate_at_equal_sample_rates (t0 fs : Q) (spike_raster : list bool)
    (filter_rows : list Z) (filter_parts : list NeuronRate.filter_part) :
  (0 < fs)%Q ->
  py.any spike_raster = true ->
  NeuronRate.make fs (regular_grid t0 fs (length spike_raster)) spike_raster fs
    filter_rows filter_parts
  = let* filter_key := dj.fetch1 filter_rows in
    let* filter_rel := NeuronRate.filter_lookup filter_parts filter_key in
    let* filtered := NeuronRate.filter filter_rel spike_raster fs in
    Ok (map (fun x => (fs * x)%Q) filtered).
Proof.
  intros Hfs Hany.
  assert (Hfs0 : ~ (fs == 0)%Q) by (intros E; rewrite E in Hfs; inversion Hfs).
  destruct (length spike_raster) as [|m] eqn:Hn.
  { destruct spike_raster; [discriminate Hany | discriminate Hn]. }
  set (t_beh := regular_grid t0 fs (S m)).
  assert (Hlen_beh : length t_beh = S m).
  { unfold t_beh, regular_grid. rewrite length_map. apply length_seq. }
  assert (Hsorted : np.nondecreasing Qle_bool t_beh = true).
  { apply (nondecreasing_on_grid t0 fs 0); [exact Hfs|].
    apply regular_grid_on_grid. }
  assert (Hlast : py.last t_beh = Ok (t0 + inject_Z (Z.of_nat m) / fs)%Q).
  { unfold t_beh. rewrite regular_grid_snoc. apply last_snoc. }
  assert (Hfirst : py.first t_beh = Ok (t0 + inject_Z (Z.of_nat 0) / fs)%Q)
    by reflexivity.
  assert (Hptp : np.ptp t_beh
                 = Ok ((t0 + inject_Z (Z.of_nat m) / fs)
                       - (t0 + inject_Z (Z.of_nat 0) / fs))%Q).
  { destruct t_beh as [|x r] eqn:E; [discriminate|].
    injection Hfirst as ->. unfold np.ptp.
    pose proof (qmax_sorted _ _ Hsorted) as Hmax. rewrite Hlast in Hmax.
    injection Hmax as <-. rewrite (qmin_sorted _ _ Hsorted). reflexivity. }
  assert (Hround : py.round
                     (fs * ((t0 + inject_Z (Z.of_nat m) / fs)
                            - (t0 + inject_Z (Z.of_nat 0) / fs)))
                   = Z.of_nat m).
  { apply round_of_integer. change (inject_Z (Z.of_nat 0)) with 0%Q.
    field. exact Hfs0. }
  destruct (linspace_on_grid t0 fs m Hfs) as (t_ephys & Hlin & Hlen_ephys & Hgrid).
  destruct (time_bin_edges_on_grid t0 fs m Hfs) as (edges & Hedges & Hlen_edges & Hegrid).
  fold t_beh in Hedges.
  unfold NeuronRate.make. rewrite Hany, Hfirst, Hlast, Hptp. cbn [bind].
  rewrite Hround, Hlin. cbn [bind]. rewrite Hedges. cbn [bind].
  unfold np.mask_index. rewrite Hlen_ephys, Hn, Nat.eqb_refl. cbn [bind].
  unfold np.digitize, np.monotonicity.
  rewrite (nondecreasing_on_grid t0 fs _ edges Hfs Hegrid). cbn [bind].
  rewrite map_map.
  rewrite (select_positions
             (fun tau => (Z.of_nat (np.searchsorted_right Qle_bool edges tau) - 1)%Z)
             Z.of_nat t_ephys spike_raster 0).
  2:{ congruence. }
  2:{ intros i x Hx Hi. simpl.
      rewrite (searchsorted_on_grid t0 fs edges i x Hfs Hegrid).
      - lia.
      - apply lookup_lt_Some in Hx. lia.
      - exact (Hgrid i x Hx). }
  rewrite Hlen_beh, <- Hn, set_true_positions. reflexivity.
Qed.

Lemma rate_at_equal_sample_rates_witness :
  NeuronRate.make 2 (regular_grid 0 2 (length [false; true; true]))
    [false; true; true] 2 [1%Z] [boxcar]
  = let* filter_key := dj.fetch1 [1%Z] in
    let* filter_rel := NeuronRate.filter_lookup [boxcar] filter_key in
    let* filtered := NeuronRate.filter filter_rel [false; true; true] 2 in
    Ok (map (fun x => (2 * x)%Q) filtered).
Proof.
  apply (rate_at_equal_sample_rates 0 2 [false; true; true] [1%Z] [boxcar]);
    reflexivity.
Defined.

(** * Properties of [_resample_data_attributes] *)

Section DictLookup.
Context {K V : Type} `{EqDecision K}.

Lemma get_update_eq (k : K) (v : V) (d : list (K * V)) :
  dict.get k (dict.update k v d) = Some v.
Proof.
  induction d as [|[k' v'] d IH]; simpl.
  - destruct (decide (k = k)); [reflexivity | congruence].
  - destruct (decide (k = k')) as [->|Hne]; simpl.
    + destruct (decide (k' = k')); [reflexivity | congruence].
    + destruct (decide (k = k')); [congruence | exact IH].
Qed.

Lemma get_update_ne (k k' : K) (v : V) (d : list (K * V)) :
  k <> k' -> dict.get k (dict.update k' v d) = dict.get k d.
Proof.
  intros Hne. induction d as [|[k2 v2] d IH]; simpl.
  - destruct (decide (k = k')); [congruence | reflexivity].
  - destruct (decide (k' = k2)) as [->|Hne2]; simpl.
    + destruct (decide (k = k2)); [congruence | reflexivity].
    + destruct (decide (k = k2)); [reflexivity | exact IH].
Qed.
End DictLookup.

(** On a boolean array the typed [_rebin] is the one on rasters. *)
Lemma rebin_of_mask (raster : list bool) (t_old t_new : list Q) (fs_new : Z) :
  Resampling._rebin (Resampling.BoolArray raster) t_old t_new fs_new
  = let* r := _rebin raster t_old t_new (inject_Z fs_new) in
    Ok (Resampling.BoolArray r).
Proof.
  unfold Resampling._rebin, _rebin, Resampling.index.
  destruct (np.mask_index t_old raster); [|reflexivity]. simpl.
  destruct (np.digitize _ _ _); reflexivity.
Qed.

(** ** Records at the target rate *)

Lemma resample_records_at_rate (profile : Z -> Z -> list Q) (sample_rate : Z)
    (attribute_names : list string)
    (data_attributes done : list Resampling.data_attribute)
    (times : list ((Z * Z) * list Q)) :
  Forall (fun attr => Resampling.old_sample_rate attr = sample_rate)
    data_attributes ->
  foldl (fun acc attr =>
           let* st := acc in
           let* r := Resampling.resample_record profile sample_rate
                       attribute_names st.1 attr in
           Ok (r.1, st.2 ++ [r.2]))
    (Ok (times, done)) data_attributes
  = Ok (times, done ++ data_attributes).
Proof.
  intros Hall. revert done.
  induction Hall as [|attr rest Hattr _ IH]; intros done; simpl.
  - rewrite app_nil_r. reflexivity.
  - unfold Resampling.resample_record at 2.
    rewrite Hattr, Z.eqb_refl. simpl. rewrite IH, <- app_assoc. reflexivity.
Qed.

(** X21: when every fetched record was sampled at the target rate,
    [_resample_data_attributes] returns the records as they are: no
    attribute is read, so none is missed, and no time vector is asked
    for. *)
Theorem resample_at_target_rate (profile : Z -> Z -> list Q) (sample_rate : Z)
    (condition_attributes : list condition) (attribute_names : list string)
    (data_attributes : list Resampling.data_attribute) :
  Forall (fun attr => Resampling.old_sample_rate attr = sample_rate)
    data_attributes ->
  Resampling._resample_data_attributes profile sample_rate condition_attributes
    attribute_names data_attributes
  = Ok data_attributes.
Proof.
  intros Hall. unfold Resampling._resample_data_attributes.
  rewrite (resample_records_at_rate _ _ _ _ [] _ Hall). reflexivity.
Qed.

Lemma resample_at_target_rate_witness :
  Resampling._resample_data_attributes example_profile 2
    (Resampling._fetch_condition_attributes example_profile 2 [1%Z; 2%Z])
    ["rate"%string; "force"%string]
    [fetched_record 1 1 2 "rate" (Resampling.FloatArray [3; 4]%Q);
     fetched_record 1 2 2 "raster" (Resampling.BoolArray [true; false; false; true])]
  = Ok [fetched_record 1 1 2 "rate" (Resampling.FloatArray [3; 4]%Q);
        fetched_record 1 2 2 "raster"
          (Resampling.BoolArray [true; false; false; true])].
Proof.
  apply (resample_at_target_rate example_profile 2).
  repeat constructor.
Defined.

(** ** A float attribute of zeros and ones *)

Lemma condition_times_get (sample_rate cid : Z)
    (condition_attributes : list condition) :
  forall d : list ((Z * Z) * list Q),
  (exists t, dict.get (cid, sample_rate) d = Some t)
  \/ cid ∈ map fst condition_attributes ->
  exists t,
    dict.get (cid, sample_rate)
      (foldl (fun d (attr : condition) =>
                dict.update (attr.1, sample_rate) attr.2 d)
         d condition_attributes)
    = Some t.
Proof.
  induction condition_attributes as [|c conds IH]; intros d H; simpl.
  - destruct H as [H|H]; [exact H | inversion H].
  - apply IH. destruct (decide (c.1 = cid)) as [<-|Hne].
    + left. rewrite get_update_eq. eauto.
    + destruct H as [(t & Ht)|H].
      * left. exists t. rewrite get_update_ne by congruence. exact Ht.
      * right. simpl in H. apply elem_of_cons in H as [H|H];
          [congruence | exact H].
Qed.

Lemma names_after_raise (t_old t_new : list Q) (sample_rate : Z)
    (names : list string) (e : exn) :
  foldl (fun acc name =>
           let* attributes := acc in
           Resampling.resample_attribute t_old t_new sample_rate name attributes)
    (Raise e) names
  = Raise e.
Proof. induction names as [|n names IH]; [reflexivity | exact IH]. Qed.

Lemma records_after_raise (profile : Z -> Z -> list Q) (sample_rate : Z)
    (attribute_names : list string)
    (data_attributes : list Resampling.data_attribute) (e : exn) :
  foldl (fun acc attr =>
           let* st := acc in
           let* r := Resampling.resample_record profile sample_rate
                       attribute_names st.1 attr in
           Ok (r.1, st.2 ++ [r.2]))
    (Raise e) data_attributes
  = Raise e.
Proof. induction data_attributes as [|r rest IH]; [reflexivity | exact IH]. Qed.

Lemma is_boolean_zeros_ones (a : list Q) :
  Forall (fun x => (x == 0 \/ x == 1)%Q) a ->
  Resampling.is_boolean (Resampling.FloatArray a) = true.
Proof.
  intros H. unfold Resampling.is_boolean. simpl. apply forallb_forall.
  intros x Hx. apply list_elem_of_In in Hx.
  destruct (proj1 (Forall_forall _ _) H x Hx) as [E|E];
    apply orb_true_iff; [left | right]; apply Qeq_bool_iff; exact E.
Qed.

(** A float array of zeros and ones is taken for a raster, and cannot
    index the old time vector. *)
Lemma resample_zeros_ones (profile : Z -> Z -> list Q)
    (sample_rate : Z) (condition_attributes : list condition)
    (name : string) (names : list string)
    (before after : list Resampling.data_attribute)
    (attr : Resampling.data_attribute) (a : list Q) :
  Forall (fun r => Resampling.old_sample_rate r = sample_rate) before ->
  Resampling.old_sample_rate attr <> sample_rate ->
  Resampling.condition_id attr ∈ map fst condition_attributes ->
  dict.get name (Resampling.attributes attr) = Some (Resampling.FloatArray a) ->
  Forall (fun x => (x == 0 \/ x == 1)%Q) a ->
  Resampling._resample_data_attributes profile sample_rate condition_attributes
    (name :: names) (before ++ attr :: after)
  = Raise IndexError.
Proof.
  intros Hbefore Hrate Hcid Hget Ha.
  unfold Resampling._resample_data_attributes.
  rewrite foldl_app, (resample_records_at_rate _ _ _ _ [] _ Hbefore).
  cbn [foldl bind fst snd].
  assert (Hrec : forall times,
             (exists t, dict.get (Resampling.condition_id attr, sample_rate) times
                        = Some t) ->
             Resampling.resample_record profile sample_rate (name :: names)
               times attr = Raise IndexError).
  { intros times (t_new & Ht). unfold Resampling.resample_record.
    replace (Resampling.old_sample_rate attr =? sample_rate)%Z with false
      by (symmetry; apply Z.eqb_neq; exact Hrate).
    assert (Hstep : forall t_old times',
               dict.get (Resampling.condition_id attr, sample_rate) times'
               = Some t_new ->
               match dict.get (Resampling.condition_id attr, sample_rate) times'
               with
               | Some t_new0 =>
                   let* resampled :=
                     foldl (fun acc name0 =>
                              let* attributes := acc in
                              Resampling.resample_attribute t_old t_new0
                                sample_rate name0 attributes)
                       (Ok (Resampling.attributes attr)) (name :: names) in
                   Ok (times',
                       {| Resampling.member := Resampling.member attr;
                          Resampling.condition_id := Resampling.condition_id attr;
                          Resampling.old_sample_rate :=
                            Resampling.old_sample_rate attr;
                          Resampling.attributes := resampled |})
               | None => Raise KeyError
               end = Raise IndexError).
    { intros t_old times' Ht'. rewrite Ht'. cbn [foldl bind].
      unfold Resampling.resample_attribute at 2.
      rewrite Hget, (is_boolean_zeros_ones a Ha).
      unfold Resampling._rebin, Resampling.index. cbn [bind].
      rewrite names_after_raise. reflexivity. }
    destruct (dict.get (Resampling.condition_id attr,
                        Resampling.old_sample_rate attr) times) as [t_old|].
    - apply Hstep. exact Ht.
    - apply Hstep. rewrite get_update_ne; [exact Ht|]. congruence. }
  rewrite Hrec.
  - cbn [bind]. rewrite records_after_raise. reflexivity.
  - apply condition_times_get. right. exact Hcid.
Qed.

(** X22: a record sampled at another rate whose first requested attribute
    is a float array holding only zeros and ones (the rate of a neuron
    that never fired, say) cannot be resampled: the array is taken for a
    raster, [_rebin] indexes the old time vector with it, and
    [_resample_data_attributes] raises [IndexError].  The records before
    it are at the target rate, and its condition is one of the fetched
    ones. *)
Theorem resample_float_zeros_raises (profile : Z -> Z -> list Q)
    (sample_rate : Z) (condition_attributes : list condition)
    (name : string) (names : list string)
    (before after : list Resampling.data_attribute)
    (attr : Resampling.data_attribute) (a : list Q) :
  Forall (fun r => Resampling.old_sample_rate r = sample_rate) before ->
  Resampling.old_sample_rate attr <> sample_rate ->
  Resampling.condition_id attr ∈ map fst condition_attributes ->
  dict.get name (Resampling.attributes attr) = Some (Resampling.FloatArray a) ->
  Forall (fun x => (x == 0 \/ x == 1)%Q) a ->
  Resampling._resample_data_attributes profile sample_rate condition_attributes
    (name :: names) (before ++ attr :: after)
  = Raise IndexError.
Proof. apply resample_zeros_ones. Qed.

Lemma resample_float_zeros_raises_witness :
  Resampling._resample_data_attributes example_profile 2
    (Resampling._fetch_condition_attributes example_profile 2 [1%Z; 2%Z])
    ("rate"%string :: [])
    ([fetched_record 1 2 2 "rate" (Resampling.FloatArray [3; 4; 5; 6]%Q)]
       ++ fetched_record 2 1 4 "rate" (Resampling.FloatArray [0; 0; 0; 0]%Q)
       :: [])
  = Raise IndexError.
Proof.
  apply (resample_float_zeros_raises example_profile 2
           (Resampling._fetch_condition_attributes example_profile 2 [1%Z; 2%Z])
           "rate" []
           [fetched_record 1 2 2 "rate" (Resampling.FloatArray [3; 4; 5; 6]%Q)]
           []
           (fetched_record 2 1 4 "rate" (Resampling.FloatArray [0; 0; 0; 0]%Q))
           [0; 0; 0; 0]%Q).
  - repeat constructor.
  - discriminate.
  - apply (bool_decide_unpack _). vm_compute. reflexivity.
  - reflexivity.
  - repeat constructor; left; reflexivity.
Defined.


(** ** From a silent neuron to the population state *)

Lemma sum_of_zero_rows (n : nat) (rest : list (list Q)) (s : list Q) :
  length s = n -> Forall (fun x => (x == 0)%Q) s ->
  Forall (fun row => row = np.zeros n) rest ->
  exists total,
    foldl (fun acc x => let* s := acc in np.add s x) (Ok s) rest = Ok total
    /\ length total = n
    /\ Forall (fun x => (x == 0)%Q) total.
Proof.
  intros Hlen Hs Hrest. revert s Hlen Hs.
  induction Hrest as [|row rest -> _ IH]; intros s Hlen Hs; simpl.
  - exists s. repeat split; assumption.
  - unfold np.add. unfold np.zeros at 1 2. rewrite repeat_length, Hlen, Nat.eqb_refl.
    apply IH.
    + rewrite length_zip_with, repeat_length. lia.
    + apply Forall_lookup_2. intros i x Hx.
      apply lookup_zip_with_Some in Hx as (a & b & -> & Ha & Hb).
      apply list_elem_of_lookup_2, list_elem_of_In, repeat_spec in Hb. subst b.
      rewrite (Forall_lookup_1 _ _ _ _ Hs Ha). reflexivity.
Qed.

(** X23: the PSTH of a neuron that fired in no trial is an array of zeros,
    and a population state cannot be built from it at another sample
    rate: [NeuronRate.make] returns zeros for every trial, [NeuronPsth.make]
    averages them to zeros, and [_resample_data_attributes] on a record
    that holds this PSTH as its first requested attribute, sampled at
    another rate than the target, raises [IndexError]. *)
Theorem silent_neuron_cannot_be_resampled (fs_beh : Q) (t_beh : list Q)
    (fs_ephys : Q) (filter_rows : list Z)
    (filter_parts : list NeuronRate.filter_part) (trials : list (list bool))
    (profile : Z -> Z -> list Q) (sample_rate : Z)
    (condition_attributes : list condition) (name : string)
    (names : list string) (before after : list Resampling.data_attribute)
    (member cid old_sample_rate : Z) :
  trials <> [] ->
  Forall (fun raster => py.any raster = false) trials ->
  Forall (fun r => Resampling.old_sample_rate r = sample_rate) before ->
  old_sample_rate <> sample_rate ->
  cid ∈ map fst condition_attributes ->
  exists rates psth,
    traverse (fun raster =>
                NeuronRate.make fs_beh t_beh raster fs_ephys filter_rows
                  filter_parts) trials = Ok rates
    /\ NeuronPsth.make rates = Ok psth
    /\ Forall (fun x => (x == 0)%Q) psth
    /\ Resampling._resample_data_attributes profile sample_rate
         condition_attributes (name :: names)
         (before
            ++ fetched_record member cid old_sample_rate name
                 (Resampling.FloatArray psth) :: after)
       = Raise IndexError.
Proof.
  intros Hne Hsilent Hbefore Hrate Hcid.
  set (n := length t_beh).
  assert (Hrates : traverse (fun raster =>
                               NeuronRate.make fs_beh t_beh raster fs_ephys
                                 filter_rows filter_parts) trials
                   = Ok (map (fun _ => np.zeros n) trials)).
  { clear Hne. induction Hsilent as [|raster trials Hr _ IH]; [reflexivity|].
    simpl. unfold NeuronRate.make at 1. rewrite Hr, IH. reflexivity. }
  destruct trials as [|raster trials]; [congruence|].
  destruct (sum_of_zero_rows n (map (fun _ => np.zeros n) trials) (np.zeros n))
    as (total & Htotal & Hlen & Hzero).
  { apply repeat_length. }
  { apply Forall_forall. intros x Hx.
    apply list_elem_of_In, repeat_spec in Hx. subst x. reflexivity. }
  { apply Forall_fmap, Forall_forall. intros ? _. reflexivity. }
  set (psth := map (fun s => (s / inject_Z (Z.of_nat (length (map (fun _ : list bool => np.zeros n)
                                              (raster :: trials)))))%Q) total).
  assert (Hpsth : Forall (fun x => (x == 0)%Q) psth).
  { unfold psth. apply Forall_fmap. eapply Forall_impl; [exact Hzero|].
    intros x Hx. simpl. unfold Qdiv. rewrite Hx. apply Qmult_0_l. }
  exists (map (fun _ => np.zeros n) (raster :: trials)), psth.
  split; [exact Hrates|]. split.
  { unfold NeuronPsth.make, np.mean_axis0. cbn [map]. rewrite Htotal.
    reflexivity. }
  split; [exact Hpsth|].
  apply (resample_zeros_ones profile sample_rate condition_attributes name names
           before after _ psth); try assumption.
  - simpl. destruct (decide (name = name)); [reflexivity | congruence].
  - eapply Forall_impl; [exact Hpsth|]. intros x Hx. left. exact Hx.
Qed.

Lemma silent_neuron_cannot_be_resampled_witness :
  exists rates psth,
    traverse (fun raster =>
                NeuronRate.make 2 [0; 1 # 2; 1; 3 # 2]%Q raster 4 [1%Z] [boxcar])
      [[false; false; false; false; false; false; false];
       [false; false; false; false; false; false; false]] = Ok rates
    /\ NeuronPsth.make rates = Ok psth
    /\ Forall (fun x => (x == 0)%Q) psth
    /\ Resampling._resample_data_attributes example_profile 1
         (Resampling._fetch_condition_attributes example_profile 1 [2%Z])
         ("psth"%string :: [])
         ([] ++ fetched_record 7 2 2 "psth" (Resampling.FloatArray psth) :: [])
       = Raise IndexError.
Proof.
  apply (silent_neuron_cannot_be_resampled 2 [0; 1 # 2; 1; 3 # 2]%Q 4 [1%Z]
           [boxcar]
           [[false; false; false; false; false; false; false];
            [false; false; false; false; false; false; false]]
           example_profile 1
           (Resampling._fetch_condition_attributes example_profile 1 [2%Z])
           "psth" [] [] [] 7 2 2).
  - discriminate.
  - repeat constructor.
  - constructor.
  - discriminate.
  - apply (bool_decide_unpack _). vm_compute. reflexivity.
Defined.

(** ** The sizes of the resampled attributes *)

Lemma resample_attribute_size (t_old t_new : list Q) (sample_rate : Z)
    (name : string) (attr attr' : list (string * Resampling.array)) :
  Resampling.resample_attribute t_old t_new sample_rate name attr = Ok attr' ->
  (exists a, dict.get name attr' = Some a
             /\ Resampling.size a = length t_new)
  /\ forall n, n <> name -> dict.get n attr' = dict.get n attr.
Proof.
  unfold Resampling.resample_attribute.
  destruct (dict.get name attr) as [a|]; [|discriminate].
  assert (Hsize : forall r,
             (if Resampling.is_boolean a
              then Resampling._rebin a t_old t_new sample_rate
              else let* y := np.interp t_new t_old (Resampling.astype_float a) in
                   Ok (Resampling.FloatArray y)) = Ok r ->
             Resampling.size r = length t_new).
  { intros r. destruct (Resampling.is_boolean a).
    - unfold Resampling._rebin.
      destruct (Resampling.index t_old a); [|discriminate]. cbn [bind].
      destruct (np.digitize _ _ _); [|discriminate]. cbn [bind].
      intros [= <-]. simpl. rewrite length_map. apply length_seq.
    - unfold np.interp. destruct t_old; [discriminate|].
      destruct (_ =? _); [|discriminate]. cbn [bind].
      intros [= <-]. simpl. apply length_map. }
  destruct (if Resampling.is_boolean a then _ else _) as [r|]; [|discriminate].
  cbn [bind]. intros [= <-]. split.
  - exists r. split; [apply get_update_eq | apply Hsize; reflexivity].
  - intros n Hn. apply get_update_ne. exact Hn.
Qed.

Lemma resample_names_sizes (t_old t_new : list Q) (sample_rate : Z)
    (names : list string) :
  forall (good : list string) (attr attr' : list (string * Resampling.array)),
  (forall n, n ∈ good ->
             exists a, dict.get n attr = Some a
                       /\ Resampling.size a = length t_new) ->
  foldl (fun acc name =>
           let* attributes := acc in
           Resampling.resample_attribute t_old t_new sample_rate name attributes)
    (Ok attr) names = Ok attr' ->
  forall n, n ∈ good ++ names ->
            exists a, dict.get n attr' = Some a
                      /\ Resampling.size a = length t_new.
Proof.
  induction names as [|name names IH]; intros good attr attr' Hgood Hrun n Hn.
  - simpl in Hrun. injection Hrun as <-. rewrite app_nil_r in Hn.
    exact (Hgood n Hn).
  - simpl in Hrun.
    destruct (Resampling.resample_attribute t_old t_new sample_rate name attr)
      as [attr1|e] eqn:Hstep.
    2:{ rewrite names_after_raise in Hrun. discriminate. }
    destruct (resample_attribute_size _ _ _ _ _ _ Hstep) as (Hname & Hothers).
    apply (IH (good ++ [name]) attr1 attr').
    + intros n0 Hn0. apply elem_of_app in Hn0 as [Hn0|Hn0].
      * destruct (decide (n0 = name)) as [->|Hne]; [exact Hname|].
        rewrite (Hothers n0 Hne). exact (Hgood n0 Hn0).
      * apply list_elem_of_singleton in Hn0. subst n0. exact Hname.
    + exact Hrun.
    + rewrite <- app_assoc. exact Hn.
Qed.

Lemma condition_times_elem (sample_rate cid : Z) (t : list Q)
    (condition_attributes : list condition) :
  forall d : list ((Z * Z) * list Q),
  dict.get (cid, sample_rate)
    (foldl (fun d (attr : condition) =>
              dict.update (attr.1, sample_rate) attr.2 d)
       d condition_attributes)
  = Some t ->
  dict.get (cid, sample_rate) d = Some t \/ (cid, t) ∈ condition_attributes.
Proof.
  induction condition_attributes as [|[c tc] conds IH]; intros d H; simpl in *.
  - left. exact H.
  - destruct (IH _ H) as [H1|H1]; [|right; right; exact H1].
    destruct (decide (c = cid)) as [->|Hne].
    + rewrite get_update_eq in H1. injection H1 as ->. right. left.
    + rewrite get_update_ne in H1 by congruence. left. exact H1.
Qed.

Lemma resample_record_spec (profile : Z -> Z -> list Q) (sample_rate : Z)
    (attribute_names : list string) (times times' : list ((Z * Z) * list Q))
    (attr attr' : Resampling.data_attribute) :
  Resampling.resample_record profile sample_rate attribute_names times attr
  = Ok (times', attr') ->
  (forall cid, dict.get (cid, sample_rate) times'
               = dict.get (cid, sample_rate) times)
  /\ Resampling.member attr' = Resampling.member attr
  /\ Resampling.condition_id attr' = Resampling.condition_id attr
  /\ Resampling.old_sample_rate attr' = Resampling.old_sample_rate attr
  /\ (Resampling.old_sample_rate attr = sample_rate -> attr' = attr)
  /\ (Resampling.old_sample_rate attr <> sample_rate ->
      exists t_new,
        dict.get (Resampling.condition_id attr, sample_rate) times = Some t_new
        /\ forall name,
             name ∈ attribute_names ->
             exists a, dict.get name (Resampling.attributes attr') = Some a
                       /\ Resampling.size a = length t_new).
Proof.
  unfold Resampling.resample_record.
  destruct (Z.eqb_spec (Resampling.old_sample_rate attr) sample_rate) as [E|E].
  { intros [= <- <-]. repeat split; try reflexivity. intros H. contradiction. }
  set (key := (Resampling.condition_id attr, Resampling.old_sample_rate attr)).
  assert (Hstep : forall t_old times1,
             (forall cid, dict.get (cid, sample_rate) times1
                          = dict.get (cid, sample_rate) times) ->
             match dict.get (Resampling.condition_id attr, sample_rate) times1
             with
             | Some t_new =>
                 let* resampled :=
                   foldl (fun acc name =>
                            let* attributes := acc in
                            Resampling.resample_attribute t_old t_new
                              sample_rate name attributes)
                     (Ok (Resampling.attributes attr)) attribute_names in
                 Ok (times1,
                     {| Resampling.member := Resampling.member attr;
                        Resampling.condition_id := Resampling.condition_id attr;
                        Resampling.old_sample_rate :=
                          Resampling.old_sample_rate attr;
                        Resampling.attributes := resampled |})
             | None => Raise KeyError
             end = Ok (times', attr') ->
             (forall cid, dict.get (cid, sample_rate) times'
                          = dict.get (cid, sample_rate) times)
             /\ Resampling.member attr' = Resampling.member attr
             /\ Resampling.condition_id attr' = Resampling.condition_id attr
             /\ Resampling.old_sample_rate attr' = Resampling.old_sample_rate attr
             /\ (Resampling.old_sample_rate attr = sample_rate -> attr' = attr)
             /\ (Resampling.old_sample_rate attr <> sample_rate ->
                 exists t_new,
                   dict.get (Resampling.condition_id attr, sample_rate) times
                   = Some t_new
                   /\ forall name,
                        name ∈ attribute_names ->
                        exists a,
                          dict.get name (Resampling.attributes attr') = Some a
                          /\ Resampling.size a = length t_new)).
  { intros t_old times1 Hsame.
    destruct (dict.get (Resampling.condition_id attr, sample_rate) times1)
      as [t_new|] eqn:Ht; [|discriminate].
    destruct (foldl _ _ attribute_names) as [resampled|] eqn:Hfold;
      [|discriminate].
    cbn [bind]. intros [= <- <-]. cbn.
    split; [exact Hsame|]. split; [reflexivity|]. split; [reflexivity|].
    split; [reflexivity|]. split; [intros H; contradiction|].
    intros _. exists t_new. split; [rewrite <- Hsame; exact Ht|].
    intros name Hname.
    apply (resample_names_sizes t_old t_new sample_rate attribute_names []
             (Resampling.attributes attr) resampled);
      [intros n Hn; inversion Hn | exact Hfold | exact Hname]. }
  destruct (dict.get key times) as [t_old|].
  - apply Hstep. reflexivity.
  - apply Hstep. intros cid. apply get_update_ne. unfold key. congruence.
Qed.

Lemma resample_records_spec (profile : Z -> Z -> list Q) (sample_rate : Z)
    (attribute_names : list string) (times0 : list ((Z * Z) * list Q))
    (data_attributes : list Resampling.data_attribute) :
  forall (times times' : list ((Z * Z) * list Q))
         (done out : list Resampling.data_attribute),
  (forall cid, dict.get (cid, sample_rate) times
               = dict.get (cid, sample_rate) times0) ->
  foldl (fun acc attr =>
           let* st := acc in
           let* r := Resampling.resample_record profile sample_rate
                       attribute_names st.1 attr in
           Ok (r.1, st.2 ++ [r.2]))
    (Ok (times, done)) data_attributes
  = Ok (times', out) ->
  exists resampled,
    out = done ++ resampled
    /\ Forall2
         (fun attr attr' =>
            Resampling.member attr' = Resampling.member attr
            /\ Resampling.condition_id attr' = Resampling.condition_id attr
            /\ Resampling.old_sample_rate attr' = Resampling.old_sample_rate attr
            /\ (Resampling.old_sample_rate attr = sample_rate -> attr' = attr)
            /\ (Resampling.old_sample_rate attr <> sample_rate ->
                exists t_new,
                  dict.get (Resampling.condition_id attr, sample_rate) times0
                  = Some t_new
                  /\ forall name,
                       name ∈ attribute_names ->
                       exists a,
                         dict.get name (Resampling.attributes attr') = Some a
                         /\ Resampling.size a = length t_new))
         data_attributes resampled.
Proof.
  induction data_attributes as [|attr rest IH];
    intros times times' done out Hsame Hrun; simpl in Hrun.
  - injection Hrun as _ <-. exists []. split; [rewrite app_nil_r; reflexivity|].
    constructor.
  - destruct (Resampling.resample_record profile sample_rate attribute_names
                times attr) as [[times1 attr1]|e] eqn:Hrec.
    2:{ simpl in Hrun. rewrite records_after_raise in Hrun. discriminate. }
    simpl in Hrun.
    destruct (resample_record_spec _ _ _ _ _ _ _ Hrec)
      as (Hsame1 & H1 & H2 & H3 & H4 & H5).
    destruct (IH times1 times' (done ++ [attr1]) out) as (resampled & -> & HF).
    { intros cid. rewrite Hsame1. apply Hsame. }
    { exact Hrun. }
    exists (attr1 :: resampled). split; [rewrite <- app_assoc; reflexivity|].
    constructor; [|exact HF].
    split; [exact H1|]. split; [exact H2|]. split; [exact H3|].
    split; [exact H4|]. intros Hr. destruct (H5 Hr) as (t_new & Ht & Hn).
    exists t_new. split; [rewrite <- Hsame; exact Ht | exact Hn].
Qed.

(** X24: when [_resample_data_attributes] returns, it returns one record
    per fetched record, in order, with the same member, condition and old
    sample rate; a record at the target rate is unchanged; and in a record
    that was at another rate every requested attribute is an array with
    one value per sample of the target-rate time vector of the record's
    condition, which is one of the fetched conditions. *)
Theorem resampled_sizes (profile : Z -> Z -> list Q) (sample_rate : Z)
    (condition_attributes : list condition) (attribute_names : list string)
    (data_attributes resampled : list Resampling.data_attribute) :
  Resampling._resample_data_attributes profile sample_rate condition_attributes
    attribute_names data_attributes = Ok resampled ->
  Forall2
    (fun attr attr' =>
       Resampling.member attr' = Resampling.member attr
       /\ Resampling.condition_id attr' = Resampling.condition_id attr
       /\ Resampling.old_sample_rate attr' = Resampling.old_sample_rate attr
       /\ (Resampling.old_sample_rate attr = sample_rate -> attr' = attr)
       /\ (Resampling.old_sample_rate attr <> sample_rate ->
           exists t_new,
             (Resampling.condition_id attr, t_new) ∈ condition_attributes
             /\ forall name,
                  name ∈ attribute_names ->
                  exists a,
                    dict.get name (Resampling.attributes attr') = Some a
                    /\ Resampling.size a = length t_new))
    data_attributes resampled.
Proof.
  unfold Resampling._resample_data_attributes.
  destruct (foldl _ _ data_attributes) as [[times' out]|e] eqn:Hrun;
    [|discriminate].
  cbn [bind snd]. intros [= <-].
  destruct (resample_records_spec _ _ _
              (Resampling.condition_times sample_rate condition_attributes)
              _ _ _ _ _ (fun _ => eq_refl) Hrun) as (res & -> & HF).
  simpl. eapply Forall2_impl; [exact HF|].
  intros attr attr' (H1 & H2 & H3 & H4 & H5).
  split; [exact H1|]. split; [exact H2|]. split; [exact H3|].
  split; [exact H4|]. intros Hr. destruct (H5 Hr) as (t_new & Ht & Hn).
  exists t_new. split; [|exact Hn].
  apply condition_times_elem in Ht as [Ht|Ht]; [discriminate | exact Ht].
Qed.

Lemma resampled_sizes_witness :
  Forall2
    (fun attr attr' =>
       Resampling.member attr' = Resampling.member attr
       /\ Resampling.condition_id attr' = Resampling.condition_id attr
       /\ Resampling.old_sample_rate attr' = Resampling.old_sample_rate attr
       /\ (Resampling.old_sample_rate attr = 2%Z -> attr' = attr)
       /\ (Resampling.old_sample_rate attr <> 2%Z ->
           exists t_new,
             (Resampling.condition_id attr, t_new)
             ∈ Resampling._fetch_condition_attributes example_profile 2
                 [1%Z; 2%Z]
             /\ forall name,
                  name ∈ ["a"%string] ->
                  exists a,
                    dict.get name (Resampling.attributes attr') = Some a
                    /\ Resampling.size a = length t_new))
    [fetched_record 1 1 4 "a" (Resampling.FloatArray [3; 4; 5; 6]%Q);
     fetched_record 1 2 2 "a" (Resampling.FloatArray [1; 1; 2; 2]%Q);
     fetched_record 2 1 4 "a" (Resampling.BoolArray [true; false; false; true])]
    [fetched_record 1 1 4 "a" (Resampling.FloatArray [3; 5]%Q);
     fetched_record 1 2 2 "a" (Resampling.FloatArray [1; 1; 2; 2]%Q);
     fetched_record 2 1 4 "a" (Resampling.BoolArray [false; true])].
Proof.
  apply (resampled_sizes example_profile 2
           (Resampling._fetch_condition_attributes example_profile 2 [1%Z; 2%Z])
           ["a"%string]).
  reflexivity.
Defined.

(** ** A raster of integers *)

Lemma getitem_cases (t : list Q) (v : Z) :
  (exists x, Resampling.getitem t v = Ok x)
  \/ Resampling.getitem t v = Raise IndexError.
Proof.
  unfold Resampling.getitem.
  destruct (_ && _); [left; eauto|]. destruct (_ && _); [left; eauto|].
  right. reflexivity.
Qed.

Lemma traverse_getitem (t : list Q) (l : list Z) :
  traverse (Resampling.getitem t) l
  = if forallb (fun v => match Resampling.getitem t v with
                         | Ok _ => true
                         | Raise _ => false
                         end) l
    then Ok (map (fun v => match Resampling.getitem t v with
                           | Ok x => x
                           | Raise _ => 0%Q
                           end) l)
    else Raise IndexError.
Proof.
  induction l as [|v l IH]; [reflexivity|]. simpl. rewrite IH.
  destruct (getitem_cases t v) as [(x & ->)| ->]; [|reflexivity].
  simpl. destruct (forallb _ l); reflexivity.
Qed.

Lemma forallb_same_entries {A : Type} (p : A -> bool) (a a' : list A) :
  (forall v, v ∈ a <-> v ∈ a') -> forallb p a = forallb p a'.
Proof.
  intros H. destruct (forallb p a) eqn:E; symmetry.
  - apply forallb_forall. intros v Hv.
    apply (proj1 (forallb_forall _ _) E). apply list_elem_of_In, H, list_elem_of_In. exact Hv.
  - apply not_true_is_false. intros E'.
    assert (forallb p a = true); [|congruence].
    apply forallb_forall. intros v Hv.
    apply (proj1 (forallb_forall _ _) E'). apply list_elem_of_In, H, list_elem_of_In. exact Hv.
Qed.

Lemma marked_same_entries {A : Type} (h : A -> nat) (a a' : list A) (n : nat) :
  (forall v, v ∈ a <-> v ∈ a') ->
  map (fun i => bool_decide (i ∈ map h a)) (seq 0 n)
  = map (fun i => bool_decide (i ∈ map h a')) (seq 0 n).
Proof.
  intros H. apply map_ext. intros i. apply bool_decide_ext.
  split; intros Hi; apply list_elem_of_fmap in Hi as (v & -> & Hv);
    apply list_elem_of_fmap; exists v; (split; [reflexivity|]); apply H; exact Hv.
Qed.

(** X25: an integer array is not read as a mask by [_rebin]: its entries
    are positions in the old time vector, so that the rebinned raster
    depends on which integers the array holds and not on where or how
    often: two integer arrays with the same entries give the same result
    (a raster of integers 0 and 1 only ever marks the bins of the first
    two old samples). *)
Theorem rebin_integer_raster (a a' : list Z) (t_old t_new : list Q)
    (fs_new : Z) :
  (forall v, v ∈ a <-> v ∈ a') ->
  Resampling._rebin (Resampling.IntArray a) t_old t_new fs_new
  = Resampling._rebin (Resampling.IntArray a') t_old t_new fs_new.
Proof.
  intros H. unfold Resampling._rebin, Resampling.index.
  rewrite !traverse_getitem, (forallb_same_entries _ a a' H).
  destruct (forallb _ a'); [|reflexivity]. cbn [bind].
  unfold np.digitize.
  destruct (np.monotonicity float64.leb (t_bins t_new)); [reflexivity| |];
    cbn [bind]; rewrite !map_map; f_equal; f_equal;
    apply marked_same_entries; exact H.
Qed.

Lemma rebin_integer_raster_witness :
  Resampling._rebin (Resampling.IntArray [0; 1; 1; 0; 1]%Z)
    [0; 1; 2; 3; 4]%Q [0; 2; 4]%Q 1
  = Resampling._rebin (Resampling.IntArray [1; 0]%Z)
      [0; 1; 2; 3; 4]%Q [0; 2; 4]%Q 1.
Proof.
  apply (rebin_integer_raster [0; 1; 1; 0; 1]%Z [1; 0]%Z).
  intros v. split; intros Hv;
    repeat (apply elem_of_cons in Hv as [->|Hv]);
    try (inversion Hv; fail);
    apply (bool_decide_unpack _); vm_compute; reflexivity.
Defined.

(** ** Resampling onto the same grid *)

Lemma strictly_sorted_lookup (t : list Q) (i j : nat) (x y : Q) :
  StronglySorted Qlt t -> i < j -> t !! i = Some x -> t !! j = Some y ->
  (x < y)%Q.
Proof.
  intros Hs. revert i j. induction Hs as [|a t Hs IH Ha]; intros i j Hij Hi Hj;
    [discriminate|].
  destruct j as [|j]; [lia|]. destruct i as [|i]; simpl in *.
  - injection Hi as <-. apply (proj1 (List.Forall_forall _ _) Ha).
    apply list_elem_of_In. eapply list_elem_of_lookup_2. exact Hj.
  - apply (IH i j); [lia | assumption..].
Qed.

Lemma searchsorted_at_sample (t : list Q) (i : nat) (x x' : Q) :
  StronglySorted Qlt t -> t !! i = Some x' -> (x == x')%Q ->
  np.searchsorted_right Qle_bool t x = S i.
Proof.
  intros Hs Hi Hx. apply searchsorted_right_spec.
  split; [apply lookup_lt_Some in Hi; lia|]. split.
  - apply Forall_lookup_2. intros j e Hj.
    apply lookup_take_Some in Hj as [Hj Hji]. apply Qle_bool_iff. rewrite Hx.
    destruct (decide (j = i)) as [->|Hne].
    + assert (e = x') by congruence. subst e. apply Qle_refl.
    + apply Qlt_le_weak.
      apply (strictly_sorted_lookup t j i e x' Hs); [lia | assumption..].
  - intros e He. apply not_true_is_false. intros H. apply Qle_bool_iff in H.
    pose proof (strictly_sorted_lookup t i (S i) x' e Hs ltac:(lia) Hi He).
    rewrite Hx in H. lra.
Qed.

(** Interpolating at a sample point gives the sampled value. *)
Lemma interp_at_sample (xp fp : list Q) (i : nat) (x x' y : Q) :
  StronglySorted Qlt xp -> length fp = length xp ->
  xp !! i = Some x' -> (x == x')%Q -> fp !! i = Some y ->
  np.interp_at xp fp x = y.
Proof.
  intros Hs Hlen Hi Hx Hy. unfold np.interp_at.
  rewrite (searchsorted_at_sample xp i x x' Hs Hi Hx), Hi, Hy.
  destruct (xp !! S i) as [x1|] eqn:Hx1; [|reflexivity].
  destruct (fp !! S i) as [y1|] eqn:Hy1; [|reflexivity].
  replace (Qeq_bool x' x) with true; [reflexivity|].
  symmetry. apply Qeq_bool_iff. symmetry. exact Hx.
Qed.

Lemma astype_float_length (a : Resampling.array) :
  length (Resampling.astype_float a) = Resampling.size a.
Proof. destruct a; simpl; try apply length_map; reflexivity. Qed.

(** X26: an attribute that is not all zeros and ones, sampled at another
    rate on a strictly increasing old time vector with one sample per
    value, is resampled by the loop body of [_resample_data_attributes] to
    a float array with one value per new sample, and at every new time
    that is also an old sample time the value is the old sample: nothing
    is shifted (unlike [_rebin], which delays a raster by one sample on
    its own grid). *)
Theorem resample_keeps_common_samples (t_old t_new : list Q) (sample_rate : Z)
    (name : string) (attr : list (string * Resampling.array))
    (a : Resampling.array) :
  StronglySorted Qlt t_old ->
  dict.get name attr = Some a ->
  Resampling.size a = length t_old ->
  Resampling.is_boolean a = false ->
  exists y,
    Resampling.resample_attribute t_old t_new sample_rate name attr
    = Ok (dict.update name (Resampling.FloatArray y) attr)
    /\ length y = length t_new
    /\ forall j i x x',
         t_new !! j = Some x -> t_old !! i = Some x' -> (x == x')%Q ->
         y !! j = Resampling.astype_float a !! i.
Proof.
  intros Hs Hget Hsize Hb.
  assert (Hlen : length (Resampling.astype_float a) = length t_old).
  { rewrite astype_float_length. exact Hsize. }
  assert (Hne : t_old <> []).
  { intros E. rewrite E in Hsize.
    destruct a as [[|]|[|]|[|]]; try discriminate Hsize; discriminate Hb. }
  exists (map (np.interp_at t_old (Resampling.astype_float a)) t_new).
  split; [|split].
  - unfold Resampling.resample_attribute. rewrite Hget, Hb. unfold np.interp.
    destruct t_old; [congruence|]. rewrite Hlen, Nat.eqb_refl. reflexivity.
  - apply length_map.
  - intros j i x x' Hj Hi Hx. rewrite list_lookup_fmap, Hj. simpl.
    destruct (Resampling.astype_float a !! i) as [v|] eqn:Hv.
    + f_equal. exact (interp_at_sample _ _ i x x' v Hs Hlen Hi Hx Hv).
    + apply lookup_ge_None in Hv. apply lookup_lt_Some in Hi. lia.
Qed.

Lemma resample_keeps_common_samples_witness :
  exists y,
    Resampling.resample_attribute [0; 1 # 2; 1; 3 # 2]%Q [0; 1]%Q 1 "force"
      [("force"%string, Resampling.IntArray [3; 4; 5; 7]%Z)]
    = Ok (dict.update "force"%string (Resampling.FloatArray y)
            [("force"%string, Resampling.IntArray [3; 4; 5; 7]%Z)])
    /\ length y = length [0; 1]%Q
    /\ forall j i x x',
         [0; 1]%Q !! j = Some x ->
         [0; 1 # 2; 1; 3 # 2]%Q !! i = Some x' -> (x == x')%Q ->
         y !! j
         = Resampling.astype_float (Resampling.IntArray [3; 4; 5; 7]%Z) !! i.
Proof.
  apply (resample_keeps_common_samples [0; 1 # 2; 1; 3 # 2]%Q [0; 1]%Q 1 "force"
           [("force"%string, Resampling.IntArray [3; 4; 5; 7]%Z)]
           (Resampling.IntArray [3; 4; 5; 7]%Z)).
  - repeat constructor.
  - reflexivity.
  - reflexivity.
  - reflexivity.
Defined.

(** ** What [_rebin] marks *)

Lemma t_bins_monotonicity (t_new : list Q) :
  np.monotonicity float64.leb (t_bins t_new) = 1%Z
  \/ np.monotonicity float64.leb (t_bins t_new) = 0%Z.
Proof.
  unfold np.monotonicity.
  destruct (np.nondecreasing float64.leb (t_bins t_new)); [left; reflexivity|].
  right. replace (np.nonincreasing float64.leb (t_bins t_new)) with false;
    [reflexivity|].
  unfold t_bins. fold (midpoints t_new).
  destruct (midpoints t_new); reflexivity.
Qed.

(** X27: whatever the raster and the time vectors, the first sample of a
    raster that [_rebin] returns is never a spike: the bins start at
    [-inf], so that [np.digitize] returns no 0, and 1 is not subtracted.
    The raster returned has one entry per new sample. *)
Theorem rebin_first_sample_silent (raster : list bool) (t_old t_new : list Q)
    (fs_new : Q) (rebinned : list bool) :
  _rebin raster t_old t_new fs_new = Ok rebinned ->
  length rebinned = length t_new
  /\ (t_new <> [] -> rebinned !! 0 = Some false).
Proof.
  unfold _rebin.
  destruct (np.mask_index t_old raster) as [spike_times|]; [|discriminate].
  cbn [bind]. unfold np.digitize.
  destruct (t_bins_monotonicity t_new) as [-> | ->]; [|discriminate].
  cbn [bind]. intros [= <-]. split.
  - rewrite length_map. apply length_seq.
  - intros Hne.
    assert (Hseq : seq 0 (length t_new) !! 0 = Some 0)
      by (destruct t_new; [congruence | reflexivity]).
    rewrite list_lookup_fmap, Hseq. cbn [fmap option_fmap option_map]. f_equal.
    apply bool_decide_eq_false. intros H.
    apply list_elem_of_fmap in H as (v & Hv & H).
    apply list_elem_of_fmap in H as (t & -> & _).
    unfold t_bins in Hv. simpl in Hv. discriminate Hv.
Qed.

Lemma rebin_first_sample_silent_witness :
  length [false; true; false] = length [0; 2; 4]%Q
  /\ ([0; 2; 4]%Q <> [] -> [false; true; false] !! 0 = Some false).
Proof.
  apply (rebin_first_sample_silent [true; false; false; false; false]
           [0; 1; 2; 3; 4]%Q [0; 2; 4]%Q 1 [false; true; false]).
  reflexivity.
Defined.

Lemma leb_trans (a b c : xfloat) :
  float64.leb a b = true -> float64.leb b c = true -> float64.leb a c = true.
Proof.
  destruct a as [x| | |], b as [y| | |], c as [z| | |]; simpl;
    try discriminate; try reflexivity.
  intros H1 H2. apply Qle_bool_iff. apply Qle_bool_iff in H1, H2.
  eapply Qle_trans; eassumption.
Qed.

Lemma nondecreasing_leb_lookup (l : list xfloat) (i j : nat) (a b : xfloat) :
  np.nondecreasing float64.leb l = true -> i < j ->
  l !! i = Some a -> l !! j = Some b -> float64.leb a b = true.
Proof.
  revert i j a. induction l as [|x l IH]; intros i j a Hs Hij Hi Hj;
    [discriminate|].
  destruct j as [|j]; [lia|].
  assert (Hl : np.nondecreasing float64.leb l = true).
  { destruct l as [|y l]; [reflexivity|].
    change (float64.leb x y && np.nondecreasing float64.leb (y :: l) = true) in Hs.
    apply andb_true_iff in Hs as [_ Hs]. exact Hs. }
  destruct i as [|i]; simpl in Hi, Hj.
  - injection Hi as <-. destruct l as [|y l]; [discriminate|].
    change (float64.leb x y && np.nondecreasing float64.leb (y :: l) = true) in Hs.
    apply andb_true_iff in Hs as [Hxy _].
    destruct j as [|j]; simpl in Hj.
    + injection Hj as <-. exact Hxy.
    + apply (leb_trans x y b Hxy).
      apply (IH 0 (S j) y Hl); [lia | reflexivity | exact Hj].
  - apply (IH i j a Hl); [lia | assumption..].
Qed.

Lemma t_bins_nondecreasing (t_new : list Q) :
  StronglySorted Qlt t_new ->
  np.nondecreasing float64.leb (t_bins t_new) = true.
Proof.
  intros Hs. unfold t_bins. fold (midpoints t_new).
  pose proof (nondecreasing_midpoints t_new Hs) as H.
  destruct (midpoints t_new) as [|m ms]; [reflexivity|]. exact H.
Qed.

(** The bin that [np.digitize] returns, among non-decreasing edges. *)
Lemma digitized_bin (edges : list xfloat) (v lo hi : xfloat) (k : nat) :
  np.nondecreasing float64.leb edges = true ->
  edges !! k = Some lo -> edges !! S k = Some hi ->
  np.searchsorted_right float64.leb edges v = S k
  <-> float64.leb lo v = true /\ float64.leb hi v = false.
Proof.
  intros Hs Hlo Hhi. rewrite searchsorted_right_spec. split.
  - intros (_ & Hprefix & Hnext). split; [|exact (Hnext hi Hhi)].
    apply (Forall_lookup_1 _ _ k lo Hprefix).
    rewrite lookup_take_lt by lia. exact Hlo.
  - intros (H1 & H2). split; [apply lookup_lt_Some in Hhi; lia|]. split.
    + apply Forall_lookup_2. intros j e Hj.
      apply lookup_take_Some in Hj as [Hj Hjk].
      destruct (decide (j = k)) as [->|Hne].
      * assert (e = lo) by congruence. subst e. exact H1.
      * apply (leb_trans e lo v); [|exact H1].
        apply (nondecreasing_leb_lookup edges j k e lo Hs); [lia | assumption..].
    + intros x Hx. assert (x = hi) by congruence. subst x. exact H2.
Qed.

(** X28: on a strictly increasing new time vector, [_rebin] of a raster
    with one entry per old sample raises nothing, and sample [k + 1] of
    the raster it returns is a spike exactly when an old spike time lies
    in bin [k], from edge [k] (the midpoint before new sample [k], or
    [-inf]) up to, and not including, edge [k + 1]: every bin is written
    one sample late, and the spikes of the last bin are lost. *)
Theorem rebin_marks_next_sample (raster : list bool) (t_old t_new : list Q)
    (fs_new : Q) :
  StronglySorted Qlt t_new ->
  length t_old = length raster ->
  exists rebinned,
    _rebin raster t_old t_new fs_new = Ok rebinned
    /\ forall k lo hi,
         S k < length t_new ->
         t_bins t_new !! k = Some lo -> t_bins t_new !! S k = Some hi ->
         rebinned !! S k = Some true
         <-> exists t, t ∈ np.select t_old raster
                       /\ float64.leb lo (Fin t) = true
                       /\ float64.leb hi (Fin t) = false.
Proof.
  intros Hs Hlen. pose proof (t_bins_nondecreasing t_new Hs) as Hmono.
  unfold _rebin, np.mask_index. rewrite Hlen, Nat.eqb_refl. cbn [bind].
  unfold np.digitize, np.monotonicity. rewrite Hmono. cbn [bind].
  eexists. split; [reflexivity|].
  intros k lo hi Hk Hlo Hhi.
  rewrite list_lookup_fmap.
  rewrite (proj2 (lookup_seq 0 (length t_new) (S k) (S k)))
    by (split; [reflexivity | exact Hk]).
  cbn [fmap option_fmap option_map]. split.
  - intros [= H]. apply bool_decide_eq_true in H.
    apply list_elem_of_fmap in H as (v & Hv & H).
    apply list_elem_of_fmap in H as (t & -> & Ht).
    exists t. split; [exact Ht|].
    apply (digitized_bin (t_bins t_new) (Fin t) lo hi k Hmono Hlo Hhi).
    symmetry. exact Hv.
  - intros (t & Ht & Hbin). f_equal. apply bool_decide_eq_true.
    apply list_elem_of_fmap. exists (Fin t). split.
    + symmetry.
      apply (digitized_bin (t_bins t_new) (Fin t) lo hi k Hmono Hlo Hhi).
      exact Hbin.
    + apply list_elem_of_fmap. exists t. split; [reflexivity | exact Ht].
Qed.

Lemma rebin_marks_next_sample_witness :
  exists rebinned,
    _rebin [false; false; true; false; true] [0; 1; 2; 3; 4]%Q [0; 2; 4]%Q 1
    = Ok rebinned
    /\ forall k lo hi,
         S k < length [0; 2; 4]%Q ->
         t_bins [0; 2; 4]%Q !! k = Some lo ->
         t_bins [0; 2; 4]%Q !! S k = Some hi ->
         rebinned !! S k = Some true
         <-> exists t, t ∈ np.select [0; 1; 2; 3; 4]%Q
                             [false; false; true; false; true]
                       /\ float64.leb lo (Fin t) = true
                       /\ float64.leb hi (Fin t) = false.
Proof.
  apply (rebin_marks_next_sample [false; false; true; false; true]
           [0; 1; 2; 3; 4]%Q [0; 2; 4]%Q 1).
  - repeat constructor.
  - reflexivity.
Defined.

(** ** Arrays that hold [None] *)

Lemma traverse_one_error {A B : Type} (f : A -> result B) (e : exn)
    (l : list A) :
  (forall a, a ∈ l -> (exists b, f a = Ok b) \/ f a = Raise e) ->
  (exists a, a ∈ l /\ f a = Raise e) ->
  traverse f l = Raise e.
Proof.
  induction l as [|x l IH]; intros Hall (a & Ha & Hfa); [inversion Ha|].
  simpl. destruct (Hall x ltac:(left)) as [(b & Hb)|Hb]; rewrite Hb;
    [|reflexivity].
  simpl. rewrite IH; [reflexivity| |].
  - intros a' Ha'. apply Hall. right. exact Ha'.
  - apply elem_of_cons in Ha as [->|Ha]; [congruence | eauto].
Qed.

Lemma as_float_cases (c : cell) :
  (exists x, as_float c = Ok x) \/ as_float c = Raise TypeError.
Proof. destruct c; [left; eauto | right; reflexivity]. Qed.

Lemma as_float_row_cases (row : list cell) :
  (exists r, traverse as_float row = Ok r)
  \/ traverse as_float row = Raise TypeError.
Proof.
  induction row as [|c row IH]; [left; eexists; reflexivity|]. simpl.
  destruct c; [|right; reflexivity]. simpl.
  destruct IH as [(r & ->)| ->]; [left; eexists; reflexivity | right; reflexivity].
Qed.

Lemma as_floats_of_none (m : matrix) (row : list cell) :
  row ∈ m -> PyNone ∈ row -> as_floats m = Raise TypeError.
Proof.
  intros Hrow Hnone. unfold as_floats. apply traverse_one_error.
  - intros r _. apply as_float_row_cases.
  - exists row. split; [exact Hrow|]. apply traverse_one_error.
    + intros c _. apply as_float_cases.
    + exists PyNone. split; [exact Hnone | reflexivity].
Qed.

Lemma as_floats_cases (m : matrix) :
  (exists fm, as_floats m = Ok fm) \/ as_floats m = Raise TypeError.
Proof.
  unfold as_floats. induction m as [|row m IH]; [left; eexists; reflexivity|].
  simpl. destruct (as_float_row_cases row) as [(r & ->)| ->];
    [|right; reflexivity].
  simpl. destruct IH as [(fm & ->)| ->];
    [left; eexists; reflexivity | right; reflexivity].
Qed.

(** X29: when an array of the working data set holds a [None] (what
    assembly leaves for a missing combination), [mean_center] with no
    restriction raises [TypeError], whatever the reference variable, and
    changes nothing: the means of all variables are taken before any array
    is written. *)
Theorem none_cell_blocks_mean_center (s : self) (var : string) (m : matrix)
    (row : list cell) (reference_var : option string) :
  variable s var = Ok m -> row ∈ m -> PyNone ∈ row ->
  mean_center None reference_var s = (Raise TypeError, s).
Proof.
  intros Hvar Hrow Hnone. unfold mean_center, selected_vars. cbn [bind].
  set (vars := xr.data_vars (data_set s)).
  match goal with |- context [traverse ?f (dict.keys vars)] => set (g := f) end.
  assert (Hg : traverse g (dict.keys vars) = Raise TypeError).
  { apply traverse_one_error.
    - intros name Hname. unfold g.
      destruct (get_of_key vars name Hname) as (b & Hb).
      unfold variable. fold vars. rewrite Hb. cbn [bind].
      destruct (as_floats_cases (store s !!! b)) as [(fm & ->)| ->];
        [left; eexists; reflexivity | right; reflexivity].
    - exists var. split.
      + unfold variable in Hvar. fold vars in Hvar.
        destruct (dict.get var vars) as [b|] eqn:Hb; [|discriminate].
        unfold dict.keys. apply list_elem_of_fmap. exists (var, b).
        split; [reflexivity | apply get_elem_of; exact Hb].
      + unfold g. rewrite Hvar. cbn [bind].
        rewrite (as_floats_of_none m row Hrow Hnone). reflexivity. }
  rewrite Hg. reflexivity.
Qed.

Lemma state_with_none_constructed :
  _get_population_state [1%Z] [(1%Z, [0; 1]%Q); (2%Z, [0]%Q)] ["rate"%string]
    [rate_record 1 1 [5; 6]%Q]
  = Ok state_with_none.
Proof. reflexivity. Qed.

Lemma none_cell_blocks_mean_center_witness :
  mean_center None (Some "rate"%string) state_with_none
  = (Raise TypeError, state_with_none).
Proof.
  apply (none_cell_blocks_mean_center state_with_none "rate"
           [[Num (Fin 5); Num (Fin 6); PyNone]]
           [Num (Fin 5); Num (Fin 6); PyNone] (Some "rate"%string)).
  - reflexivity.
  - left.
  - right. right. left.
Defined.

(** ** A raster that does not fit the ephys time vector *)

Lemma linspace_length (start stop : Q) (num : Z) :
  (0 <= num)%Z ->
  exists l, np.linspace start stop num = Ok l /\ length l = Z.to_nat num.
Proof.
  intros Hnum. unfold np.linspace.
  destruct num as [|p|p]; [eexists; split; reflexivity| |lia].
  destruct (decide (p = 1%positive)) as [->|Hp];
    [eexists; split; reflexivity|].
  eexists. split; [destruct p; try reflexivity; congruence|].
  rewrite length_app, length_map, length_seq. simpl. lia.
Qed.

(** X30: for a raster with a spike, a behavior time vector that is not
    empty, a behavior sample rate that is not zero and a sample count
    [1 + round(fs_ephys * ptp(t_beh))] that is not negative,
    [NeuronRate.make] raises [IndexError] whenever the raster does not
    have exactly that many samples: the raster is used as a mask on the
    ephys time vector. *)
Theorem rate_of_mismatched_raster (fs_beh : Q) (t_beh : list Q)
    (spike_raster : list bool) (fs_ephys : Q) (filter_rows : list Z)
    (filter_parts : list NeuronRate.filter_part) (span : Q) :
  py.any spike_raster = true ->
  np.ptp t_beh = Ok span ->
  ~ (fs_beh == 0)%Q ->
  (0 <= 1 + py.round (fs_ephys * span))%Z ->
  length spike_raster <> Z.to_nat (1 + py.round (fs_ephys * span)) ->
  NeuronRate.make fs_beh t_beh spike_raster fs_ephys filter_rows filter_parts
  = Raise IndexError.
Proof.
  intros Hany Hptp Hfs Hnum Hlen.
  destruct t_beh as [|t0 rest] eqn:Et; [discriminate|]. rewrite <- Et in *.
  assert (Hfirst : py.first t_beh = Ok t0) by (rewrite Et; reflexivity).
  destruct (last_of_nonempty t_beh) as (t1 & Hlast); [rewrite Et; discriminate|].
  destruct (linspace_length t0 t1 _ Hnum) as (t_ephys & Hlin & Hlen_ephys).
  unfold NeuronRate.make. rewrite Hany, Hfirst, Hlast, Hptp. cbn [bind].
  rewrite Hlin. cbn [bind].
  unfold NeuronRate.time_bin_edges. rewrite Hlast. cbn [bind].
  replace (Qeq_bool fs_beh 0) with false.
  2:{ symmetry. apply not_true_is_false. intros E. apply Qeq_bool_iff in E.
      contradiction. }
  cbn [bind]. unfold np.mask_index.
  replace (length t_ephys =? length spike_raster) with false; [reflexivity|].
  symmetry. apply Nat.eqb_neq. lia.
Qed.

Lemma rate_of_mismatched_raster_witness :
  NeuronRate.make 2 [0; 1 # 2; 1]%Q [false; true; false] 4 [1%Z] [boxcar]
  = Raise IndexError.
Proof.
  apply (rate_of_mismatched_raster 2 [0; 1 # 2; 1]%Q [false; true; false] 4
           [1%Z] [boxcar] (1 - 0)%Q).
  - reflexivity.
  - reflexivity.
  - discriminate.
  - vm_compute. discriminate.
  - vm_compute. discriminate.
Defined.

(** ** [normalize] by a range that is zero *)











